(** * turf_server: satellite pass prediction (src/server.ts)

    A shallow embedding of [fetchTLE], [calculatePasses] and the
    [passesPrediction] request handler, and the properties of the design
    document that concern them.

    Modelling conventions.
    - A JavaScript [number] is an IEEE-754 double.  The model keeps [NaN] and
      the two infinities and takes every finite value as an exact rational:
      [parseFloat] rounds to the nearest double; the rounding and the
      overflow of the arithmetic and the sign of zero are not modelled.
    - A string is the UTF-8 encoding of the JavaScript string, byte by
      byte.
    - A [Date] is its time value, the number of milliseconds since the epoch,
      as an integer; only valid dates are modelled.  An ISO-8601 string made
      by [toISOString] is represented by the instant it denotes
      ([new Date(d.toISOString()).getTime()] is [d.getTime()]).
    - [date.setMinutes(date.getMinutes() + 1)] works on local time.  The
      time zone of the process is a [TimeZone]: the local time of an
      instant and the instant of a local time, as ECMA-262 defines
      LocalTime and UTC.
    - The functions of satellite.js are external: they are the fields of a
      [satellite.Lib], total and deterministic, so that any stub can be
      plugged in.  A collaborator that throws is outside the model.
    - [async]/[await] is sequential composition: a single request is
      modelled, interleavings of concurrent requests are not. *)

From Stdlib Require Import ZArith QArith Qround Lqa Lia String Ascii List Sorted.
From stdpp Require Import gmap strings.
From Equations Require Import Equations.
Import ListNotations.

Local Open Scope Z_scope.

(** ** JavaScript numbers *)

Inductive number : Type :=
  | NaN
  | Inf (negative : bool)
  | Fin (q : Q).

Definition Infinity : number := Inf false.

Definition of_Z (n : Z) : number := Fin (inject_Z n).

(** The abstract relational comparison of two numbers: [None] is the
    [undefined] that a [NaN] operand produces. *)
Definition num_compare (a b : number) : option comparison :=
  match a, b with
  | NaN, _ | _, NaN => None
  | Inf true, Inf true => Some Eq
  | Inf true, _ => Some Lt
  | Inf false, Inf false => Some Eq
  | Inf false, _ => Some Gt
  | Fin _, Inf true => Some Gt
  | Fin _, Inf false => Some Lt
  | Fin p, Fin q => Some (Qcompare p q)
  end.

(** [a < b], [a > b], [a <= b], [a >= b] *)
Definition num_lt (a b : number) : bool :=
  match num_compare a b with Some Lt => true | _ => false end.
Definition num_gt (a b : number) : bool := num_lt b a.
Definition num_le (a b : number) : bool :=
  match num_compare a b with Some Lt | Some Eq => true | _ => false end.
Definition num_ge (a b : number) : bool := num_le b a.

(** ToBoolean on a number: [0] and [NaN] are falsy. *)
Definition truthy (a : number) : bool :=
  match a with
  | NaN => false
  | Inf _ => true
  | Fin q => negb (Qeq_bool q 0)
  end.

(** [a || b] *)
Definition num_or (a b : number) : number := if truthy a then a else b.

Definition num_neg (a : number) : number :=
  match a with
  | NaN => NaN
  | Inf s => Inf (negb s)
  | Fin q => Fin (- q)
  end.

(** [a + b] *)
Definition num_add (a b : number) : number :=
  match a, b with
  | NaN, _ | _, NaN => NaN
  | Inf s, Inf t => if Bool.eqb s t then Inf s else NaN
  | Inf s, Fin _ | Fin _, Inf s => Inf s
  | Fin p, Fin q => Fin (p + q)
  end.

(** [a - b] *)
Definition num_sub (a b : number) : number := num_add a (num_neg b).

Definition Qsign_neg (q : Q) : bool :=
  match Qcompare q 0 with Lt => true | _ => false end.

(** [a * b] *)
Definition num_mul (a b : number) : number :=
  match a, b with
  | NaN, _ | _, NaN => NaN
  | Inf s, Inf t => Inf (xorb s t)
  | Inf s, Fin q | Fin q, Inf s =>
      if Qeq_bool q 0 then NaN else Inf (xorb s (Qsign_neg q))
  | Fin p, Fin q => Fin (p * q)
  end.

(** [a / b]; the quotient by a zero takes the sign of the dividend, the
    zero being read as [+0]. *)
Definition num_div (a b : number) : number :=
  match a, b with
  | NaN, _ | _, NaN => NaN
  | Inf _, Inf _ => NaN
  | Inf s, Fin q => Inf (xorb s (Qsign_neg q))
  | Fin _, Inf _ => Fin 0
  | Fin p, Fin q =>
      if Qeq_bool q 0
      then (if Qeq_bool p 0 then NaN else Inf (Qsign_neg p))
      else Fin (p / q)
  end.

(** Rounding towards zero. *)
Definition Qtrunc (q : Q) : Z := Z.quot (Qnum q) (Z.pos (Qden q)).

(** [a % b]: the remainder has the sign of the dividend. *)
Definition num_rem (a b : number) : number :=
  match a, b with
  | NaN, _ | _, NaN => NaN
  | Inf _, _ => NaN
  | Fin p, Inf _ => Fin p
  | Fin p, Fin q =>
      if Qeq_bool q 0 then NaN
      else Fin (p - q * inject_Z (Qtrunc (p / q)))
  end.

(** [Math.round]: the nearest integer, ties towards [+Infinity]. *)
Definition Math_round (a : number) : number :=
  match a with
  | Fin q => of_Z (Qfloor (q + (1 # 2)))
  | _ => a
  end.

(** [Math.PI], the double nearest to pi. *)
Definition Math_PI : Q := 884279719003555 # 281474976710656.

(** [n] is the finite number [q]. *)
Definition num_is (n : number) (q : Q) : Prop :=
  match n with Fin r => (r == q)%Q | _ => False end.

(** [n] is a finite number in the half-open interval from [lo] to [hi]. *)
Definition num_in (lo hi : Q) (n : number) : Prop :=
  match n with Fin r => (lo <= r /\ r < hi)%Q | _ => False end.

(** ** Dates *)

Definition Date : Type := Z.

(** The time zone of the process, as ECMA-262 reads it: [LocalTime t] is
    the local time of the instant [t], and [UTC t] is the instant that
    the local time [t] denotes.  The local time runs ahead of the instant
    by [max_offset] at most, and the instant chosen for a local time shows
    this local time, or a later one when the local time is skipped by a
    clock change. *)
Class TimeZone : Type :=
  { LocalTime : Z -> Z;
    UTC : Z -> Z;
    max_offset : Z;
    LocalTime_le : forall t, LocalTime t <= t + max_offset;
    LocalTime_UTC : forall t, t <= LocalTime (UTC t) }.

Definition msPerDay : Z := 86400000.

Definition Day (t : Z) : Z := t / msPerDay.
Definition HourFromTime (t : Z) : Z := (t / 3600000) mod 24.
Definition MinFromTime (t : Z) : Z := (t / 60000) mod 60.
Definition SecFromTime (t : Z) : Z := (t / 1000) mod 60.
Definition msFromTime (t : Z) : Z := t mod 1000.

Definition MakeTime (hour min sec ms : Z) : Z :=
  hour * 3600000 + min * 60000 + sec * 1000 + ms.

Definition MakeDate (day time : Z) : Z := day * msPerDay + time.

Section LocalDates.
Context {tz : TimeZone}.

(** [date.getMinutes()] *)
Definition getMinutes (date : Date) : Z := MinFromTime (LocalTime date).

(** The time value of [date] after [date.setMinutes(min)]. *)
Definition setMinutes (date : Date) (min : Z) : Date :=
  let t := LocalTime date in
  UTC (MakeDate (Day t)
         (MakeTime (HourFromTime t) min (SecFromTime t) (msFromTime t))).

(** The update of the loop of line 86:
    [date.setMinutes(date.getMinutes() + 1)]. *)
Definition next_minute (date : Date) : Date :=
  setMinutes date (getMinutes date + 1).

(** One minute later on the local clock. *)
Lemma next_minute_local (date : Date) :
  next_minute date = UTC (LocalTime date + 60000).
Proof.
  unfold next_minute, setMinutes, getMinutes. f_equal.
  unfold MakeDate, MakeTime, Day, HourFromTime, MinFromTime, SecFromTime,
    msFromTime, msPerDay.
  generalize (LocalTime date). intros t.
  assert (H1 : t / 60000 = t / 1000 / 60)
    by (rewrite Z.div_div by lia; reflexivity).
  assert (H2 : t / 3600000 = t / 1000 / 60 / 60)
    by (rewrite !Z.div_div by lia; reflexivity).
  assert (H3 : t / 86400000 = t / 1000 / 60 / 60 / 24)
    by (rewrite !Z.div_div by lia; reflexivity).
  rewrite H1, H2, H3.
  pose proof (Z.div_mod t 1000 ltac:(lia)).
  pose proof (Z.div_mod (t / 1000) 60 ltac:(lia)).
  pose proof (Z.div_mod (t / 1000 / 60) 60 ltac:(lia)).
  pose proof (Z.div_mod (t / 1000 / 60 / 60) 24 ltac:(lia)).
  lia.
Qed.

Lemma next_minute_progress (date : Date) :
  LocalTime date + 60000 <= LocalTime (next_minute date).
Proof. rewrite next_minute_local. apply LocalTime_UTC. Qed.

(** The number of iterations that the loop of line 86 has left at most. *)
Definition iterations_left (endTime date : Date) : nat :=
  Z.to_nat ((endTime + max_offset - LocalTime date) / 60000 + 1).

Lemma iterations_left_next (endTime date : Date) :
  date <= endTime ->
  (iterations_left endTime (next_minute date) < iterations_left endTime date)%nat.
Proof.
  intros Hle. unfold iterations_left.
  pose proof (next_minute_progress date) as Hp.
  pose proof (LocalTime_le date) as Hb.
  assert (0 <= (endTime + max_offset - LocalTime date) / 60000)
    by (apply Z.div_pos; lia).
  assert ((endTime + max_offset - LocalTime (next_minute date)) / 60000
          <= (endTime + max_offset - LocalTime date - 60000) / 60000)
    by (apply Z.div_le_mono; lia).
  assert ((endTime + max_offset - LocalTime date - 60000) / 60000
          = (endTime + max_offset - LocalTime date) / 60000 - 1).
  { replace (endTime + max_offset - LocalTime date - 60000)
      with ((endTime + max_offset - LocalTime date) + (-1) * 60000) by lia.
    rewrite Z.div_add by lia. lia. }
  lia.
Qed.

(** The instants at which the loop of line 86 runs its body, from the
    current value of [date] on. *)
Equations? visit_loop (endTime : Date) (date : Date) : list Date
    by wf (iterations_left endTime date) lt :=
  visit_loop endTime date with decide (date <= endTime) := {
    | left _ := date :: visit_loop endTime (next_minute date);
    | right _ := [] }.
Proof. apply iterations_left_next. assumption. Qed.

(** The instants that the walk over a window visits, in the order of the
    visits. *)
Definition visits (startTime endTime : Date) : list Date :=
  visit_loop endTime startTime.

End LocalDates.

(** A zone whose offset from UTC never changes. *)
Lemma fixed_LocalTime_le (offset t : Z) : t + offset <= t + offset.
Proof. lia. Qed.

Lemma fixed_LocalTime_UTC (offset t : Z) : t <= t - offset + offset.
Proof. lia. Qed.

Definition fixed_zone (offset : Z) : TimeZone :=
  {| LocalTime := fun t => t + offset;
     UTC := fun t => t - offset;
     max_offset := offset;
     LocalTime_le := fixed_LocalTime_le offset;
     LocalTime_UTC := fixed_LocalTime_UTC offset |}.

Definition utc_zone : TimeZone := fixed_zone 0.

(** A zone whose offset changes once, from [before] to [after] at the
    instant [change].  A local time that the change repeats denotes its
    first occurrence; a local time that the change skips is read with the
    offset [before]. *)
Definition offset_at (change before after t : Z) : Z :=
  if t <? change then before else after.

Definition instant_of (change before after t : Z) : Z :=
  if t - before <? change then t - before
  else if change <=? t - after then t - after
  else t - before.

Lemma change_LocalTime_le (change before after t : Z) :
  t + offset_at change before after t <= t + Z.max before after.
Proof. unfold offset_at. destruct (t <? change); lia. Qed.

Lemma change_LocalTime_UTC (change before after t : Z) :
  t <= instant_of change before after t
       + offset_at change before after (instant_of change before after t).
Proof.
  unfold instant_of, offset_at.
  destruct (Z.ltb_spec (t - before) change) as [H1|H1].
  - destruct (Z.ltb_spec (t - before) change); lia.
  - destruct (Z.leb_spec change (t - after)) as [H2|H2].
    + destruct (Z.ltb_spec (t - after) change); lia.
    + destruct (Z.ltb_spec (t - before) change); lia.
Qed.

Definition zone_with_change (change before after : Z) : TimeZone :=
  {| LocalTime := fun t => t + offset_at change before after t;
     UTC := instant_of change before after;
     max_offset := Z.max before after;
     LocalTime_le := change_LocalTime_le change before after;
     LocalTime_UTC := change_LocalTime_UTC change before after |}.

(** America/New_York around the first Sunday of November 2024: the clocks
    go back from 02:00 EDT (UTC-4) to 01:00 EST (UTC-5) at
    2024-11-03T06:00:00Z. *)
Definition new_york_2024 : TimeZone :=
  zone_with_change 1730613600000 (-14400000) (-18000000).

(** ** satellite.js *)

Module satellite.

Record EciVec3 : Type := { x : number; y : number; z : number }.

(** The [position] field of what [propagate] returns: a vector, or
    [false] (also [true] by its type, or nothing at all) when propagation
    failed. *)
Inductive PositionValue : Type :=
  | PositionVec (v : EciVec3)
  | PositionBool (b : bool)
  | PositionUndefined.

Record LookAngles : Type :=
  { azimuth : number; elevation : number; rangeSat : number }.

(** The observer of server.ts, in the form the library takes it. *)
Record Observer : Type :=
  { latitude : number; longitude : number; height : number }.

Class Lib : Type :=
  { SatRec : Type;
    twoline2satrec : string -> string -> option SatRec;
    propagate : SatRec -> Date -> PositionValue;
    gstime : Date -> number;
    eciToEcf : EciVec3 -> number -> EciVec3;
    ecfToLookAngles : Observer -> EciVec3 -> LookAngles;
    degreesLat : number -> number;
    degreesLong : number -> number;
    degreesToRadians : number -> number }.

(** Modelled from the spec: the conversion of an angle to degrees
    (satellite.js is not part of the repository; there [rad2deg] is
    [180 / pi] and the conversion multiplies by it). *)
Definition radiansToDegrees (a : number) : number :=
  num_mul a (num_div (Fin 180) (Fin Math_PI)).

End satellite.

Abbreviation Observer := satellite.Observer.

(** ** calculatePasses *)

(** [Partial<SatellitePass>] while a pass is open: the object literal that
    opens a pass sets exactly these three fields. *)
Record PendingPass : Type :=
  { pendingStartTime : Date;
    pendingStartAz : number;
    pendingMaxElevation : number }.

Module Pass.
Record SatellitePass : Type :=
  { startTime : Date;
    endTime : Date;
    maxElevation : number;
    startAz : number;
    endAz : number;
    duration : number }.
End Pass.

Abbreviation SatellitePass := Pass.SatellitePass.

(** The two variables of the loop: [passes] and [currentPass]. *)
Definition WalkState : Type := (list SatellitePass * option PendingPass)%type.

(** [!position || typeof position === 'boolean'] *)
Definition position_missing (p : satellite.PositionValue) : bool :=
  match p with
  | satellite.PositionVec _ => false
  | satellite.PositionBool _ => true
  | satellite.PositionUndefined => true
  end.

Section CalculatePasses.
Context {lib : satellite.Lib} {tz : TimeZone}.

(** Line 100: [((rawAzimuth + Math.PI) % (2 * Math.PI)) - Math.PI]. *)
Definition wrapAzimuth (rawAzimuth : number) : number :=
  num_sub
    (num_rem (num_add rawAzimuth (Fin Math_PI))
             (num_mul (Fin 2) (Fin Math_PI)))
    (Fin Math_PI).

(** Lines 99-101. *)
Definition normalizeAzimuth (rawAzimuth : number) : number :=
  num_rem
    (num_add (satellite.degreesLong (wrapAzimuth rawAzimuth)) (Fin 360))
    (Fin 360).

(** Lines 103-121, once elevation and azimuth are known. *)
Definition update_pass (date : Date) (elevation azimuth : number)
    (st : WalkState) : WalkState :=
  let '(passes, currentPass) := st in
  if num_gt elevation (Fin 10) then
    let opened :=
      match currentPass with
      | None => {| pendingStartTime := date;
                   pendingStartAz := azimuth;
                   pendingMaxElevation := elevation |}
      | Some cur => cur
      end in
    if num_gt elevation (num_or (pendingMaxElevation opened) (Fin 0))
    then (passes, Some {| pendingStartTime := pendingStartTime opened;
                          pendingStartAz := pendingStartAz opened;
                          pendingMaxElevation := elevation |})
    else (passes, Some opened)
  else
    match currentPass with
    | Some cur =>
        (passes ++
           [ {| Pass.startTime := pendingStartTime cur;
                Pass.endTime := date;
                Pass.maxElevation := pendingMaxElevation cur;
                Pass.startAz := pendingStartAz cur;
                Pass.endAz := azimuth;
                Pass.duration :=
                  num_div (of_Z (date - pendingStartTime cur)) (Fin 1000) |} ],
         None)
    | None => (passes, None)
    end.

(** The body of the [for] loop, lines 87-121. *)
Definition loop_body (satrec : satellite.SatRec) (observer : Observer)
    (date : Date) (st : WalkState) : WalkState :=
  let position := satellite.propagate satrec date in
  let gmst := satellite.gstime date in
  if position_missing position then st
  else
    match position with
    | satellite.PositionVec v =>
        let positionEcf := satellite.eciToEcf v gmst in
        let lookAngles := satellite.ecfToLookAngles observer positionEcf in
        let elevation :=
          satellite.degreesLat (satellite.elevation lookAngles) in
        let rawAzimuth := satellite.azimuth lookAngles in
        update_pass date elevation (normalizeAzimuth rawAzimuth) st
    | _ => st
    end.

(** The [for] loop of line 86, from the current value of [date] on. *)
Equations? for_loop (satrec : satellite.SatRec) (observer : Observer)
    (endTime : Date) (date : Date) (st : WalkState) : WalkState
    by wf (iterations_left endTime date) lt :=
  for_loop satrec observer endTime date st with decide (date <= endTime) := {
    | left _ :=
        for_loop satrec observer endTime
                 (setMinutes date (getMinutes date + 1))
                 (loop_body satrec observer date st);
    | right _ := st }.
Proof. apply iterations_left_next. assumption. Qed.

(** The state in which the loop ends. *)
Definition walk (satrec : satellite.SatRec) (observer : Observer)
    (startTime endTime : Date) : WalkState :=
  for_loop satrec observer endTime startTime ([], None).

Definition calculatePasses (satrec : satellite.SatRec) (observer : Observer)
    (startTime endTime : Date) : list SatellitePass :=
  fst (walk satrec observer startTime endTime).

(** What the walk sees at [date]: nothing when the sample is skipped,
    otherwise the elevation in degrees and the raw azimuth. *)
Definition sample (satrec : satellite.SatRec) (observer : Observer)
    (date : Date) : option (number * number) :=
  match satellite.propagate satrec date with
  | satellite.PositionVec v =>
      let lookAngles :=
        satellite.ecfToLookAngles observer
          (satellite.eciToEcf v (satellite.gstime date)) in
      Some (satellite.degreesLat (satellite.elevation lookAngles),
            satellite.azimuth lookAngles)
  | _ => None
  end.

End CalculatePasses.

(** ** Strings *)

(** A string is kept as the UTF-8 encoding of the JavaScript string, one
    [ascii] for each byte; only well-formed strings are modelled. *)

Definition newline : ascii := ascii_of_nat 10.

(** [s.split(sep)] for a separator of one character: never empty. *)
Fixpoint split (sep : ascii) (s : string) : list string :=
  match s with
  | EmptyString => [EmptyString]
  | String c rest =>
      if Ascii.eqb c sep then EmptyString :: split sep rest
      else
        match split sep rest with
        | l :: ls => String c l :: ls
        | [] => [String c EmptyString]
        end
  end.

(** White space and line terminators (WhiteSpace and LineTerminator of
    ECMA-262).  Those of one byte: U+0009 to U+000D and U+0020. *)
Definition is_space (c : ascii) : bool :=
  let n := nat_of_ascii c in
  ((9 <=? n)%nat && (n <=? 13)%nat) || (n =? 32)%nat.

(** The one of two bytes: U+00A0. *)
Definition is_space2 (c1 c2 : ascii) : bool :=
  ((nat_of_ascii c1 =? 194) && (nat_of_ascii c2 =? 160))%nat.

(** Those of three bytes: U+1680, U+2000 to U+200A, U+2028, U+2029, U+202F,
    U+205F, U+3000 and U+FEFF. *)
Definition is_space3 (c1 c2 c3 : ascii) : bool :=
  let n1 := nat_of_ascii c1 in
  let n2 := nat_of_ascii c2 in
  let n3 := nat_of_ascii c3 in
  ((n1 =? 225) && (n2 =? 154) && (n3 =? 128)
   || (n1 =? 226) && (n2 =? 128)
      && ((128 <=? n3) && (n3 <=? 138) || (n3 =? 168) || (n3 =? 169)
          || (n3 =? 175))
   || (n1 =? 226) && (n2 =? 129) && (n3 =? 159)
   || (n1 =? 227) && (n2 =? 128) && (n3 =? 128)
   || (n1 =? 239) && (n2 =? 187) && (n3 =? 191))%nat.

(** What follows the white-space character at the head of [s], when there
    is one. *)
Definition after_space (s : string) : option string :=
  match s with
  | EmptyString => None
  | String c1 r1 =>
      if is_space c1 then Some r1
      else
        match r1 with
        | String c2 r2 =>
            if is_space2 c1 c2 then Some r2
            else
              match r2 with
              | String c3 r3 => if is_space3 c1 c2 c3 then Some r3 else None
              | EmptyString => None
              end
        | EmptyString => None
        end
  end.

Fixpoint trimStart (s : string) : string :=
  match s with
  | EmptyString => EmptyString
  | String c1 r1 =>
      if is_space c1 then trimStart r1
      else
        match r1 with
        | String c2 r2 =>
            if is_space2 c1 c2 then trimStart r2
            else
              match r2 with
              | String c3 r3 =>
                  if is_space3 c1 c2 c3 then trimStart r3 else s
              | EmptyString => s
              end
        | EmptyString => s
        end
  end.

Fixpoint string_rev_append (s acc : string) : string :=
  match s with
  | EmptyString => acc
  | String c rest => string_rev_append rest (String c acc)
  end.

Definition string_rev (s : string) : string := string_rev_append s EmptyString.

(** [trimStart] on a string read from its last byte to its first. *)
Fixpoint trimStart_reversed (s : string) : string :=
  match s with
  | EmptyString => EmptyString
  | String c1 r1 =>
      if is_space c1 then trimStart_reversed r1
      else
        match r1 with
        | String c2 r2 =>
            if is_space2 c2 c1 then trimStart_reversed r2
            else
              match r2 with
              | String c3 r3 =>
                  if is_space3 c3 c2 c1 then trimStart_reversed r3 else s
              | EmptyString => s
              end
        | EmptyString => s
        end
  end.

Definition trimEnd (s : string) : string :=
  string_rev (trimStart_reversed (string_rev s)).

(** [s.trim()] *)
Definition trim (s : string) : string := trimEnd (trimStart s).

(** ** parseFloat *)

Definition digit_value (c : ascii) : option Z :=
  let n := Z.of_nat (nat_of_ascii c) in
  if (48 <=? n) && (n <=? 57) then Some (n - 48) else None.

(** The longest run of decimal digits at the head of [s]: its value on top
    of [acc], the number of digits on top of [count], and what follows. *)
Fixpoint read_digits (s : string) (acc : Z) (count : nat) : Z * nat * string :=
  match s with
  | EmptyString => (acc, count, s)
  | String c rest =>
      match digit_value c with
      | Some d => read_digits rest (acc * 10 + d) (S count)
      | None => (acc, count, s)
      end
  end.

(** The value of an ExponentPart at the head of [s], 0 when there is none. *)
Definition read_exponent (s : string) : Z :=
  match s with
  | String c rest =>
      if Ascii.eqb c "e" || Ascii.eqb c "E" then
        let '(negative, digits) :=
          match rest with
          | String "+" r => (false, r)
          | String "-" r => (true, r)
          | _ => (false, rest)
          end in
        let '(v, n, _) := read_digits digits 0 0 in
        match n with
        | O => 0
        | S _ => if negative then - v else v
        end
      else 0
  | EmptyString => 0
  end.

Definition pow10 (e : Z) : Q :=
  if e <? 0 then 1 # Z.to_pos (10 ^ (- e)) else inject_Z (10 ^ e).

Definition pow2 (e : Z) : Q :=
  if e <? 0 then 1 # Z.to_pos (2 ^ (- e)) else inject_Z (2 ^ e).

(** The exponent of the binade of [n / d]: the greatest [e] such that
    [2 ^ e <= n / d]. *)
Definition binade (n d : positive) : Z :=
  let e := Z.log2 (Z.pos n) - Z.log2 (Z.pos d) in
  if Qle_bool (pow2 e) (Z.pos n # d) then e else e - 1.

(** The integer nearest to [q], which is not negative; ties go to the even
    one. *)
Definition round_half_even (q : Q) : Z :=
  let f := Qfloor q in
  match Qcompare (q - inject_Z f)%Q (1 # 2) with
  | Lt => f
  | Gt => f + 1
  | Eq => if Z.even f then f else f + 1
  end.

(** The double nearest to [n / d], in absolute value: 53 bits of
    significand, exponents from -1022 up, subnormal below, and the infinity
    from [2 ^ 1024] on. *)
Definition nearest_magnitude (n d : positive) : option Q :=
  let ulp := pow2 (Z.max (binade n d) (-1022) - 52) in
  let m := round_half_even ((Z.pos n # d) / ulp)%Q in
  let v := Qred (inject_Z m * ulp)%Q in
  if Qle_bool (pow2 1024) v then None else Some v.

(** The Number value for a rational: the double nearest to it, ties to the
    even significand. *)
Definition nearest_double (q : Q) : number :=
  match Qnum q with
  | Z0 => Fin 0
  | Zpos n =>
      match nearest_magnitude n (Qden q) with
      | Some v => Fin v
      | None => Inf false
      end
  | Zneg n =>
      match nearest_magnitude n (Qden q) with
      | Some v => Fin (- v)%Q
      | None => Inf true
      end
  end.

(** The longest prefix that is a StrUnsignedDecimalLiteral, as the decimal
    it writes; [None] when no prefix is one. *)
Definition read_unsigned (s : string) : option (option Q) :=
  if String.prefix "Infinity" s then Some None
  else
    let '(int_part, int_digits, rest) := read_digits s 0 0 in
    match rest with
    | String "." rest1 =>
        let '(frac_part, frac_digits, rest2) := read_digits rest1 0 0 in
        match int_digits, frac_digits with
        | O, O => None
        | _, _ =>
            Some (Some ((inject_Z int_part
                         + inject_Z frac_part * pow10 (- Z.of_nat frac_digits))
                        * pow10 (read_exponent rest2))%Q)
        end
    | _ =>
        match int_digits with
        | O => None
        | S _ => Some (Some (inject_Z int_part * pow10 (read_exponent rest))%Q)
        end
    end.

(** [parseFloat(s)]: leading white space is dropped, the longest prefix that
    is a decimal literal is read and rounded to the nearest double, and
    [NaN] is the answer when there is none. *)
Definition parseFloat (s : string) : number :=
  let trimmed := trimStart s in
  let '(negative, unsigned) :=
    match trimmed with
    | String "+" r => (false, r)
    | String "-" r => (true, r)
    | _ => (false, trimmed)
    end in
  match read_unsigned unsigned with
  | Some (Some q) => nearest_double (if negative then (- q)%Q else q)
  | Some None => Inf negative
  | None => NaN
  end.

(** ToString of a value that is a string or [undefined]. *)
Definition ToString (v : option string) : string :=
  match v with Some s => s | None => "undefined" end.

(** ToBoolean of a value that is a string or [undefined]. *)
Definition string_truthy (v : option string) : bool :=
  match v with Some (String _ _) => true | _ => false end.

(** ** The world of a request: cache, clock, network, console *)

Module TLE.
Record TLEData : Type := { name : string; line1 : string; line2 : string }.
End TLE.

Abbreviation TLEData := TLE.TLEData.

Record CacheEntry : Type := { tle : TLEData; timestamp : Z }.

(** A thrown value: an [Error] object, or anything else, kept as its string
    rendering. *)
Inductive Thrown : Type :=
  | ErrorObject (name message : string)
  | ThrownValue (rendering : string).

(** [String(error)], as in a template literal. *)
Definition String_of (e : Thrown) : string :=
  match e with
  | ErrorObject name message =>
      match name, message with
      | EmptyString, _ => message
      | _, EmptyString => name
      | _, _ => name +:+ ": " +:+ message
      end
  | ThrownValue rendering => rendering
  end.

(** What a remote retrieval comes to: [fetch] rejects, or it resolves and
    [response.text()] rejects, or the text of the body arrives. *)
Inductive FetchOutcome : Type :=
  | FetchRejected (cause : Thrown)
  | TextRejected (cause : Thrown)
  | BodyText (text : string).

(** The surroundings of the server: the successive readings of the clock
    and the answer of the network to each URL. *)
Record Env : Type :=
  { clock : nat -> Z;
    remote : string -> FetchOutcome }.

(** The mutable state: the module-level [tleCache], the number of clock
    readings so far, the URLs requested so far and the console. *)
Record World : Type :=
  { tleCache : gmap string CacheEntry;
    clockReads : nat;
    requests : list string;
    console : list string }.

Inductive Outcome (A : Type) : Type :=
  | Returned (a : A)
  | Raised (e : Thrown).

Arguments Returned {A} a.
Arguments Raised {A} e.

Definition IO (A : Type) : Type := World -> Outcome A * World.

Definition ret {A : Type} (a : A) : IO A := fun w => (Returned a, w).

Definition throw {A : Type} (e : Thrown) : IO A := fun w => (Raised e, w).

Definition bind {A B : Type} (m : IO A) (k : A -> IO B) : IO B :=
  fun w =>
    match m w with
    | (Returned a, w') => k a w'
    | (Raised e, w') => (Raised e, w')
    end.

Definition try_catch {A : Type} (m : IO A) (handler : Thrown -> IO A) : IO A :=
  fun w =>
    match m w with
    | (Returned a, w') => (Returned a, w')
    | (Raised e, w') => handler e w'
    end.

Notation "'let*' x ':=' m 'in' k" := (bind m (fun x => k))
  (at level 10, x pattern, m at level 200, k at level 200).

Definition TypeError_trim : Thrown :=
  ErrorObject "TypeError" "Cannot read properties of undefined (reading 'trim')".

(** What [fetch] resolves to. *)
Inductive FetchResponse : Type :=
  | Unreadable (cause : Thrown)
  | Readable (text : string).

(** The body of [POST /api/passes]: each field is a string or absent. *)
Module Req.
Record LocationRequest : Type :=
  { satelliteId : option string; lat : option string; lng : option string }.
End Req.

Abbreviation LocationRequest := Req.LocationRequest.

Module Formatted.
Record FormattedPass : Type :=
  { startTime : Date;
    endTime : Date;
    maxElevation : number;
    azimuthStart : number;
    azimuthEnd : number;
    duration : number }.
End Formatted.

Abbreviation FormattedPass := Formatted.FormattedPass.

Inductive ResponseBody : Type :=
  | ErrorBody (error : string) (details : option string)
  | PassesBody (passes : list FormattedPass).

Record Response : Type := { status : Z; body : ResponseBody }.

Section Server.
Context {lib : satellite.Lib} {tz : TimeZone} (env : Env).

(** [Date.now()], also the time value of [new Date()]. *)
Definition Date_now : IO Z :=
  fun w =>
    (Returned (clock env (clockReads w)),
     {| tleCache := tleCache w;
        clockReads := S (clockReads w);
        requests := requests w;
        console := console w |}).

(** [tleCache.get(id)] *)
Definition cache_get (id : string) : IO (option CacheEntry) :=
  fun w => (Returned (tleCache w !! id), w).

(** [tleCache.set(id, entry)] *)
Definition cache_set (id : string) (entry : CacheEntry) : IO unit :=
  fun w =>
    (Returned tt,
     {| tleCache := <[id := entry]> (tleCache w);
        clockReads := clockReads w;
        requests := requests w;
        console := console w |}).

(** [await fetch(url)] *)
Definition fetch (url : string) : IO FetchResponse :=
  fun w =>
    let w' := {| tleCache := tleCache w;
                 clockReads := clockReads w;
                 requests := requests w ++ [url];
                 console := console w |} in
    match remote env url with
    | FetchRejected cause => (Raised cause, w')
    | TextRejected cause => (Returned (Unreadable cause), w')
    | BodyText text => (Returned (Readable text), w')
    end.

(** [await response.text()] *)
Definition response_text (response : FetchResponse) : IO string :=
  match response with
  | Unreadable cause => throw cause
  | Readable text => ret text
  end.

(** [console.log] and [console.error], by their first argument. *)
Definition console_log (message : string) : IO unit :=
  fun w =>
    (Returned tt,
     {| tleCache := tleCache w;
        clockReads := clockReads w;
        requests := requests w;
        console := console w ++ [message] |}).

Definition TLE_CACHE_DURATION : Z := 24 * 60 * 60 * 1000.

Definition tle_url (satelliteId : string) : string :=
  "https://celestrak.com/NORAD/elements/gp.php?CATNR=" +:+ satelliteId
  +:+ "&FORMAT=TLE".

(** [lines[i].trim()] *)
Definition trimmed_line (lines : list string) (i : nat) : IO string :=
  match lines !! i with
  | Some l => ret (trim l)
  | None => throw TypeError_trim
  end.

(** Lines 47-68: the remote retrieval. *)
Definition fetchTLE_remote (satelliteId : string) : IO TLEData :=
  try_catch
    (let* response := fetch (tle_url satelliteId) in
     let* data := response_text response in
     let lines := split newline data in
     let* name := trimmed_line lines 0 in
     let* line1 := trimmed_line lines 1 in
     let* line2 := trimmed_line lines 2 in
     let tle := {| TLE.name := name; TLE.line1 := line1; TLE.line2 := line2 |} in
     let* now := Date_now in
     let* _ := cache_set satelliteId {| tle := tle; timestamp := now |} in
     ret tle)
    (fun error =>
       throw (ErrorObject "Error"
                ("Failed to fetch TLE data: " +:+ String_of error))).

Definition fetchTLE (satelliteId : string) : IO TLEData :=
  let* cached := cache_get satelliteId in
  match cached with
  | Some entry =>
      let* now := Date_now in
      if now - timestamp entry <? TLE_CACHE_DURATION
      then ret (tle entry)
      else fetchTLE_remote satelliteId
  | None => fetchTLE_remote satelliteId
  end.

(** ** The request handler *)

(** [calculatePasses] as the handler runs it: the [console.log] of lines
    77-81, then the walk. *)
Definition run_calculatePasses (satrec : satellite.SatRec) (observer : Observer)
    (startTime endTime : Date) : IO (list SatellitePass) :=
  let* _ := console_log "Starting pass calculation with:" in
  ret (calculatePasses satrec observer startTime endTime).

(** [addHours] of date-fns. *)
Definition addHours (date : Date) (amount : Z) : Date :=
  date + amount * 3600000.

(** Lines 163-170; the two formatted times are kept as instants. *)
Definition format_pass (pass : SatellitePass) : FormattedPass :=
  {| Formatted.startTime := Pass.startTime pass;
     Formatted.endTime := Pass.endTime pass;
     Formatted.maxElevation := Math_round (Pass.maxElevation pass);
     Formatted.azimuthStart := Math_round (Pass.startAz pass);
     Formatted.azimuthEnd := Math_round (Pass.endAz pass);
     Formatted.duration :=
       Math_round (num_div (Pass.duration pass) (Fin 60)) |}.

Definition error_response (status : Z) (error : string) : Response :=
  {| status := status; body := ErrorBody error None |}.

(** Lines 139-142. *)
Definition coordinates_rejected (latitude longitude : number) : bool :=
  num_lt latitude (Fin (-90)) || num_gt latitude (Fin 90)
  || num_lt longitude (Fin (-180)) || num_gt longitude (Fin 180).

(** Lines 144-172: what follows the two validations. *)
Definition predict (satelliteId : string) (latitude longitude : number)
    : IO Response :=
  let* tle := fetchTLE satelliteId in
  match satellite.twoline2satrec (TLE.line1 tle) (TLE.line2 tle) with
  | None => ret (error_response 400 "Error parsing TLE data")
  | Some satrec =>
      let observer :=
        {| satellite.latitude := satellite.degreesToRadians latitude;
           satellite.longitude :=
             num_div
               (num_mul
                  (num_sub (num_rem (num_add longitude (Fin 180)) (Fin 360))
                           (Fin 180))
                  (Fin Math_PI))
               (Fin 180);
           satellite.height := Fin 0 |} in
      let* startTime := Date_now in
      let endTime := addHours startTime 24 in
      let* passes := run_calculatePasses satrec observer startTime endTime in
      let formattedPasses := map format_pass passes in
      ret {| status := 200; body := PassesBody formattedPasses |}
  end.

(** Lines 173-188: the [catch] of the handler. *)
Definition report_failure (error : Thrown) : IO Response :=
  match error with
  | ErrorObject _ message =>
      let* _ := console_log "Full error details:" in
      ret {| status := 500;
             body := ErrorBody "Failed to calculate passes" (Some message) |}
  | ThrownValue _ =>
      let* _ := console_log "Unknown error:" in
      ret (error_response 500 "Failed to calculate passes")
  end.

Definition passesPrediction (req : LocationRequest) : IO Response :=
  try_catch
    (let satelliteId := Req.satelliteId req in
     let lat := Req.lat req in
     let lng := Req.lng req in
     if negb (string_truthy satelliteId) || negb (string_truthy lat)
        || negb (string_truthy lng)
     then ret (error_response 400 "Missing required parameters")
     else
       let latitude := parseFloat (ToString lat) in
       let longitude := parseFloat (ToString lng) in
       if coordinates_rejected latitude longitude
       then ret (error_response 400 "Invalid coordinates")
       else predict (ToString satelliteId) latitude longitude)
    report_failure.

End Server.

(** ** Reading a request *)

(** The cause with which a remote retrieval fails: a network error, a
    response whose text cannot be read, or a text of fewer than three
    lines, on which [lines[i].trim()] throws.  [None] for a text of three
    lines or more. *)
Definition failure_cause (outcome : FetchOutcome) : option Thrown :=
  match outcome with
  | FetchRejected cause => Some cause
  | TextRejected cause => Some cause
  | BodyText text =>
      if (length (split newline text) <? 3)%nat then Some TypeError_trim
      else None
  end.

(** The three parameters are present: none is absent or empty. *)
Definition parameters_present (req : LocationRequest) : bool :=
  string_truthy (Req.satelliteId req) && string_truthy (Req.lat req)
  && string_truthy (Req.lng req).

(** [a] is below [lo] or above [hi]. *)
Definition outside (lo hi : Q) (a : number) : bool :=
  num_lt a (Fin lo) || num_gt a (Fin hi).

(** ** Stubs *)

(** A propagator and converter stub: the sample number [k] after [T0] has
    the elevation (degrees) and raw azimuth (radians) of the [k]-th entry of
    [samples]; propagation fails where the entry is [None] and beyond the
    list.  Angles are converted as the library documents it. *)
Definition stub_lib (T0 : Date) (samples : list (option (number * number)))
    : satellite.Lib :=
  {| satellite.SatRec := unit;
     satellite.twoline2satrec := fun _ _ => Some tt;
     satellite.propagate := fun _ date =>
       match samples !! Z.to_nat ((date - T0) / 60000) with
       | Some (Some (el, az)) =>
           satellite.PositionVec
             {| satellite.x := el; satellite.y := az; satellite.z := Fin 0 |}
       | _ => satellite.PositionBool false
       end;
     satellite.gstime := fun _ => Fin 0;
     satellite.eciToEcf := fun v _ => v;
     satellite.ecfToLookAngles := fun _ v =>
       {| satellite.azimuth := satellite.y v;
          satellite.elevation := satellite.x v;
          satellite.rangeSat := Fin 0 |};
     satellite.degreesLat := fun a => a;
     satellite.degreesLong := satellite.radiansToDegrees;
     satellite.degreesToRadians := fun a =>
       num_mul a (num_div (Fin Math_PI) (Fin 180)) |}.

Definition visible_at (el : Q) : option (number * number) :=
  Some (Fin el, Fin 0).

(** The element set of the tests, as the remote source sends it. *)
Definition iss_text : string :=
  "ISS (ZARYA)" +:+ String newline
    ("1 25544U 98067A   24001.50000000  .00000000  00000+0  00000+0 0    04"
     +:+ String newline
       "2 25544  51.6400   0.0000   0.0000   0.0000   0.0000 15.50000000    02").

Definition iss_tle : TLEData :=
  {| TLE.name := "ISS (ZARYA)";
     TLE.line1 :=
       "1 25544U 98067A   24001.50000000  .00000000  00000+0  00000+0 0    04";
     TLE.line2 :=
       "2 25544  51.6400   0.0000   0.0000   0.0000   0.0000 15.50000000    02" |}.

(** A clock that advances by one second at each reading. *)
Definition stub_clock (T0 : Z) : nat -> Z := fun n => T0 + 1000 * Z.of_nat n.

Definition empty_world : World :=
  {| tleCache := ∅; clockReads := 0; requests := []; console := [] |}.

(** The samples of the end-to-end test, from [T0 = 1700000000000] on. *)
Definition stub_six : satellite.Lib :=
  stub_lib 1700000000000 (map visible_at [5; 5; 15; 20; 15; 5]%Q).

(** A converter stub whose raw azimuth is -9 radians: one visible sample,
    then one below the threshold. *)
Definition stub_minus_nine : satellite.Lib :=
  stub_lib 0 [Some (Fin 15, Fin (-9)); Some (Fin 5, Fin (-9))].

(** A converter stub whose raw azimuths are 1 and 4 radians. *)
Definition stub_one_four : satellite.Lib :=
  stub_lib 0 [Some (Fin 15, Fin 1); Some (Fin 5, Fin 4)].

(** A visible sample, a failed propagation, a sample below the threshold. *)
Definition stub_gap : satellite.Lib :=
  stub_lib 0 [visible_at 15; None; visible_at 5].

(** A network that answers every request with the text [text]. *)
Definition stub_env (text : string) : Env :=
  {| clock := stub_clock 1700000000000; remote := fun _ => BodyText text |}.

(** A world whose cache holds the element set of 25544, fetched at
    [fetchedAt]. *)
Definition cached_world (fetchedAt : Z) : World :=
  {| tleCache := {[ "25544" := {| tle := iss_tle; timestamp := fetchedAt |} ]};
     clockReads := 0;
     requests := [];
     console := [] |}.

Definition origin : Observer :=
  {| satellite.latitude := Fin 0;
     satellite.longitude := Fin 0;
     satellite.height := Fin 0 |}.

(** ** Reading the walk *)

Section WalkPredicates.
Context {lib : satellite.Lib} {tz : TimeZone}.
Variables (satrec : satellite.SatRec) (observer : Observer).

(** The sample at [date] exists and its elevation is above 10 degrees. *)
Definition visible (date : Date) : bool :=
  match sample satrec observer date with
  | Some (el, _) => num_gt el (Fin 10)
  | None => false
  end.

(** The sample at [date] exists and its elevation is not above 10 degrees. *)
Definition below (date : Date) : bool :=
  match sample satrec observer date with
  | Some (el, _) => negb (num_gt el (Fin 10))
  | None => false
  end.

(** [date] is a whole number of minutes after the start of the window, and
    inside the window. *)
Definition sampled (startTime endTime date : Date) : Prop :=
  exists k : Z, 0 <= k /\ date = startTime + 60000 * k /\ date <= endTime.

(** The walk over the window advances by one minute at each visit: the
    clocks of the time zone do not change while it lasts. *)
Definition steady (startTime endTime : Date) : Prop :=
  forall k : Z,
    0 <= k -> startTime + 60000 * k <= endTime ->
    next_minute (startTime + 60000 * k) = startTime + 60000 * k + 60000.

(** The last whole number of minutes after the start of a non-empty
    window, inside the window. *)
Definition last_sample (startTime endTime : Date) : Date :=
  startTime + 60000 * ((endTime - startTime) / 60000).

(** A pass that a visible sample opened and a later sample that was not
    visible closed, both inside the window. *)
Definition closed_in_window (startTime endTime : Date) (p : SatellitePass)
    : Prop :=
  sampled startTime endTime (Pass.startTime p)
  /\ sampled startTime endTime (Pass.endTime p)
  /\ Pass.startTime p < Pass.endTime p
  /\ visible (Pass.startTime p) = true
  /\ below (Pass.endTime p) = true.

(** The peak of a pass against the threshold and against the sample that
    opened it. *)
Definition peak_ok (start : Date) (peak : number) : Prop :=
  num_gt peak (Fin 10) = true
  /\ exists el raw, sample satrec observer start = Some (el, raw)
                    /\ num_gt el (Fin 10) = true
                    /\ num_ge peak el = true.

(** [degreesLong] turns an angle between minus pi and pi into degrees.
    Nothing is asked of it outside this range, where satellite.js refuses
    the angle. *)
Definition converts_to_degrees : Prop :=
  forall q : Q,
    (- Math_PI <= q /\ q <= Math_PI)%Q ->
    num_is (satellite.degreesLong (Fin q)) (q * (180 / Math_PI)).

(** No sample has a raw azimuth that is not a finite number or that is
    below minus pi. *)
Definition azimuths_from_minus_pi : Prop :=
  forall date el raw,
    sample satrec observer date = Some (el, raw) ->
    exists r : Q, raw = Fin r /\ (- Math_PI <= r)%Q.

(** The azimuths recorded so far lie between 0 (included) and 360
    (excluded). *)
Definition azimuths_ok (st : WalkState) : Prop :=
  Forall (fun p => num_in 0 360 (Pass.startAz p)
                   /\ num_in 0 360 (Pass.endAz p)) (fst st)
  /\ match snd st with
     | Some cur => num_in 0 360 (pendingStartAz cur)
     | None => True
     end.

(** What holds of the two loop variables each time the loop condition of a
    steady walk is evaluated, [date] being the instant about to be
    tested. *)
Definition walk_inv (startTime endTime date : Date) (st : WalkState) : Prop :=
  (exists k : Z, 0 <= k /\ date = startTime + 60000 * k)
  /\ Forall (closed_in_window startTime endTime) (fst st)
  /\ Forall (fun p => peak_ok (Pass.startTime p) (Pass.maxElevation p)) (fst st)
  /\ Forall (fun p => Pass.endTime p < date) (fst st)
  /\ StronglySorted (fun p q => Pass.endTime p < Pass.startTime q) (fst st)
  /\ match snd st with
     | Some cur =>
         sampled startTime endTime (pendingStartTime cur)
         /\ visible (pendingStartTime cur) = true
         /\ peak_ok (pendingStartTime cur) (pendingMaxElevation cur)
         /\ pendingStartTime cur < date
         /\ Forall (fun p => Pass.endTime p < pendingStartTime cur) (fst st)
     | None => True
     end
  /\ (startTime < date -> visible (date - 60000) = true -> snd st <> None)
  /\ (startTime <= endTime -> date <= endTime + 60000).

End WalkPredicates.

(** ** Reading a pass *)

Section PassPredicates.
Context {lib : satellite.Lib}.
Variables (satrec : satellite.SatRec) (observer : Observer).

(** The azimuth that the walk computes at [date], lines 98-101. *)
Definition azimuth_at (date : Date) : option number :=
  match sample satrec observer date with
  | Some (_, raw) => Some (normalizeAzimuth raw)
  | None => None
  end.

(** [date] is a whole number of minutes after [start] and before [stop]. *)
Definition inside (start stop date : Date) : Prop :=
  exists j : Z, 0 <= j /\ date = start + 60000 * j /\ date < stop.

(** From [start] to just before [stop] no sample is at or below the
    threshold, and [peak] is the greatest elevation among the samples. *)
Definition stretch_ok (start stop : Date) (peak : number) : Prop :=
  (forall d, inside start stop d -> below satrec observer d = false)
  /\ (forall d el raw,
         inside start stop d -> sample satrec observer d = Some (el, raw) ->
         num_ge peak el = true)
  /\ (exists d raw,
         inside start stop d /\ sample satrec observer d = Some (peak, raw)).

(** The six fields of a pass against the samples. *)
Definition pass_exact (p : SatellitePass) : Prop :=
  stretch_ok (Pass.startTime p) (Pass.endTime p) (Pass.maxElevation p)
  /\ azimuth_at (Pass.startTime p) = Some (Pass.startAz p)
  /\ azimuth_at (Pass.endTime p) = Some (Pass.endAz p)
  /\ Pass.duration p
     = num_div (of_Z (Pass.endTime p - Pass.startTime p)) (Fin 1000).

(** The instant [d] lies in a pass already closed or in the open one. *)
Definition covered (st : WalkState) (d : Date) : Prop :=
  (exists p, p ∈ fst st /\ Pass.startTime p <= d < Pass.endTime p)
  \/ (exists cur, snd st = Some cur /\ pendingStartTime cur <= d).

(** One for an open pass, none otherwise. *)
Definition open_count (currentPass : option PendingPass) : Z :=
  match currentPass with Some _ => 1 | None => 0 end.

(** What holds of the two loop variables, in full, each time the loop
    condition of a steady walk is evaluated. *)
Definition walk_inv_full (startTime date : Date) (st : WalkState) : Prop :=
  (exists k : Z,
      0 <= k /\ date = startTime + 60000 * k
      /\ 2 * Z.of_nat (length (fst st)) + open_count (snd st) <= k)
  /\ Forall pass_exact (fst st)
  /\ match snd st with
     | Some cur =>
         stretch_ok (pendingStartTime cur) date (pendingMaxElevation cur)
         /\ azimuth_at (pendingStartTime cur) = Some (pendingStartAz cur)
         /\ (exists j : Z, 0 <= j /\ pendingStartTime cur = startTime + 60000 * j)
         /\ pendingStartTime cur < date
     | None => True
     end
  /\ (forall d, inside startTime date d -> visible satrec observer d = true ->
                covered st d).

End PassPredicates.

(** ** Reading the visits *)

Section TracePredicates.
Context {lib : satellite.Lib}.
Variables (satrec : satellite.SatRec) (observer : Observer).

(** A pass against the visits [seen] of the walk: a visit at a visible
    sample opened it and a later visit, at a sample that was not visible,
    closed it. *)
Definition closed_between (seen : list Date) (p : SatellitePass) : Prop :=
  exists i j : nat,
    (i < j)%nat
    /\ seen !! i = Some (Pass.startTime p)
    /\ seen !! j = Some (Pass.endTime p)
    /\ visible satrec observer (Pass.startTime p) = true
    /\ below satrec observer (Pass.endTime p) = true.

(** The fields of a pass that are read off the two samples at its ends. *)
Definition ends_exact (p : SatellitePass) : Prop :=
  azimuth_at satrec observer (Pass.startTime p) = Some (Pass.startAz p)
  /\ azimuth_at satrec observer (Pass.endTime p) = Some (Pass.endAz p)
  /\ Pass.duration p
     = num_div (of_Z (Pass.endTime p - Pass.startTime p)) (Fin 1000).

(** The pass [cur] was opened by the visit number [j], after every pass of
    [passes] was closed. *)
Definition opened_at (seen : list Date) (passes : list SatellitePass)
    (cur : PendingPass) (j : nat) : Prop :=
  seen !! j = Some (pendingStartTime cur)
  /\ Forall (fun p => exists i : nat,
                        (i < j)%nat /\ seen !! i = Some (Pass.endTime p))
            passes.

(** What holds of the two loop variables after the visits [seen], whatever
    the instants visited. *)
Definition trace_inv (seen : list Date) (st : WalkState) : Prop :=
  Forall (closed_between seen) (fst st)
  /\ Forall (fun p => peak_ok satrec observer (Pass.startTime p)
                              (Pass.maxElevation p)) (fst st)
  /\ Forall ends_exact (fst st)
  /\ match snd st with
     | Some cur =>
         (exists j, opened_at seen (fst st) cur j)
         /\ visible satrec observer (pendingStartTime cur) = true
         /\ peak_ok satrec observer (pendingStartTime cur)
                    (pendingMaxElevation cur)
         /\ azimuth_at satrec observer (pendingStartTime cur)
            = Some (pendingStartAz cur)
     | None => True
     end
  /\ (forall d, last seen = Some d -> visible satrec observer d = true ->
                snd st <> None)
  /\ (2 * length (fst st) + Z.to_nat (open_count (snd st)) <= length seen)%nat
  /\ (Forall (fun d => visible satrec observer d = false) seen ->
      st = ([], None)).

End TracePredicates.

(** ** Reading the handler *)

(** [n] is a finite number from [lo] to [hi], both included. *)
Definition in_closed (lo hi : Q) (n : number) : Prop :=
  match n with Fin r => (lo <= r /\ r <= hi)%Q | _ => False end.

(** Lines 152-156: the observer made of the two parsed coordinates. *)
Definition observer_of {lib : satellite.Lib} (latitude longitude : number)
    : Observer :=
  {| satellite.latitude := satellite.degreesToRadians latitude;
     satellite.longitude :=
       num_div
         (num_mul
            (num_sub (num_rem (num_add longitude (Fin 180)) (Fin 360))
                     (Fin 180))
            (Fin Math_PI))
         (Fin 180);
     satellite.height := Fin 0 |}.

(** The world after the [console.log] of a pass calculation that began with
    the clock reading number [clockReads w]. *)
Definition after_calculation (w : World) : World :=
  {| tleCache := tleCache w;
     clockReads := S (clockReads w);
     requests := requests w;
     console := console w ++ ["Starting pass calculation with:"] |}.

(** The world after a [console.error] of the handler. *)
Definition after_error_log (w : World) : World :=
  {| tleCache := tleCache w;
     clockReads := clockReads w;
     requests := requests w;
     console := console w ++ ["Full error details:"] |}.

(** A library that compiles no element set. *)
Definition stub_unparsable : satellite.Lib :=
  {| satellite.SatRec := unit;
     satellite.twoline2satrec := fun _ _ => None;
     satellite.propagate := fun _ _ => satellite.PositionBool false;
     satellite.gstime := fun _ => Fin 0;
     satellite.eciToEcf := fun v _ => v;
     satellite.ecfToLookAngles := fun _ v =>
       {| satellite.azimuth := Fin 0;
          satellite.elevation := Fin 0;
          satellite.rangeSat := Fin 0 |};
     satellite.degreesLat := fun a => a;
     satellite.degreesLong := satellite.radiansToDegrees;
     satellite.degreesToRadians := fun a => a |}.

(** A network on which every request is rejected. *)
Definition stub_offline : Env :=
  {| clock := stub_clock 1700000000000;
     remote := fun _ =>
       FetchRejected (ErrorObject "TypeError" "fetch failed") |}.

Definition carriage_return : ascii := ascii_of_nat 13.

(** The end of a line as the remote source sends it. *)
Definition crlf : string :=
  String carriage_return (String newline EmptyString).

(** The element set of the tests with every line ended by a carriage return
    and a line feed. *)
Definition iss_text_crlf : string :=
  TLE.name iss_tle +:+ crlf +:+ TLE.line1 iss_tle +:+ crlf
  +:+ TLE.line2 iss_tle +:+ crlf.

(** No character of [s] is a line feed. *)
Fixpoint one_line (s : string) : bool :=
  match s with
  | EmptyString => true
  | String c rest => negb (Ascii.eqb c newline) && one_line rest
  end.

(** Two passes: samples 1-2 and samples 5-7 are visible. *)
Definition stub_two_passes : satellite.Lib :=
  stub_lib 0 (map visible_at [5; 15; 20; 5; 5; 30; 45; 40; 5]%Q).

(** The pass that [stub_gap] yields over its three samples. *)
Definition gap_pass : SatellitePass :=
  {| Pass.startTime := 0;
     Pass.endTime := 120000;
     Pass.maxElevation := Fin 15;
     Pass.startAz := @normalizeAzimuth stub_gap (Fin 0);
     Pass.endAz := @normalizeAzimuth stub_gap (Fin 0);
     Pass.duration := num_div (of_Z 120000) (Fin 1000) |}.

(** A pass that rises and sets just west of north. *)
Definition pass_north : SatellitePass :=
  {| Pass.startTime := 0;
     Pass.endTime := 120000;
     Pass.maxElevation := Fin 15;
     Pass.startAz := Fin (3596 # 10);
     Pass.endAz := Fin (3594 # 10);
     Pass.duration := Fin 120 |}.

(** No sample above the threshold: 10 degrees is not above it. *)
Definition stub_low : satellite.Lib :=
  stub_lib 0 (map visible_at [5; 10; 3]%Q).

Definition request (satelliteId lat lng : string) : LocationRequest :=
  {| Req.satelliteId := Some satelliteId;
     Req.lat := Some lat;
     Req.lng := Some lng |}.

(** The world after the element set of 25544 was fetched from an empty
    cache, at the first reading of the clock. *)
Definition fetched_world : World :=
  {| tleCache :=
       <["25544" := {| tle := iss_tle; timestamp := 1700000000000 |}]> ∅;
     clockReads := 1;
     requests := [tle_url "25544"];
     console := [] |}.


(** A no-break space, U+00A0. *)
Definition no_break_space : string :=
  String (ascii_of_nat 194) (String (ascii_of_nat 160) EmptyString).

(** A response cut short: the name, the first line and a line feed. *)
Definition partial_text : string :=
  "ISS (ZARYA)" +:+ String newline
    ("1 25544U 98067A" +:+ String newline EmptyString).

(** The element set read from [partial_text]. *)
Definition partial_tle : TLEData :=
  {| TLE.name := "ISS (ZARYA)";
     TLE.line1 := "1 25544U 98067A";
     TLE.line2 := EmptyString |}.

(** The samples of the end-to-end test from 2024-11-03T05:58:00Z on, two
    minutes before the clocks of New York go back. *)
Definition stub_six_autumn : satellite.Lib :=
  stub_lib 1730613480000 (map visible_at [5; 5; 15; 20; 15; 5]%Q).

(** A visible sample at 2024-11-03T06:30:00Z, which is 01:30 EST, and a
    sample below the threshold 59 minutes earlier, at 05:31:00Z, which is
    01:31 EDT. *)
Definition stub_repeated_hour : satellite.Lib :=
  stub_lib 1730611860000 (visible_at 5 :: replicate 58 None ++ [visible_at 15]).

(** * Properties *)

(** ** Numbers *)

Lemma num_gt_Fin (a : number) (q : Q) :
  num_gt a (Fin q) = true <->
  a = Inf false \/ exists r, a = Fin r /\ (q < r)%Q.
Proof.
  unfold num_gt, num_lt. destruct a as [|[]|r]; simpl.
  - split; [discriminate|]. intros [?|(? & ? & _)]; discriminate.
  - split; [discriminate|]. intros [?|(? & ? & _)]; discriminate.
  - split; auto.
  - destruct (Qcompare_spec q r) as [H|H|H].
    + split; [discriminate|]. intros [?|(r' & [= <-] & Hlt)]; [discriminate|].
      rewrite H in Hlt. exfalso. revert Hlt. apply Qlt_irrefl.
    + split; eauto.
    + split; [discriminate|]. intros [?|(r' & [= <-] & Hlt)]; [discriminate|].
      exfalso. apply (Qlt_irrefl q). now apply Qlt_trans with r.
Qed.

Lemma num_gt_10_truthy (a : number) :
  num_gt a (Fin 10) = true -> truthy a = true.
Proof.
  intros H. apply num_gt_Fin in H as [->|(r & -> & Hr)]; [reflexivity|].
  simpl. destruct (Qeq_bool r 0) eqn:E; [|reflexivity].
  apply Qeq_bool_iff in E. rewrite E in Hr. discriminate Hr.
Qed.

Lemma num_or_peak (a : number) :
  num_gt a (Fin 10) = true -> num_or a (Fin 0) = a.
Proof. intros H. unfold num_or. now rewrite num_gt_10_truthy. Qed.

Lemma num_ge_refl (a : number) : num_gt a (Fin 10) = true -> num_ge a a = true.
Proof.
  intros H. apply num_gt_Fin in H as [->|(r & -> & Hr)]; [reflexivity|].
  unfold num_ge, num_le. simpl.
  destruct (Qcompare_spec r r) as [E|E|E]; try reflexivity.
  exfalso. revert E. apply Qlt_irrefl.
Qed.

Lemma num_gt_ge_trans (a b c : number) :
  num_gt a b = true -> num_ge b c = true -> num_ge a c = true.
Proof.
  unfold num_gt, num_ge, num_lt, num_le.
  destruct a as [|[]|p], b as [|[]|q], c as [|[]|r]; cbn -[Qcompare];
    try discriminate; try reflexivity.
  destruct (Qcompare_spec q p) as [E1|E1|E1]; try discriminate.
  intros _.
  destruct (Qcompare_spec r q) as [E2|E2|E2]; try discriminate; intros _.
  - destruct (Qcompare_spec r p); try reflexivity. exfalso. lra.
  - destruct (Qcompare_spec r p); try reflexivity. exfalso. lra.
Qed.

(** ** Dates and time zones *)

(** In a zone whose offset never changes, the update of the loop adds one
    minute. *)
Lemma fixed_zone_next_minute (offset : Z) (date : Date) :
  @next_minute (fixed_zone offset) date = date + 60000.
Proof. rewrite next_minute_local. simpl. lia. Qed.

Lemma fixed_zone_steady (offset : Z) (startT endT : Date) :
  @steady (fixed_zone offset) startT endT.
Proof. intros k _ _. apply fixed_zone_next_minute. Qed.

(** In a zone whose offset changes once, a walk that ends more than one
    minute before the change is steady. *)
Lemma steady_before_change (change before after : Z) (startT endT : Date) :
  endT + 60000 < change ->
  @steady (zone_with_change change before after) startT endT.
Proof.
  intros Hend k Hk Hle. rewrite next_minute_local. simpl.
  unfold offset_at, instant_of.
  destruct (Z.ltb_spec (startT + 60000 * k) change) as [H1|H1]; [|lia].
  destruct (Z.ltb_spec (startT + 60000 * k + before + 60000 - before) change)
    as [H2|H2]; lia.
Qed.

(** ** The loop *)

Section Walk.
Context {lib : satellite.Lib} {tz : TimeZone}.
Variables (satrec : satellite.SatRec) (observer : Observer).

Lemma for_loop_step (endT date : Date) (st : WalkState) :
  for_loop satrec observer endT date st =
  if decide (date <= endT)
  then for_loop satrec observer endT (next_minute date)
                (loop_body satrec observer date st)
  else st.
Proof.
  rewrite for_loop_equation_1.
  destruct (decide (date <= endT)); reflexivity.
Qed.

Lemma visit_loop_step (endT date : Date) :
  visit_loop endT date =
  if decide (date <= endT)
  then date :: visit_loop endT (next_minute date)
  else [].
Proof.
  rewrite visit_loop_equation_1.
  destruct (decide (date <= endT)); reflexivity.
Qed.

(** The loop rule: a property that holds when the loop is entered and that
    every iteration preserves holds when the loop is left, and then the
    loop condition fails. *)
Lemma for_loop_invariant (I : Date -> WalkState -> Prop) (endT : Date) :
  (forall date st,
      date <= endT -> I date st ->
      I (next_minute date) (loop_body satrec observer date st)) ->
  forall date st,
    I date st ->
    exists date', endT < date' /\ I date' (for_loop satrec observer endT date st).
Proof.
  intros Hstep date st.
  remember (iterations_left endT date) as n eqn:Hn.
  revert date st Hn.
  induction n as [n IH] using lt_wf_ind.
  intros date st Hn Hinv.
  rewrite for_loop_step.
  destruct (decide (date <= endT)) as [Hle|Hgt].
  - apply (IH (iterations_left endT (next_minute date))); auto.
    subst n. now apply iterations_left_next.
  - exists date. split; [lia|assumption].
Qed.

(** The loop runs its body at the instants of [visit_loop], in their
    order. *)
Lemma for_loop_visits (endT date : Date) (st : WalkState) :
  for_loop satrec observer endT date st
  = fold_left (fun s d => loop_body satrec observer d s)
              (visit_loop endT date) st.
Proof.
  remember (iterations_left endT date) as n eqn:Hn.
  revert date st Hn.
  induction n as [n IH] using lt_wf_ind.
  intros date st Hn.
  rewrite for_loop_step, visit_loop_step.
  destruct (decide (date <= endT)) as [Hle|Hgt]; [|reflexivity].
  simpl. apply (IH (iterations_left endT (next_minute date))); auto.
  subst n. now apply iterations_left_next.
Qed.

Lemma walk_visits (startT endT : Date) :
  walk satrec observer startT endT
  = fold_left (fun s d => loop_body satrec observer d s)
              (visits startT endT) ([], None).
Proof. apply for_loop_visits. Qed.

(** Every visit is inside the window, at its end at the latest. *)
Lemma visit_loop_bound (endT date : Date) :
  Forall (fun d => d <= endT) (visit_loop endT date).
Proof.
  remember (iterations_left endT date) as n eqn:Hn.
  revert date Hn.
  induction n as [n IH] using lt_wf_ind.
  intros date Hn.
  rewrite visit_loop_step.
  destruct (decide (date <= endT)) as [Hle|Hgt]; [|constructor].
  constructor; [assumption|].
  apply (IH (iterations_left endT (next_minute date))); auto.
  subst n. now apply iterations_left_next.
Qed.

(** The first visit is the start of the window, when the window is not
    empty. *)
Lemma visits_head (startT endT : Date) :
  startT <= endT -> visits startT endT !! 0%nat = Some startT.
Proof.
  intros Hle. unfold visits. rewrite visit_loop_step.
  destruct (decide (startT <= endT)); [reflexivity|lia].
Qed.

(** The visits of a steady walk: one each minute, from the start of the
    window to its end. *)
Lemma visit_loop_steady (startT endT : Date) (k : Z) :
  steady startT endT -> 0 <= k ->
  forall i : nat,
    visit_loop endT (startT + 60000 * k) !! i
    = if decide (startT + 60000 * (k + Z.of_nat i) <= endT)
      then Some (startT + 60000 * (k + Z.of_nat i))
      else None.
Proof.
  intros Hsteady Hk.
  remember (iterations_left endT (startT + 60000 * k)) as n eqn:Hn.
  revert k Hk Hn.
  induction n as [n IH] using lt_wf_ind.
  intros k Hk Hn i.
  rewrite visit_loop_step.
  destruct (decide (startT + 60000 * k <= endT)) as [Hle|Hgt].
  - pose proof (iterations_left_next endT _ Hle) as Hlt.
    rewrite (Hsteady k Hk Hle) in *.
    replace (startT + 60000 * k + 60000)
      with (startT + 60000 * (k + 1)) in * by lia.
    destruct i as [|i].
    + simpl. replace (k + Z.of_nat 0) with k by lia.
      destruct (decide (startT + 60000 * k <= endT)); [reflexivity|lia].
    + change ((?d :: ?l) !! S i) with (l !! i).
      subst n.
      etransitivity; [exact (IH _ Hlt (k + 1) ltac:(lia) eq_refl i)|].
      replace (k + 1 + Z.of_nat i) with (k + Z.of_nat (S i)) by lia.
      reflexivity.
  - rewrite lookup_nil.
    destruct (decide (startT + 60000 * (k + Z.of_nat i) <= endT)); [lia|].
    reflexivity.
Qed.

Lemma visits_steady (startT endT : Date) (i : nat) :
  steady startT endT ->
  visits startT endT !! i
  = if decide (startT + 60000 * Z.of_nat i <= endT)
    then Some (startT + 60000 * Z.of_nat i)
    else None.
Proof.
  intros Hsteady. unfold visits.
  replace startT with (startT + 60000 * 0) at 1 by lia.
  rewrite (visit_loop_steady startT endT 0 Hsteady ltac:(lia) i).
  reflexivity.
Qed.

(** The rule of a fold: a property of the visits made so far and the state
    that every visit preserves. *)
Lemma fold_left_invariant (I : list Date -> WalkState -> Prop)
    (dates : list Date) (st : WalkState) :
  I [] st ->
  (forall seen d s, I seen s -> I (seen ++ [d]) (loop_body satrec observer d s)) ->
  I dates (fold_left (fun s d => loop_body satrec observer d s) dates st).
Proof.
  intros Hinit Hstep.
  enough (H : forall seen s,
             I seen s ->
             I (seen ++ dates)
               (fold_left (fun s d => loop_body satrec observer d s) dates s))
    by (apply (H [] st Hinit)).
  induction dates as [|d dates IH]; intros seen s Hs; simpl.
  - now rewrite app_nil_r.
  - replace (seen ++ d :: dates) with ((seen ++ [d]) ++ dates)
      by (rewrite <- app_assoc; reflexivity).
    apply IH. now apply Hstep.
Qed.

Lemma loop_body_sample (date : Date) (st : WalkState) :
  loop_body satrec observer date st =
  match sample satrec observer date with
  | Some (el, raw) => update_pass date el (normalizeAzimuth raw) st
  | None => st
  end.
Proof.
  unfold loop_body, sample.
  destruct (satellite.propagate satrec date); reflexivity.
Qed.

Lemma StronglySorted_snoc {A : Type} (R : A -> A -> Prop) (l : list A) (a : A) :
  StronglySorted R l -> Forall (fun b => R b a) l -> StronglySorted R (l ++ [a]).
Proof.
  induction 1 as [|b l Hs IH Hb]; intros Hall; simpl.
  - repeat constructor.
  - inversion Hall; subst. constructor; [auto|].
    apply Forall_app. split; [assumption|]. constructor; [assumption|constructor].
Qed.

Lemma sampled_step (startT endT date : Date) :
  (exists k : Z, 0 <= k /\ date = startT + 60000 * k) ->
  date <= endT -> sampled startT endT date.
Proof. intros (k & Hk & ->) Hle. exists k. auto. Qed.

Lemma walk_inv_init (startT endT : Date) :
  walk_inv satrec observer startT endT startT ([], None).
Proof.
  unfold walk_inv; simpl. split_and!; try constructor; try lia.
  exists 0. lia.
Qed.

Lemma walk_inv_step (startT endT date : Date) (st : WalkState) :
  date <= endT ->
  walk_inv satrec observer startT endT date st ->
  walk_inv satrec observer startT endT (date + 60000)
           (loop_body satrec observer date st).
Proof.
  intros Hle (Hgrid & Hclosed & Hpeak & Hend & Hsorted & Hcur & Hprev & _).
  assert (Hnext : startT <= endT -> date + 60000 <= endT + 60000) by lia.
  assert (Hgrid' : exists k : Z, 0 <= k /\ date + 60000 = startT + 60000 * k).
  { destruct Hgrid as (k & Hk & ->). exists (k + 1). lia. }
  assert (Hend' : Forall (fun p => Pass.endTime p < date + 60000) (fst st)).
  { eapply Forall_impl; [exact Hend|]. simpl. intros; lia. }
  rewrite loop_body_sample.
  destruct (sample satrec observer date) as [[el raw]|] eqn:Hsample.
  2:{ (* the sample is skipped *)
    unfold walk_inv. split_and!; auto.
    - destruct (snd st) as [cur|]; [|exact I].
      destruct Hcur as (? & ? & ? & ? & ?). split_and!; auto. lia.
    - intros _. replace (date + 60000 - 60000) with date by lia.
      unfold visible. rewrite Hsample. discriminate. }
  destruct st as [passes cur]. simpl in *.
  unfold update_pass.
  destruct (num_gt el (Fin 10)) eqn:Hvis.
  - (* visible *)
    assert (Hopen : forall c : PendingPass,
               sampled startT endT (pendingStartTime c) ->
               visible satrec observer (pendingStartTime c) = true ->
               peak_ok satrec observer (pendingStartTime c)
                       (pendingMaxElevation c) ->
               pendingStartTime c < date + 60000 ->
               Forall (fun p => Pass.endTime p < pendingStartTime c) passes ->
               walk_inv satrec observer startT endT (date + 60000)
                 (if num_gt el (num_or (pendingMaxElevation c) (Fin 0))
                  then (passes,
                        Some {| pendingStartTime := pendingStartTime c;
                                pendingStartAz := pendingStartAz c;
                                pendingMaxElevation := el |})
                  else (passes, Some c))).
    { intros c Hc1 Hc2 Hc3 Hc4 Hc5.
      destruct Hc3 as (Hc3 & el0 & raw0 & Hs0 & Hv0 & Hge0).
      rewrite (num_or_peak _ Hc3).
      destruct (num_gt el (pendingMaxElevation c)) eqn:Hmax;
        unfold walk_inv; simpl; split_and!; auto; try discriminate.
      - split; [assumption|]. exists el0, raw0. split_and!; auto.
        eapply num_gt_ge_trans; eauto.
      - split; [assumption|]. exists el0, raw0. auto. }
    destruct cur as [c|].
    + destruct Hcur as (? & ? & ? & ? & ?). apply Hopen; auto. lia.
    + apply Hopen; simpl; auto.
      * now apply sampled_step.
      * unfold visible. now rewrite Hsample.
      * split; [assumption|]. exists el, raw. split_and!; auto.
        now apply num_ge_refl.
      * lia.
  - (* not visible *)
    destruct cur as [c|].
    + destruct Hcur as (Hc1 & Hc2 & Hc3 & Hc4 & Hc5).
      unfold walk_inv; simpl. split_and!; auto.
      * apply Forall_app. split; [assumption|]. constructor; [|constructor].
        unfold closed_in_window; simpl. split_and!; auto.
        -- now apply sampled_step.
        -- unfold below. rewrite Hsample, Hvis. reflexivity.
      * apply Forall_app. split; [assumption|]. constructor; [|constructor].
        simpl. assumption.
      * apply Forall_app. split; [assumption|]. constructor; [|constructor].
        simpl. lia.
      * apply StronglySorted_snoc; [assumption|]. simpl. assumption.
      * intros _. replace (date + 60000 - 60000) with date by lia.
        unfold visible. rewrite Hsample, Hvis. discriminate.
    + unfold walk_inv; simpl. split_and!; auto.
      intros _. replace (date + 60000 - 60000) with date by lia.
      unfold visible. rewrite Hsample, Hvis. discriminate.
Qed.

(** The invariant holds of the state in which a steady walk ends. *)
Lemma walk_inv_final (startT endT : Date) :
  steady startT endT ->
  exists date,
    endT < date
    /\ walk_inv satrec observer startT endT date
                (walk satrec observer startT endT).
Proof.
  intros Hsteady. unfold walk.
  apply (for_loop_invariant (walk_inv satrec observer startT endT)).
  - intros date st Hle Hinv.
    assert (Hnext : next_minute date = date + 60000).
    { destruct Hinv as ((k & Hk & ->) & _). now apply Hsteady. }
    rewrite Hnext. now apply walk_inv_step.
  - apply walk_inv_init.
Qed.

End Walk.

(** ** The walk against its visits *)

Section Trace.
Context {lib : satellite.Lib}.
Variables (satrec : satellite.SatRec) (observer : Observer).

Lemma lookup_snoc_earlier (seen : list Date) (d x : Date) (i : nat) :
  seen !! i = Some x -> (seen ++ [d]) !! i = Some x /\ (i < length seen)%nat.
Proof.
  intros H. split.
  - now apply lookup_app_l_Some.
  - now apply lookup_lt_Some in H.
Qed.

Lemma lookup_snoc_last (seen : list Date) (d : Date) :
  (seen ++ [d]) !! length seen = Some d.
Proof. apply list_lookup_middle. reflexivity. Qed.

Lemma closed_between_snoc (seen : list Date) (d : Date) (p : SatellitePass) :
  closed_between satrec observer seen p ->
  closed_between satrec observer (seen ++ [d]) p.
Proof.
  intros (i & j & Hij & Hi & Hj & Hv & Hb). exists i, j.
  split_and!; auto; now apply lookup_snoc_earlier.
Qed.

Lemma opened_at_snoc (seen : list Date) (d : Date)
    (passes : list SatellitePass) (cur : PendingPass) (j : nat) :
  opened_at seen passes cur j -> opened_at (seen ++ [d]) passes cur j.
Proof.
  intros [Hj Hall]. split.
  - now apply lookup_snoc_earlier.
  - eapply Forall_impl; [exact Hall|]. simpl.
    intros p (i & Hi & Hp). exists i. split; [assumption|].
    now apply lookup_snoc_earlier.
Qed.

Lemma visible_sample (date : Date) (el raw : number) :
  sample satrec observer date = Some (el, raw) ->
  visible satrec observer date = num_gt el (Fin 10).
Proof. intros H. unfold visible. now rewrite H. Qed.

Lemma below_sample (date : Date) (el raw : number) :
  sample satrec observer date = Some (el, raw) ->
  below satrec observer date = negb (num_gt el (Fin 10)).
Proof. intros H. unfold below. now rewrite H. Qed.

Lemma azimuth_at_sample (date : Date) (el raw : number) :
  sample satrec observer date = Some (el, raw) ->
  azimuth_at satrec observer date = Some (normalizeAzimuth raw).
Proof. intros H. unfold azimuth_at. now rewrite H. Qed.

Lemma trace_inv_init : trace_inv satrec observer [] ([], None).
Proof.
  unfold trace_inv; simpl.
  split_and!; try constructor; auto; try discriminate; lia.
Qed.

Lemma trace_inv_step (seen : list Date) (d : Date) (st : WalkState) :
  trace_inv satrec observer seen st ->
  trace_inv satrec observer (seen ++ [d]) (loop_body satrec observer d st).
Proof.
  intros (Hclosed & Hpeak & Hends & Hcur & Hlast & Hcount & Hnone).
  assert (Hclosed' : Forall (closed_between satrec observer (seen ++ [d]))
                            (fst st)).
  { eapply Forall_impl; [exact Hclosed|]. intros p. apply closed_between_snoc. }
  assert (Hlen : length (seen ++ [d]) = S (length seen))
    by (rewrite length_app; simpl; lia).
  assert (Hnone' : Forall (fun x => visible satrec observer x = false)
                          (seen ++ [d]) ->
                   st = ([], None)
                   /\ visible satrec observer d = false).
  { intros Hall. apply Forall_app in Hall as [Hall Hd]. split; [auto|].
    now inversion Hd. }
  rewrite loop_body_sample.
  destruct (sample satrec observer d) as [[el raw]|] eqn:Hsample.
  2:{ (* the sample is skipped *)
    unfold trace_inv. split_and!; auto.
    - destruct (snd st) as [cur|]; [|exact I].
      destruct Hcur as ((j & Hj) & ? & ? & ?). split_and!; auto.
      exists j. now apply opened_at_snoc.
    - intros x Hx. rewrite last_snoc in Hx. injection Hx as <-.
      unfold visible. rewrite Hsample. discriminate.
    - lia.
    - intros Hall. now apply Hnone'. }
  pose proof (visible_sample d el raw Hsample) as Hvisible.
  pose proof (below_sample d el raw Hsample) as Hbelow.
  pose proof (azimuth_at_sample d el raw Hsample) as Hazimuth.
  destruct st as [passes cur]. simpl in *.
  unfold update_pass.
  destruct (num_gt el (Fin 10)) eqn:Hvis.
  - (* visible *)
    assert (Hopen : forall c : PendingPass,
               (exists j, opened_at (seen ++ [d]) passes c j) ->
               visible satrec observer (pendingStartTime c) = true ->
               peak_ok satrec observer (pendingStartTime c)
                       (pendingMaxElevation c) ->
               azimuth_at satrec observer (pendingStartTime c)
               = Some (pendingStartAz c) ->
               (2 * length passes + 1 <= length (seen ++ [d]))%nat ->
               trace_inv satrec observer (seen ++ [d])
                 (if num_gt el (num_or (pendingMaxElevation c) (Fin 0))
                  then (passes,
                        Some {| pendingStartTime := pendingStartTime c;
                                pendingStartAz := pendingStartAz c;
                                pendingMaxElevation := el |})
                  else (passes, Some c))).
    { intros c Hc1 Hc2 Hc3 Hc4 Hc5.
      destruct Hc3 as (Hc3 & el0 & raw0 & Hs0 & Hv0 & Hge0).
      rewrite (num_or_peak _ Hc3).
      destruct (num_gt el (pendingMaxElevation c)) eqn:Hmax;
        unfold trace_inv; simpl; split_and!; auto; try discriminate;
        try (intros Hall; apply Hnone' in Hall as [_ Hall]; congruence).
      - split; [assumption|]. exists el0, raw0. split_and!; auto.
        eapply num_gt_ge_trans; eauto.
      - split; [assumption|]. exists el0, raw0. auto. }
    destruct cur as [c|].
    + destruct Hcur as ((j & Hj) & ? & ? & ?). apply Hopen; auto.
      * exists j. now apply opened_at_snoc.
      * simpl in Hcount. lia.
    + apply Hopen; simpl; auto.
      * exists (length seen). split; simpl.
        -- apply lookup_snoc_last.
        -- rewrite Forall_forall in Hclosed. apply Forall_forall.
           intros p Hp. destruct (Hclosed p Hp) as (i & j & _ & _ & Hj & _).
           exists j. now destruct (lookup_snoc_earlier seen d _ j Hj).
      * split; [assumption|]. exists el, raw. split_and!; auto.
        now apply num_ge_refl.
      * simpl in Hcount. lia.
  - (* not visible *)
    assert (Hlast' : forall x, last (seen ++ [d]) = Some x ->
                               visible satrec observer x = true -> False).
    { intros x Hx. rewrite last_snoc in Hx. injection Hx as <-. congruence. }
    destruct cur as [c|].
    + destruct Hcur as ((j & Hj & Hbefore) & Hc2 & Hc3 & Hc4).
      unfold trace_inv; simpl. split_and!; auto.
      * apply Forall_app. split; [assumption|]. constructor; [|constructor].
        exists j, (length seen). simpl.
        destruct (lookup_snoc_earlier seen d _ j Hj) as [Hj' Hlt].
        split_and!; auto. apply lookup_snoc_last.
      * apply Forall_app. split; [assumption|]. constructor; [|constructor].
        simpl. assumption.
      * apply Forall_app. split; [assumption|]. constructor; [|constructor].
        unfold ends_exact. simpl. auto.
      * intros x Hx Hv. destruct (Hlast' x Hx Hv).
      * rewrite length_app. simpl in *. lia.
      * intros Hall. apply Hnone' in Hall as [Hall _]. discriminate Hall.
    + unfold trace_inv; simpl. split_and!; auto.
      * intros x Hx Hv. destruct (Hlast' x Hx Hv).
      * simpl in Hcount. lia.
      * intros Hall. now apply Hnone'.
Qed.

End Trace.

Section TraceFinal.
Context {lib : satellite.Lib} {tz : TimeZone}.
Variables (satrec : satellite.SatRec) (observer : Observer).

(** The invariant holds of the state in which the walk ends, whatever the
    time zone. *)
Lemma trace_inv_final (startT endT : Date) :
  trace_inv satrec observer (visits startT endT)
            (walk satrec observer startT endT).
Proof.
  rewrite walk_visits.
  apply (fold_left_invariant satrec observer (trace_inv satrec observer)).
  - apply trace_inv_init.
  - intros seen d s. apply trace_inv_step.
Qed.

End TraceFinal.
(** ** Passes *)

Lemma StronglySorted_lookup {A : Type} (R : A -> A -> Prop) (l : list A)
    (i j : nat) (a b : A) :
  StronglySorted R l -> (i < j)%nat ->
  l !! i = Some a -> l !! j = Some b -> R a b.
Proof.
  intros Hs. revert i j. induction Hs as [|c l Hs IH Hc]; intros i j Hij Hi Hj.
  - discriminate.
  - destruct j as [|j]; [lia|]. destruct i as [|i]; simpl in *.
    + injection Hi as <-. rewrite Forall_forall in Hc. apply Hc.
      eapply list_elem_of_lookup_2; eauto.
    + apply (IH i j); auto. lia.
Qed.


Section PassClaims.
Context {lib : satellite.Lib} {tz : TimeZone}.
Variables (satrec : satellite.SatRec) (observer : Observer).

Lemma for_loop_sample (endT date : Date) (st : WalkState) (el raw : number) :
  date <= endT ->
  sample satrec observer date = Some (el, raw) ->
  for_loop satrec observer endT date st =
  for_loop satrec observer endT (next_minute date)
           (update_pass date el (normalizeAzimuth raw) st).
Proof.
  intros Hle Hs. rewrite for_loop_step.
  destruct (decide (date <= endT)); [|lia].
  now rewrite loop_body_sample, Hs.
Qed.

(** The five cases of lines 103-121. *)
Lemma update_pass_idle (date : Date) (el az : number)
    (passes : list SatellitePass) :
  num_gt el (Fin 10) = false ->
  update_pass date el az (passes, None) = (passes, None).
Proof. intros H. unfold update_pass. now rewrite H. Qed.

Lemma update_pass_open (date : Date) (el az : number)
    (passes : list SatellitePass) :
  num_gt el (Fin 10) = true ->
  update_pass date el az (passes, None) =
  (passes, Some {| pendingStartTime := date;
                   pendingStartAz := az;
                   pendingMaxElevation := el |}).
Proof.
  intros H. unfold update_pass. rewrite H. simpl.
  rewrite (num_or_peak _ H). now destruct (num_gt el el).
Qed.

Lemma update_pass_raise (date : Date) (el az : number)
    (passes : list SatellitePass) (cur : PendingPass) :
  num_gt el (Fin 10) = true ->
  num_gt el (num_or (pendingMaxElevation cur) (Fin 0)) = true ->
  update_pass date el az (passes, Some cur) =
  (passes, Some {| pendingStartTime := pendingStartTime cur;
                   pendingStartAz := pendingStartAz cur;
                   pendingMaxElevation := el |}).
Proof. intros H1 H2. unfold update_pass. now rewrite H1, H2. Qed.

Lemma update_pass_keep (date : Date) (el az : number)
    (passes : list SatellitePass) (cur : PendingPass) :
  num_gt el (Fin 10) = true ->
  num_gt el (num_or (pendingMaxElevation cur) (Fin 0)) = false ->
  update_pass date el az (passes, Some cur) = (passes, Some cur).
Proof. intros H1 H2. unfold update_pass. now rewrite H1, H2. Qed.

Lemma update_pass_close (date : Date) (el az : number)
    (passes : list SatellitePass) (cur : PendingPass) :
  num_gt el (Fin 10) = false ->
  update_pass date el az (passes, Some cur) =
  (passes ++
     [ {| Pass.startTime := pendingStartTime cur;
          Pass.endTime := date;
          Pass.maxElevation := pendingMaxElevation cur;
          Pass.startAz := pendingStartAz cur;
          Pass.endAz := az;
          Pass.duration :=
            num_div (of_Z (date - pendingStartTime cur)) (Fin 1000) |} ],
   None).
Proof. intros H. unfold update_pass. now rewrite H. Qed.


(** Once no pass is open, samples that are skipped or not visible leave the
    result of a steady walk as it is. *)
Lemma for_loop_quiet (T0 endT : Date) (k0 : Z) (passes : list SatellitePass) :
  steady T0 endT -> 0 <= k0 ->
  (forall k, k0 <= k -> T0 + 60000 * k <= endT ->
             visible satrec observer (T0 + 60000 * k) = false) ->
  for_loop satrec observer endT (T0 + 60000 * k0) (passes, None)
  = (passes, None).
Proof.
  intros Hsteady Hk0 Hquiet.
  destruct (for_loop_invariant satrec observer
              (fun d st => (exists k, k0 <= k /\ d = T0 + 60000 * k)
                           /\ st = (passes, None))
              endT) with (date := T0 + 60000 * k0) (st := (passes, @None PendingPass))
    as (d & _ & _ & Hfinal).
  - intros date st Hle ((k & Hk & ->) & ->). split.
    + exists (k + 1). split; [lia|].
      rewrite (Hsteady k ltac:(lia) Hle). lia.
    + rewrite loop_body_sample. specialize (Hquiet k Hk Hle).
      unfold visible in Hquiet.
      destruct (sample satrec observer (T0 + 60000 * k)) as [[el raw]|];
        [|reflexivity].
      unfold update_pass. now rewrite Hquiet.
  - split; [|reflexivity]. exists k0. lia.
  - exact Hfinal.
Qed.

Lemma for_loop_sample_steady (T0 endT : Date) (k : Z) (date : Date)
    (st : WalkState) (el raw : number) :
  steady T0 endT -> 0 <= k -> date = T0 + 60000 * k -> date <= endT ->
  sample satrec observer date = Some (el, raw) ->
  for_loop satrec observer endT date st =
  for_loop satrec observer endT (date + 60000)
           (update_pass date el (normalizeAzimuth raw) st).
Proof.
  intros Hsteady Hk -> Hle Hs.
  rewrite (for_loop_sample endT _ st el raw Hle Hs).
  now rewrite (Hsteady k Hk Hle).
Qed.

(** The end-to-end case of the design document, in a steady walk.  When the
    samples at [T0], [T0 + 1 min], ..., [T0 + 5 min] have the elevations 5,
    5, 15, 20, 15, 5 and no later sample of the window is visible,
    [calculatePasses] over a window from [T0] that holds these six samples
    returns exactly one pass: it starts at [T0 + 2 min], ends at
    [T0 + 5 min], peaks at 20 degrees and lasts 180 seconds. *)
Lemma steady_single_pass (T0 endT : Date) :
  steady T0 endT ->
  (forall (k : nat) (el : Q),
      [5; 5; 15; 20; 15; 5]%Q !! k = Some el ->
      exists raw,
        sample satrec observer (T0 + 60000 * Z.of_nat k) = Some (Fin el, raw)) ->
  T0 + 5 * 60000 <= endT ->
  (forall k, 6 <= k -> T0 + 60000 * k <= endT ->
             visible satrec observer (T0 + 60000 * k) = false) ->
  exists p,
    calculatePasses satrec observer T0 endT = [p]
    /\ Pass.startTime p = T0 + 2 * 60000
    /\ Pass.endTime p = T0 + 5 * 60000
    /\ Pass.maxElevation p = Fin 20
    /\ num_is (Pass.duration p) 180.
Proof.
  intros Hsteady Hel Hend Hquiet.
  destruct (Hel 0%nat _ eq_refl) as (r0 & H0).
  destruct (Hel 1%nat _ eq_refl) as (r1 & H1).
  destruct (Hel 2%nat _ eq_refl) as (r2 & H2).
  destruct (Hel 3%nat _ eq_refl) as (r3 & H3).
  destruct (Hel 4%nat _ eq_refl) as (r4 & H4).
  destruct (Hel 5%nat _ eq_refl) as (r5 & H5).
  replace (T0 + 60000 * Z.of_nat 0) with T0 in H0 by lia.
  replace (T0 + 60000 * Z.of_nat 1) with (T0 + 60000) in H1 by lia.
  replace (T0 + 60000 * Z.of_nat 2) with (T0 + 60000 + 60000) in H2 by lia.
  replace (T0 + 60000 * Z.of_nat 3)
    with (T0 + 60000 + 60000 + 60000) in H3 by lia.
  replace (T0 + 60000 * Z.of_nat 4)
    with (T0 + 60000 + 60000 + 60000 + 60000) in H4 by lia.
  replace (T0 + 60000 * Z.of_nat 5)
    with (T0 + 60000 + 60000 + 60000 + 60000 + 60000) in H5 by lia.
  unfold calculatePasses, walk.
  rewrite (fun st => for_loop_sample_steady T0 endT 0 T0 st _ _
                       Hsteady
                       ltac:(lia) ltac:(lia) ltac:(lia) H0).
  rewrite (fun st => for_loop_sample_steady T0 endT 1 (T0 + 60000) st _ _
                       Hsteady
                       ltac:(lia) ltac:(lia) ltac:(lia) H1).
  rewrite (fun st => for_loop_sample_steady T0 endT 2 (T0 + 60000 + 60000) st _ _
                       Hsteady
                       ltac:(lia) ltac:(lia) ltac:(lia) H2).
  rewrite (fun st => for_loop_sample_steady T0 endT 3 (T0 + 60000 + 60000 + 60000) st _ _
                       Hsteady
                       ltac:(lia) ltac:(lia) ltac:(lia) H3).
  rewrite (fun st => for_loop_sample_steady T0 endT 4 (T0 + 60000 + 60000 + 60000 + 60000) st _ _
                       Hsteady
                       ltac:(lia) ltac:(lia) ltac:(lia) H4).
  rewrite (fun st => for_loop_sample_steady T0 endT 5 (T0 + 60000 + 60000 + 60000 + 60000 + 60000) st _ _
                       Hsteady
                       ltac:(lia) ltac:(lia) ltac:(lia) H5).
  replace (T0 + 60000 + 60000 + 60000 + 60000 + 60000 + 60000)
    with (T0 + 60000 * 6) by lia.
  rewrite update_pass_idle by reflexivity.
  rewrite update_pass_idle by reflexivity.
  rewrite update_pass_open by reflexivity.
  rewrite update_pass_raise by reflexivity.
  rewrite update_pass_keep by reflexivity.
  rewrite update_pass_close by reflexivity.
  rewrite (for_loop_quiet T0 endT 6 _ Hsteady ltac:(lia) Hquiet).
  eexists. split; [reflexivity|]. simpl.
  split_and!; try lia; try reflexivity.
  replace (T0 + 60000 + 60000 + 60000 + 60000 + 60000 - (T0 + 60000 + 60000))
    with 180000 by lia.
  reflexivity.
Qed.

(** C4. A sample at which propagation yields no valid position is skipped:
    the loop body leaves the passes found so far and the pass in progress
    as they are, and the walk goes on with them from the instant that
    [date.setMinutes(date.getMinutes() + 1)] sets. *)
Theorem skipped_sample_preserves_state (endT date : Date) (st : WalkState) :
  position_missing (satellite.propagate satrec date) = true ->
  date <= endT ->
  loop_body satrec observer date st = st
  /\ for_loop satrec observer endT date st
     = for_loop satrec observer endT (next_minute date) st.
Proof.
  intros Hmiss Hle.
  assert (Hbody : loop_body satrec observer date st = st).
  { unfold loop_body. now rewrite Hmiss. }
  split; [exact Hbody|].
  rewrite for_loop_step. destruct (decide (date <= endT)); [|lia].
  now rewrite Hbody.
Qed.

(** In a steady walk the passes that [calculatePasses] returns are in
    non-decreasing order of start time, and none ends before it starts. *)
Lemma steady_chronological (startT endT : Date) :
  steady startT endT ->
  let passes := calculatePasses satrec observer startT endT in
  (forall (i j : nat) (p q : SatellitePass),
      (i <= j)%nat -> passes !! i = Some p -> passes !! j = Some q ->
      Pass.startTime p <= Pass.startTime q)
  /\ (forall p, p ∈ passes -> Pass.startTime p <= Pass.endTime p).
Proof.
  intros Hsteady.
  destruct (walk_inv_final satrec observer startT endT Hsteady)
    as (d & _ & _ & Hclosed & _ & _ & Hsorted & _).
  fold (calculatePasses satrec observer startT endT) in Hclosed, Hsorted.
  rewrite Forall_forall in Hclosed.
  simpl. split.
  - intros i j p q Hij Hp Hq.
    destruct (decide (i = j)) as [->|Hne].
    + rewrite Hp in Hq. injection Hq as ->. lia.
    + pose proof (StronglySorted_lookup _ _ i j p q Hsorted
                    ltac:(lia) Hp Hq) as Hlt.
      simpl in Hlt.
      assert (Hin : p ∈ calculatePasses satrec observer startT endT)
        by (eapply list_elem_of_lookup_2; eauto).
      destruct (Hclosed p Hin) as (_ & _ & Hse & _). lia.
  - intros p Hin. destruct (Hclosed p Hin) as (_ & _ & Hse & _). lia.
Qed.

(** C10. Every pass that [calculatePasses] returns has a peak elevation
    above 10 degrees, and its peak is at least the elevation of the sample
    that opened it, the one at its start time. *)
Theorem calculatePasses_peak (startT endT : Date) (p : SatellitePass) :
  p ∈ calculatePasses satrec observer startT endT ->
  num_gt (Pass.maxElevation p) (Fin 10) = true
  /\ exists el raw,
       sample satrec observer (Pass.startTime p) = Some (el, raw)
       /\ num_ge (Pass.maxElevation p) el = true.
Proof.
  intros Hin.
  destruct (trace_inv_final satrec observer startT endT)
    as (_ & Hpeak & _).
  fold (calculatePasses satrec observer startT endT) in Hpeak.
  rewrite Forall_forall in Hpeak.
  destruct (Hpeak p Hin) as (Hgt & el & raw & Hs & _ & Hge).
  split; [exact Hgt|]. exists el, raw. auto.
Qed.

Lemma walk_ends_after_last_sample (startT endT d : Date) :
  startT <= endT -> endT < d -> d <= endT + 60000 ->
  (exists k : Z, 0 <= k /\ d = startT + 60000 * k) ->
  d - 60000 = last_sample startT endT.
Proof.
  intros Hwin Hlt Hle (k & Hk & ->). unfold last_sample.
  assert ((endT - startT) / 60000 = k - 1); [|lia].
  symmetry. apply (Z.div_unique_pos _ _ _ (endT - startT - 60000 * (k - 1))); lia.
Qed.





End PassClaims.

(** ** Azimuth *)

Lemma Qtrunc_nonneg (t : Q) : (0 <= t)%Q -> Qtrunc t = Qfloor t.
Proof.
  destruct t as [n d]. unfold Qle, Qtrunc, Qfloor. simpl. intros H.
  apply Z.quot_div_nonneg; lia.
Qed.

(** The remainder of a dividend that is not negative. *)
Lemma Qrem_range (p q : Q) :
  (0 <= p)%Q -> (0 < q)%Q ->
  (0 <= p - q * inject_Z (Qtrunc (p / q))
   /\ p - q * inject_Z (Qtrunc (p / q)) < q)%Q.
Proof.
  intros Hp Hq.
  assert (Ht : (0 <= p / q)%Q).
  { apply Qle_shift_div_l; [assumption|]. lra. }
  rewrite (Qtrunc_nonneg _ Ht).
  pose proof (Qfloor_le (p / q)) as Hlo.
  pose proof (Qlt_floor (p / q)) as Hhi.
  rewrite inject_Z_plus in Hhi.
  set (f := inject_Z (Qfloor (p / q))) in *.
  assert (Hpq : (q * (p / q) == p)%Q) by (apply Qmult_div_r; lra).
  assert (H1 : (q * f <= q * (p / q))%Q) by (apply Qmult_le_l; assumption).
  assert (H2 : (q * (p / q) < q * (f + inject_Z 1))%Q)
    by (apply Qmult_lt_l; assumption).
  change (inject_Z 1) with 1%Q in H2.
  split; lra.
Qed.

Lemma num_rem_range (p q : Q) :
  (0 <= p)%Q -> (0 < q)%Q ->
  exists m, num_rem (Fin p) (Fin q) = Fin m /\ (0 <= m /\ m < q)%Q.
Proof.
  intros Hp Hq. unfold num_rem.
  destruct (Qeq_bool q 0) eqn:E.
  - apply Qeq_bool_iff in E. lra.
  - eexists. split; [reflexivity|]. now apply Qrem_range.
Qed.

Lemma degrees_range (pi m d : Q) :
  (0 < pi)%Q -> (0 <= m)%Q -> (m < 2 * pi)%Q ->
  (d == (m + - pi) * (180 / pi))%Q ->
  (-180 <= d /\ d < 180)%Q.
Proof.
  intros Hpi Hm0 Hm1 Hd.
  assert (Hc : (0 < 180 / pi)%Q) by (apply Qlt_shift_div_l; lra).
  assert (Hpc : (pi * (180 / pi) == 180)%Q) by (apply Qmult_div_r; lra).
  set (c := (180 / pi)%Q) in *.
  assert (H0 : (0 <= m * c)%Q) by (apply Qmult_le_0_compat; lra).
  assert (H1 : (m * c < (2 * pi) * c)%Q) by (apply Qmult_lt_r; assumption).
  split; lra.
Qed.

Lemma Math_PI_pos : (0 < Math_PI)%Q.
Proof. reflexivity. Qed.

Section Azimuth.
Context {lib : satellite.Lib}.

(** The first wrap, for a raw azimuth from minus pi upwards. *)
Lemma wrapAzimuth_range (r : Q) :
  (- Math_PI <= r)%Q ->
  exists w, wrapAzimuth (Fin r) = Fin w /\ (- Math_PI <= w /\ w < Math_PI)%Q.
Proof.
  intros Hr. pose proof Math_PI_pos as Hpi. unfold wrapAzimuth.
  change (num_add (Fin r) (Fin Math_PI)) with (Fin (r + Math_PI)).
  change (num_mul (Fin 2) (Fin Math_PI)) with (Fin (2 * Math_PI)).
  destruct (num_rem_range (r + Math_PI) (2 * Math_PI)) as (m & -> & Hm0 & Hm1);
    [lra|lra|].
  exists (m + - Math_PI)%Q. split; [reflexivity|]. lra.
Qed.

Lemma normalizeAzimuth_range (r : Q) :
  converts_to_degrees ->
  (- Math_PI <= r)%Q ->
  num_in 0 360 (normalizeAzimuth (Fin r)).
Proof.
  intros Hdeg Hr. pose proof Math_PI_pos as Hpi. unfold normalizeAzimuth.
  destruct (wrapAzimuth_range r Hr) as (w & -> & Hw0 & Hw1).
  specialize (Hdeg w ltac:(lra)).
  destruct (satellite.degreesLong (Fin w)) as [| |d]; try contradiction.
  simpl in Hdeg.
  destruct (degrees_range Math_PI (w + Math_PI) d) as [Hd0 Hd1];
    [lra|lra|lra| |].
  { rewrite Hdeg. apply Qmult_comp; [ring|reflexivity]. }
  change (num_add (Fin d) (Fin 360)) with (Fin (d + 360)).
  destruct (num_rem_range (d + 360) 360) as (a & -> & Ha); [lra|lra|].
  exact Ha.
Qed.

End Azimuth.


Section AzimuthOfPasses.
Context {lib : satellite.Lib} {tz : TimeZone}.
Variables (satrec : satellite.SatRec) (observer : Observer).

Lemma azimuths_ok_step (date : Date) (st : WalkState) :
  converts_to_degrees ->
  azimuths_from_minus_pi satrec observer ->
  azimuths_ok st ->
  azimuths_ok (loop_body satrec observer date st).
Proof.
  intros Hdeg Hraw [Hpasses Hcur].
  rewrite loop_body_sample.
  destruct (sample satrec observer date) as [[el raw]|] eqn:Hs;
    [|split; assumption].
  destruct (Hraw date el raw Hs) as (r & -> & Hr).
  pose proof (normalizeAzimuth_range r Hdeg Hr) as Haz.
  destruct st as [passes [cur|]]; simpl in *; unfold update_pass.
  - destruct (num_gt el (Fin 10)).
    + destruct (num_gt el (num_or (pendingMaxElevation cur) (Fin 0)));
        split; simpl; assumption.
    + split; simpl; [|exact I].
      apply Forall_app. split; [assumption|].
      constructor; [|constructor]. simpl. auto.
  - destruct (num_gt el (Fin 10)); [|split; simpl; auto].
    simpl. destruct (num_gt el (num_or el (Fin 0))); split; simpl; assumption.
Qed.

(** C2, as the code has it.  For a raw azimuth that is a finite number not
    below minus pi, the first wrap [((raw + pi) % 2 pi) - pi] lies between
    minus pi (included) and pi (excluded) and, [degreesLong] converting such
    an angle to degrees, the normalized azimuth lies between 0 (included)
    and 360 (excluded); when every sample has such a raw azimuth, so do the
    start and end azimuths of every pass that [calculatePasses] returns. *)
Theorem azimuth_normalized_from_minus_pi (startT endT : Date) :
  converts_to_degrees ->
  azimuths_from_minus_pi satrec observer ->
  (forall r : Q,
      (- Math_PI <= r)%Q ->
      (exists w, wrapAzimuth (Fin r) = Fin w
                 /\ (- Math_PI <= w /\ w < Math_PI)%Q)
      /\ num_in 0 360 (normalizeAzimuth (Fin r)))
  /\ (forall p,
         p ∈ calculatePasses satrec observer startT endT ->
         num_in 0 360 (Pass.startAz p) /\ num_in 0 360 (Pass.endAz p)).
Proof.
  intros Hdeg Hraw. split.
  - intros r Hr. split.
    + now apply wrapAzimuth_range.
    + now apply normalizeAzimuth_range.
  - destruct (for_loop_invariant satrec observer (fun _ st => azimuths_ok st)
                endT) with (date := startT) (st := (@nil SatellitePass, @None PendingPass))
      as (d & _ & Hall & _).
    + intros date st _. now apply azimuths_ok_step.
    + split; simpl; [constructor|exact I].
    + intros p Hin. rewrite Forall_forall in Hall. now apply Hall.
Qed.

End AzimuthOfPasses.

(** ** The fetcher *)

Section Fetcher.
Variable env : Env.

(** C5. When the cache holds an entry for the identifier whose age, at the
    reading of the clock, is strictly less than 24 hours, [fetchTLE] returns
    the cached element set, requests nothing from the remote source and
    leaves the cache as it is. *)
Theorem fetchTLE_cache_hit (w : World) (satelliteId : string)
    (entry : CacheEntry) :
  tleCache w !! satelliteId = Some entry ->
  clock env (clockReads w) - timestamp entry < TLE_CACHE_DURATION ->
  exists w',
    fetchTLE env satelliteId w = (Returned (tle entry), w')
    /\ requests w' = requests w
    /\ tleCache w' = tleCache w.
Proof.
  intros Hcached Hfresh.
  unfold fetchTLE, bind, cache_get, Date_now. rewrite Hcached. simpl.
  destruct (Z.ltb_spec (clock env (clockReads w) - timestamp entry)
                       TLE_CACHE_DURATION) as [_|Hstale]; [|lia].
  eexists. split; [reflexivity|]. split; reflexivity.
Qed.

(** What the remote retrieval does when it fails, from any world. *)
Lemma fetchTLE_remote_fails (w : World) (satelliteId : string) (cause : Thrown) :
  failure_cause (remote env (tle_url satelliteId)) = Some cause ->
  exists w',
    fetchTLE_remote env satelliteId w =
      (Raised (ErrorObject "Error"
                 ("Failed to fetch TLE data: " +:+ String_of cause)), w')
    /\ tleCache w' = tleCache w
    /\ clockReads w' = clockReads w
    /\ requests w' = requests w ++ [tle_url satelliteId].
Proof.
  intros Hfail.
  unfold fetchTLE_remote, try_catch, bind, fetch, response_text, throw.
  destruct (remote env (tle_url satelliteId)) as [c|c|text]; simpl in Hfail.
  - injection Hfail as ->. eexists. split; [reflexivity|]. auto.
  - injection Hfail as ->. eexists. split; [reflexivity|]. auto.
  - unfold ret, trimmed_line.
    destruct (split newline text) as [|l0 [|l1 [|l2 ls]]]; simpl in Hfail;
      try discriminate; injection Hfail as <-; simpl;
      (eexists; split; [reflexivity|]; auto).
Qed.

(** C6, as the code has it.  On a cache miss or a stale entry, when the
    remote retrieval fails (the request is rejected, the text of the
    response cannot be read, or the text splits at its line feeds into fewer
    than three pieces), [fetchTLE] throws an [Error] whose message carries
    the cause, and the cache is left as it was. *)
Theorem fetchTLE_failure_not_cached (w : World) (satelliteId : string)
    (cause : Thrown) :
  (tleCache w !! satelliteId = None
   \/ exists entry,
        tleCache w !! satelliteId = Some entry
        /\ TLE_CACHE_DURATION <= clock env (clockReads w) - timestamp entry) ->
  failure_cause (remote env (tle_url satelliteId)) = Some cause ->
  exists w',
    fetchTLE env satelliteId w =
      (Raised (ErrorObject "Error"
                 ("Failed to fetch TLE data: " +:+ String_of cause)), w')
    /\ tleCache w' = tleCache w
    /\ requests w' = requests w ++ [tle_url satelliteId].
Proof.
  intros Hmiss Hfail.
  unfold fetchTLE, bind, cache_get.
  destruct Hmiss as [Hnone|(entry & Hsome & Hstale)].
  - rewrite Hnone.
    destruct (fetchTLE_remote_fails w satelliteId cause Hfail)
      as (w' & -> & Hc & _ & Hr).
    exists w'. auto.
  - rewrite Hsome. unfold Date_now.
    destruct (Z.ltb_spec (clock env (clockReads w) - timestamp entry)
                         TLE_CACHE_DURATION) as [Hfresh|_]; [lia|].
    match goal with
    | |- context [fetchTLE_remote env satelliteId ?w1] =>
        destruct (fetchTLE_remote_fails w1 satelliteId cause Hfail)
          as (w' & -> & Hc & _ & Hr)
    end.
    exists w'. auto.
Qed.

(** A text of three lines or more is stored whatever it holds. *)
Lemma fetchTLE_remote_stores (w : World) (satelliteId text : string)
    (l0 l1 l2 : string) (ls : list string) :
  remote env (tle_url satelliteId) = BodyText text ->
  split newline text = l0 :: l1 :: l2 :: ls ->
  let found := {| TLE.name := trim l0; TLE.line1 := trim l1;
                  TLE.line2 := trim l2 |} in
  exists w',
    fetchTLE_remote env satelliteId w = (Returned found, w')
    /\ tleCache w' =
       <[satelliteId := {| tle := found; timestamp := clock env (clockReads w) |}]>
         (tleCache w)
    /\ clockReads w' = S (clockReads w)
    /\ requests w' = requests w ++ [tle_url satelliteId]
    /\ console w' = console w.
Proof.
  intros Hremote Hlines. simpl.
  unfold fetchTLE_remote, try_catch, bind, fetch, response_text.
  rewrite Hremote. unfold ret, trimmed_line. rewrite Hlines. simpl.
  eexists. split; [reflexivity|]. simpl. auto.
Qed.

End Fetcher.

(** ** The handler *)

Section Handler.
Context {lib : satellite.Lib} {tz : TimeZone}.
Variable env : Env.

(** Every run of the remote retrieval requests the URL once. *)
Lemma fetchTLE_remote_trace (w w' : World) (satelliteId : string)
    (r : Outcome TLEData) :
  fetchTLE_remote env satelliteId w = (r, w') ->
  requests w' = requests w ++ [tle_url satelliteId]
  /\ (clockReads w <= clockReads w')%nat.
Proof.
  destruct (failure_cause (remote env (tle_url satelliteId))) as [cause|] eqn:Hc.
  - destruct (fetchTLE_remote_fails env w satelliteId cause Hc)
      as (w1 & -> & _ & Hclock & Hreq).
    intros [= _ <-]. split; [assumption|lia].
  - destruct (remote env (tle_url satelliteId)) as [c|c|text] eqn:Hremote;
      try discriminate Hc.
    simpl in Hc.
    destruct (split newline text) as [|l0 [|l1 [|l2 ls]]] eqn:Hlines;
      try discriminate Hc.
    destruct (fetchTLE_remote_stores env w satelliteId text l0 l1 l2 ls
                Hremote Hlines) as (w1 & -> & _ & Hclock & Hreq & _).
    intros [= _ <-]. split; [assumption|lia].
Qed.

(** Every run of [fetchTLE] leaves a trace: it reads the clock or it
    requests the URL, and it writes nothing on the console. *)
Lemma fetchTLE_trace (w w' : World) (satelliteId : string)
    (r : Outcome TLEData) :
  fetchTLE env satelliteId w = (r, w') ->
  ((clockReads w < clockReads w')%nat
   \/ (length (requests w) < length (requests w'))%nat)
  /\ (clockReads w <= clockReads w')%nat
  /\ (length (requests w) <= length (requests w'))%nat.
Proof.
  unfold fetchTLE, bind, cache_get.
  destruct (tleCache w !! satelliteId) as [entry|].
  - unfold Date_now.
    destruct (clock env (clockReads w) - timestamp entry <? TLE_CACHE_DURATION).
    + intros [= _ <-]. simpl. lia.
    + intros H. apply fetchTLE_remote_trace in H as [Hreq Hclock].
      simpl in *. rewrite Hreq, length_app. simpl. lia.
  - intros H. apply fetchTLE_remote_trace in H as [Hreq Hclock].
    rewrite Hreq, length_app. simpl. lia.
Qed.

(** A request that passes both validations goes on to fetch and to
    compute. *)
Lemma passesPrediction_accepted (req : LocationRequest) (w : World) :
  parameters_present req = true ->
  coordinates_rejected (parseFloat (ToString (Req.lat req)))
                       (parseFloat (ToString (Req.lng req))) = false ->
  passesPrediction env req w =
  try_catch
    (predict env (ToString (Req.satelliteId req))
             (parseFloat (ToString (Req.lat req)))
             (parseFloat (ToString (Req.lng req))))
    report_failure w.
Proof.
  unfold parameters_present. intros Hp Hc.
  apply andb_prop in Hp as [Hp H3]. apply andb_prop in Hp as [H1 H2].
  unfold passesPrediction, try_catch. simpl. now rewrite H1, H2, H3, Hc.
Qed.

(** What [predict] answers, by the three ways it can go. *)
Lemma predict_cases (satelliteId : string) (latitude longitude : number)
    (w : World) :
  (exists e w1,
      fetchTLE env satelliteId w = (Raised e, w1)
      /\ predict env satelliteId latitude longitude w = (Raised e, w1))
  \/ (exists found w1,
         fetchTLE env satelliteId w = (Returned found, w1)
         /\ satellite.twoline2satrec (TLE.line1 found) (TLE.line2 found) = None
         /\ predict env satelliteId latitude longitude w =
            (Returned (error_response 400 "Error parsing TLE data"), w1))
  \/ (exists found w1 satrec passes w2,
         fetchTLE env satelliteId w = (Returned found, w1)
         /\ satellite.twoline2satrec (TLE.line1 found) (TLE.line2 found)
            = Some satrec
         /\ predict env satelliteId latitude longitude w =
            (Returned {| status := 200; body := PassesBody passes |}, w2)
         /\ console w2 = console w1 ++ ["Starting pass calculation with:"]
         /\ clockReads w2 = S (clockReads w1)
         /\ requests w2 = requests w1).
Proof.
  unfold predict, bind.
  destruct (fetchTLE env satelliteId w) as [[found|e] w1] eqn:Hfetch.
  - destruct (satellite.twoline2satrec (TLE.line1 found) (TLE.line2 found))
      as [satrec|] eqn:Hsat.
    + right. right. unfold Date_now, run_calculatePasses, bind, console_log, ret.
      simpl. do 5 eexists. split; [reflexivity|]. split; [exact Hsat|].
      split; [reflexivity|]. simpl. auto.
    + right. left. exists found, w1. auto.
  - left. exists e, w1. auto.
Qed.

(** A run of [fetchTLE] and a run of [calculatePasses] each change the
    world. *)
Lemma fetchTLE_changes_world (w w' : World) (satelliteId : string)
    (r : Outcome TLEData) :
  fetchTLE env satelliteId w = (r, w') -> w' <> w.
Proof.
  intros H. apply fetchTLE_trace in H as [H _]. intros ->. lia.
Qed.

Lemma run_calculatePasses_changes_world (w w' : World)
    (satrec : satellite.SatRec) (observer : Observer) (startT endT : Date)
    (r : Outcome (list SatellitePass)) :
  run_calculatePasses satrec observer startT endT w = (r, w') -> w' <> w.
Proof.
  unfold run_calculatePasses, bind, console_log, ret. intros [= _ <-] H.
  apply (f_equal console) in H. simpl in H.
  apply (f_equal (@length string)) in H. rewrite length_app in H.
  simpl in H. lia.
Qed.

(** C8. A request with its three parameters present whose latitude parses
    to a number outside -90..90, or whose longitude parses to a number
    outside -180..180, is answered 400 "Invalid coordinates", and the world
    is left untouched: the clock is not read, nothing is requested and
    nothing is logged, so that neither [fetchTLE] nor [calculatePasses] has
    run (each of them changes the world, by the two lemmas above).  The
    latitude "91" is such a case. *)
Theorem invalid_coordinates_rejected (w : World) :
  (forall req : LocationRequest,
      parameters_present req = true ->
      outside (-90) 90 (parseFloat (ToString (Req.lat req))) = true
      \/ outside (-180) 180 (parseFloat (ToString (Req.lng req))) = true ->
      passesPrediction env req w =
      (Returned (error_response 400 "Invalid coordinates"), w))
  /\ (forall satelliteId lng : string,
         satelliteId <> EmptyString -> lng <> EmptyString ->
         passesPrediction env
           {| Req.satelliteId := Some satelliteId;
              Req.lat := Some "91";
              Req.lng := Some lng |} w =
         (Returned (error_response 400 "Invalid coordinates"), w)).
Proof.
  assert (Hgen : forall req : LocationRequest,
             parameters_present req = true ->
             outside (-90) 90 (parseFloat (ToString (Req.lat req))) = true
             \/ outside (-180) 180 (parseFloat (ToString (Req.lng req))) = true ->
             passesPrediction env req w =
             (Returned (error_response 400 "Invalid coordinates"), w)).
  { intros req Hp Hout. unfold parameters_present in Hp.
    apply andb_prop in Hp as [Hp H3]. apply andb_prop in Hp as [H1 H2].
    assert (Hrej : coordinates_rejected
                     (parseFloat (ToString (Req.lat req)))
                     (parseFloat (ToString (Req.lng req))) = true).
    { unfold coordinates_rejected. unfold outside in Hout.
      destruct Hout as [Hout|Hout]; apply orb_prop in Hout as [Hout|Hout];
        rewrite Hout; rewrite ?orb_true_r; reflexivity. }
    unfold passesPrediction, try_catch. simpl.
    now rewrite H1, H2, H3, Hrej. }
  split; [exact Hgen|].
  intros satelliteId lng Hid Hlng. apply Hgen.
  - unfold parameters_present. simpl.
    destruct satelliteId; [congruence|]. destruct lng; [congruence|].
    reflexivity.
  - left. vm_compute. reflexivity.
Qed.

(** C9. The request with the latitude "abc" is not rejected by the range
    check: "abc" parses to [NaN], the four comparisons are false, and the
    handler goes on to [fetchTLE] and, when an element set comes back and
    compiles, to [calculatePasses].  Its answer is never "Invalid
    coordinates". *)
Theorem non_numeric_latitude_not_rejected (w : World) :
  let req := {| Req.satelliteId := Some "25544";
                Req.lat := Some "abc";
                Req.lng := Some "-122.4194" |} in
  parseFloat "abc" = NaN
  /\ coordinates_rejected (parseFloat "abc") (parseFloat "-122.4194") = false
  /\ passesPrediction env req w =
     try_catch (predict env "25544" NaN (parseFloat "-122.4194"))
               report_failure w
  /\ (forall r w',
         passesPrediction env req w = (r, w') ->
         r <> Returned (error_response 400 "Invalid coordinates")
         /\ ((clockReads w < clockReads w')%nat
             \/ (length (requests w) < length (requests w'))%nat))
  /\ (forall found w1 satrec,
         fetchTLE env "25544" w = (Returned found, w1) ->
         satellite.twoline2satrec (TLE.line1 found) (TLE.line2 found)
         = Some satrec ->
         exists passes w2,
           passesPrediction env req w =
           (Returned {| status := 200; body := PassesBody passes |}, w2)
           /\ console w2 = console w1 ++ ["Starting pass calculation with:"]).
Proof.
  intros req.
  assert (Hacc : passesPrediction env req w =
                 try_catch (predict env "25544" NaN (parseFloat "-122.4194"))
                           report_failure w)
    by (apply passesPrediction_accepted; reflexivity).
  split; [reflexivity|]. split; [vm_compute; reflexivity|].
  split; [exact Hacc|].
  rewrite Hacc. unfold try_catch.
  destruct (predict_cases "25544" NaN (parseFloat "-122.4194") w)
    as [(e & w1 & Hf & ->)
       |[(found & w1 & Hf & Hsat & ->)
        |(found & w1 & satrec & passes & w2 & Hf & Hsat & -> & Hcon & Hclk & Hreq)]];
    apply fetchTLE_trace in Hf as Htrace; destruct Htrace as (Ht & Hc & Hr).
  - split.
    + intros r w'. destruct e; simpl; intros [= <- <-]; simpl;
        (split; [discriminate|exact Ht]).
    + intros found w1' satrec Hf' _. congruence.
  - split.
    + intros r w' [= <- <-]. split; [discriminate|exact Ht].
    + intros found' w1' satrec Hf' Hsat'.
      rewrite Hf in Hf'. injection Hf' as <- <-. congruence.
  - split.
    + intros r w' [= <- <-]. split; [discriminate|].
      rewrite Hclk, Hreq. lia.
    + intros found' w1' satrec' Hf' Hsat'.
      rewrite Hf in Hf'. injection Hf' as <- <-.
      exists passes, w2. auto.
Qed.

End Handler.

(** ** The definitions on small inputs *)

Example parseFloat_91 : parseFloat "91" = Fin 91.
Proof. vm_compute. reflexivity. Qed.

Example parseFloat_abc : parseFloat "abc" = NaN.
Proof. reflexivity. Qed.

Example parseFloat_prefix : parseFloat "  -12.5e1xyz" = Fin (-125).
Proof. vm_compute. reflexivity. Qed.

Example parseFloat_Infinity : parseFloat "-Infinity" = Inf true.
Proof. reflexivity. Qed.

(** The decimal is rounded to the nearest double: a latitude that exceeds
    90 by less than half the distance to the next double is 90. *)
Example parseFloat_rounds : parseFloat "90.00000000000000001" = Fin 90.
Proof. vm_compute. reflexivity. Qed.

Example parseFloat_tenth :
  parseFloat "0.1" = Fin (3602879701896397 # 36028797018963968).
Proof. vm_compute. reflexivity. Qed.

Example parseFloat_ties_to_even :
  parseFloat "9007199254740993" = Fin 9007199254740992
  /\ parseFloat "9007199254740995" = Fin 9007199254740996.
Proof. split; vm_compute; reflexivity. Qed.

Example parseFloat_overflow :
  parseFloat "1.7976931348623158e308"
  = parseFloat "1.7976931348623157e308"
  /\ parseFloat "1.7976931348623159e308" = Infinity
  /\ parseFloat "-1e400" = Inf true
  /\ parseFloat "1e-400" = Fin 0.
Proof. split_and!; vm_compute; reflexivity. Qed.

(** White space beyond the first 128 characters is skipped as well: a
    no-break space (U+00A0) before the digits. *)
Example parseFloat_no_break_space :
  parseFloat (no_break_space +:+ "91") = Fin 91.
Proof. vm_compute. reflexivity. Qed.

Example trim_no_break_space :
  trim (no_break_space +:+ " 1 25544U " +:+ no_break_space) = "1 25544U".
Proof. vm_compute. reflexivity. Qed.

Example split_three : split newline iss_text
  = [TLE.name iss_tle; TLE.line1 iss_tle; TLE.line2 iss_tle].
Proof. reflexivity. Qed.

Example split_one : split newline "No GP data found" = ["No GP data found"].
Proof. reflexivity. Qed.

Example trim_both : trim "  1 25544U  " = "1 25544U".
Proof. reflexivity. Qed.

Example NaN_comparisons :
  coordinates_rejected NaN NaN = false /\ num_le NaN NaN = false.
Proof. split; reflexivity. Qed.

Example remainder_sign :
  num_is (num_rem (Fin (-7)) (Fin 4)) (-3) /\ num_is (num_rem (Fin 7) (Fin 4)) 3.
Proof. split; reflexivity. Qed.

Example round_half : Math_round (Fin (5 # 2)) = Fin 3
  /\ Math_round (Fin (- 5 # 2)) = Fin (-2).
Proof. split; reflexivity. Qed.

(** ** The properties at work on the stubs *)

Lemma stub_lib_sample (T0 : Date) (samples : list (option (number * number)))
    (observer : Observer) (date : Date) (el raw : number) :
  @sample (stub_lib T0 samples) tt observer date = Some (el, raw) ->
  Some (el, raw) ∈ samples.
Proof.
  unfold sample. simpl.
  destruct (samples !! Z.to_nat ((date - T0) / 60000)) as [[[e a]|]|] eqn:H;
    try discriminate.
  intros [= <- <-]. eapply list_elem_of_lookup_2; eauto.
Qed.

Lemma stub_lib_beyond (T0 : Date) (samples : list (option (number * number)))
    (observer : Observer) (k : Z) :
  Z.of_nat (length samples) <= k ->
  @visible (stub_lib T0 samples) tt observer (T0 + 60000 * k) = false.
Proof.
  intros Hk. unfold visible, sample. simpl.
  replace ((T0 + 60000 * k - T0) / 60000) with k
    by (replace (T0 + 60000 * k - T0) with (k * 60000) by lia;
        now rewrite Z.div_mul).
  rewrite (proj2 (lookup_ge_None samples (Z.to_nat k))) by lia.
  reflexivity.
Qed.

Lemma stub_lib_converts (T0 : Date) (samples : list (option (number * number))) :
  @converts_to_degrees (stub_lib T0 samples).
Proof. intros q _. simpl. reflexivity. Qed.

(** The end-to-end case on the stub of the test, over a window of 24 hours
    in a zone without clock changes. *)
Lemma steady_single_pass_utc :
  exists p,
    @calculatePasses stub_six utc_zone tt origin 1700000000000
                     (1700000000000 + 86400000) = [p]
    /\ Pass.startTime p = 1700000000000 + 2 * 60000
    /\ Pass.endTime p = 1700000000000 + 5 * 60000
    /\ Pass.maxElevation p = Fin 20
    /\ num_is (Pass.duration p) 180.
Proof.
  apply (@steady_single_pass stub_six utc_zone tt origin).
  - apply fixed_zone_steady.
  - intros k el Hk.
    do 6 (destruct k as [|k];
          [injection Hk as <-; eexists; vm_compute; reflexivity|]).
    discriminate Hk.
  - lia.
  - intros k Hk _. apply stub_lib_beyond. simpl. lia.
Qed.

(** C2 fails for a raw azimuth below minus pi.  At -9 radians the remainder
    keeps the sign of its dividend: the first wrap gives -9 again, which is
    below minus pi, the normalized azimuth is about -155.66 degrees, and a
    pass comes back with that start and end azimuth. *)
Lemma azimuth_below_minus_pi_not_normalized :
  (exists w, wrapAzimuth (Fin (-9)) = Fin w /\ (w < - Math_PI)%Q)
  /\ ~ num_in 0 360 (@normalizeAzimuth stub_minus_nine (Fin (-9)))
  /\ exists p,
       @calculatePasses stub_minus_nine utc_zone tt origin 0 60000 = [p]
       /\ ~ num_in 0 360 (Pass.startAz p)
       /\ ~ num_in 0 360 (Pass.endAz p).
Proof.
  split; [|split].
  - eexists. split; [vm_compute; reflexivity|]. reflexivity.
  - intros [H _]. vm_compute in H. now apply H.
  - eexists. split; [vm_compute; reflexivity|].
    split; intros [H _]; vm_compute in H; now apply H.
Qed.

(** C2 as amended, on a stub whose raw azimuths are 1 and 4 radians. *)
Lemma azimuth_normalized_from_minus_pi_witness :
  (forall r : Q,
      (- Math_PI <= r)%Q ->
      (exists w, wrapAzimuth (Fin r) = Fin w
                 /\ (- Math_PI <= w /\ w < Math_PI)%Q)
      /\ num_in 0 360 (@normalizeAzimuth stub_one_four (Fin r)))
  /\ (forall p,
         p ∈ @calculatePasses stub_one_four utc_zone tt origin 0 60000 ->
         num_in 0 360 (Pass.startAz p) /\ num_in 0 360 (Pass.endAz p)).
Proof.
  apply (@azimuth_normalized_from_minus_pi stub_one_four utc_zone tt origin 0
           60000).
  - apply stub_lib_converts.
  - intros date el raw Hs. apply stub_lib_sample in Hs.
    apply list_elem_of_In in Hs. simpl in Hs.
    destruct Hs as [[= <- <-]|[[= <- <-]|[]]]; eexists; (split; [reflexivity|]);
      vm_compute; discriminate.
Defined.

(** C4 on a stub whose second sample fails, with a pass in progress. *)
Lemma skipped_sample_preserves_state_witness :
  let st : WalkState :=
    ([], Some {| pendingStartTime := 0;
                 pendingStartAz := Fin 0;
                 pendingMaxElevation := Fin 15 |}) in
  @loop_body stub_gap tt origin 60000 st = st
  /\ @for_loop stub_gap utc_zone tt origin 120000 60000 st
     = @for_loop stub_gap utc_zone tt origin 120000
                 (@next_minute utc_zone 60000) st.
Proof.
  apply (@skipped_sample_preserves_state stub_gap utc_zone tt origin).
  - reflexivity.
  - lia.
Defined.

(** C10 on the pass that the stub with a gap yields. *)
Lemma calculatePasses_peak_witness :
  let p := {| Pass.startTime := 0;
              Pass.endTime := 120000;
              Pass.maxElevation := Fin 15;
              Pass.startAz := @normalizeAzimuth stub_gap (Fin 0);
              Pass.endAz := @normalizeAzimuth stub_gap (Fin 0);
              Pass.duration := num_div (of_Z 120000) (Fin 1000) |} in
  num_gt (Pass.maxElevation p) (Fin 10) = true
  /\ exists el raw,
       @sample stub_gap tt origin (Pass.startTime p) = Some (el, raw)
       /\ num_ge (Pass.maxElevation p) el = true.
Proof.
  apply (@calculatePasses_peak stub_gap utc_zone tt origin 0 120000).
  vm_compute. constructor.
Defined.


(** The same window by evaluation: nothing is returned, the pass that
    started at the third sample is still open. *)
Example open_pass_at_window_end_example :
  @calculatePasses stub_six utc_zone tt origin 1700000000000 (1700000000000 + 240000)
  = []
  /\ pendingStartTime
       <$> snd (@walk stub_six utc_zone tt origin 1700000000000
                      (1700000000000 + 240000))
     = Some (1700000000000 + 120000).
Proof. split; vm_compute; reflexivity. Qed.

(** C5 on an entry that is one millisecond short of 24 hours old. *)
Lemma fetchTLE_cache_hit_witness :
  exists w',
    fetchTLE (stub_env "") "25544" (cached_world (1700000000000 - 86399999))
    = (Returned iss_tle, w')
    /\ requests w' = []
    /\ tleCache w' = tleCache (cached_world (1700000000000 - 86399999)).
Proof.
  apply (fetchTLE_cache_hit (stub_env "")
           (cached_world (1700000000000 - 86399999)) "25544"
           {| tle := iss_tle; timestamp := 1700000000000 - 86399999 |}).
  - apply lookup_singleton_eq.
  - reflexivity.
Defined.

(** C6 on the one-line answer of the remote source to an unknown
    identifier, from an empty cache. *)
Lemma fetchTLE_failure_not_cached_witness :
  exists w',
    fetchTLE (stub_env "No GP data found") "25544" empty_world =
      (Raised (ErrorObject "Error"
                 ("Failed to fetch TLE data: " +:+ String_of TypeError_trim)),
       w')
    /\ tleCache w' = ∅
    /\ requests w' = [tle_url "25544"].
Proof.
  apply (fetchTLE_failure_not_cached (stub_env "No GP data found")
           empty_world "25544" TypeError_trim).
  - left. apply lookup_empty.
  - reflexivity.
Defined.

(** C6 fails on a response cut short after its second line: the text
    splits into three pieces, the third one empty, nothing is thrown, and an
    element set without its second line is returned and stored. *)
Lemma partial_element_set_cached :
  exists w',
    fetchTLE (stub_env partial_text) "25544" empty_world
    = (Returned partial_tle, w')
    /\ TLE.line2 partial_tle = EmptyString
    /\ tleCache w' !! "25544"
       = Some {| tle := partial_tle; timestamp := 1700000000000 |}
    /\ failure_cause (remote (stub_env partial_text) (tle_url "25544")) = None
    /\ ~ (exists e w'',
            fetchTLE (stub_env partial_text) "25544" empty_world
            = (Raised e, w'')
            /\ tleCache w'' = tleCache empty_world).
Proof.
  eexists. split; [vm_compute; reflexivity|].
  split; [reflexivity|]. split; [vm_compute; reflexivity|].
  split; [reflexivity|].
  intros (e & w'' & H & _). vm_compute in H. discriminate H.
Qed.

(** C8 on the request of the integration test. *)
Lemma invalid_coordinates_rejected_witness :
  @passesPrediction stub_six utc_zone (stub_env iss_text)
    {| Req.satelliteId := Some "25544";
       Req.lat := Some "91";
       Req.lng := Some "180" |} empty_world
  = (Returned (error_response 400 "Invalid coordinates"), empty_world).
Proof.
  apply (proj1 (@invalid_coordinates_rejected stub_six utc_zone
                  (stub_env iss_text) empty_world)).
  - reflexivity.
  - left. vm_compute. reflexivity.
Defined.

(** A latitude written with more digits than a double holds is the double
    it rounds to: this one is 90 and the request is not rejected. *)
Example rounded_latitude_accepted :
  coordinates_rejected (parseFloat "90.00000000000000001") (parseFloat "180")
  = false
  /\ exists passes w',
       @passesPrediction stub_six utc_zone (stub_env iss_text)
         {| Req.satelliteId := Some "25544";
            Req.lat := Some "90.00000000000000001";
            Req.lng := Some "180" |} empty_world
       = (Returned {| status := 200; body := PassesBody passes |}, w').
Proof.
  split; [vm_compute; reflexivity|].
  eexists. eexists. vm_compute. reflexivity.
Qed.

(** A latitude that follows a no-break space is read all the same, and
    rejected when it is outside the range. *)
Example no_break_space_latitude_rejected :
  @passesPrediction stub_six utc_zone (stub_env iss_text)
    {| Req.satelliteId := Some "25544";
       Req.lat := Some (no_break_space +:+ "91");
       Req.lng := Some "180" |} empty_world
  = (Returned (error_response 400 "Invalid coordinates"), empty_world).
Proof. vm_compute. reflexivity. Qed.

(** C9 with a network that delivers the element set: the request with the
    latitude "abc" is answered 200 after one remote request and one run of
    [calculatePasses]. *)
Lemma non_numeric_latitude_not_rejected_witness :
  exists passes w2,
    @passesPrediction stub_six utc_zone (stub_env iss_text)
      {| Req.satelliteId := Some "25544";
         Req.lat := Some "abc";
         Req.lng := Some "-122.4194" |} empty_world
    = (Returned {| status := 200; body := PassesBody passes |}, w2)
    /\ requests w2 = [tle_url "25544"]
    /\ console w2 = ["Starting pass calculation with:"].
Proof.
  destruct (proj2 (proj2 (proj2 (proj2
             (@non_numeric_latitude_not_rejected stub_six utc_zone
                (stub_env iss_text) empty_world))))
             iss_tle
             {| tleCache :=
                  <["25544" := {| tle := iss_tle; timestamp := 1700000000000 |}]> ∅;
                clockReads := 1;
                requests := [tle_url "25544"];
                console := [] |}
             tt)
    as (passes & w2 & Hrun & Hcon).
  - reflexivity.
  - reflexivity.
  - exists passes, w2. split; [exact Hrun|]. split; [|exact Hcon].
    apply (f_equal snd) in Hrun. cbn [snd] in Hrun. rewrite <- Hrun.
    vm_compute. reflexivity.
Defined.


(** ** The walk where the clocks go back *)

(** The update of the loop in New York on 2024-11-03: from 01:58 EDT it
    reaches 01:59 EDT, from 01:59 EDT it reaches 02:00 EST, 61 minutes
    later, and from 01:30 EST it reaches 01:31 EDT, 59 minutes earlier. *)
Example next_minute_new_york :
  @next_minute new_york_2024 1730613480000 = 1730613480000 + 60000
  /\ @next_minute new_york_2024 1730613540000 = 1730613540000 + 61 * 60000
  /\ @next_minute new_york_2024 1730615400000 = 1730615400000 - 59 * 60000.
Proof. split_and!; vm_compute; reflexivity. Qed.

(** C1 on the code, where the clocks go back inside the window.  In New
    York, with [T0] at 2024-11-03T05:58:00Z, the samples at [T0],
    [T0 + 1 min], ..., [T0 + 5 min] have the elevations 5, 5, 15, 20, 15, 5
    and no later sample is visible; the walk visits [T0] and [T0 + 1 min]
    and then leaves out the 61 minutes that follow, and [calculatePasses]
    returns no pass, over the six samples and over 24 hours. *)
Theorem single_pass_lost_when_clocks_go_back :
  let T0 := 1730613480000 in
  (forall (k : nat) (el : Q),
      [5; 5; 15; 20; 15; 5]%Q !! k = Some el ->
      exists raw,
        @sample stub_six_autumn tt origin (T0 + 60000 * Z.of_nat k)
        = Some (Fin el, raw))
  /\ (forall k, 6 <= k ->
                @visible stub_six_autumn tt origin (T0 + 60000 * k) = false)
  /\ @visits new_york_2024 T0 (T0 + 5 * 60000) = [T0; T0 + 60000]
  /\ @calculatePasses stub_six_autumn new_york_2024 tt origin
                      T0 (T0 + 5 * 60000) = []
  /\ @calculatePasses stub_six_autumn new_york_2024 tt origin
                      T0 (T0 + 86400000) = [].
Proof.
  cbv zeta. split_and!.
  - intros k el Hk.
    do 6 (destruct k as [|k];
          [injection Hk as <-; eexists; vm_compute; reflexivity|]).
    discriminate Hk.
  - intros k Hk. apply stub_lib_beyond. simpl. lia.
  - vm_compute. reflexivity.
  - vm_compute. reflexivity.
  - vm_compute. reflexivity.
Qed.

(** C7 on the code, where the walk starts inside the hour that the clocks
    repeat.  In New York, over the 24 hours from 2024-11-03T06:30:00Z (01:30
    EST), the first update of the loop goes to 01:31 EDT, 59 minutes
    earlier: the sample at the start is visible, the one visited next is
    not, and the pass that [calculatePasses] returns ends 59 minutes before
    it starts and lasts -3540 seconds. *)
Theorem pass_ends_before_it_starts_in_repeated_hour :
  let startT := 1730615400000 in
  let endT := startT + 86400000 in
  startT <= endT
  /\ exists p,
       @calculatePasses stub_repeated_hour new_york_2024 tt origin startT endT
       = [p]
       /\ Pass.startTime p = startT
       /\ Pass.endTime p = startT - 59 * 60000
       /\ Pass.endTime p < Pass.startTime p
       /\ num_is (Pass.duration p) (-3540).
Proof.
  cbv zeta. split; [lia|].
  eexists. split; [vm_compute; reflexivity|].
  split_and!; vm_compute; reflexivity.
Qed.

(** The same two walks in a zone without clock changes: one pass of 180
    seconds, and no pass, the one that the sample at the start opens being
    closed by no later sample. *)
Example walks_without_clock_change :
  (exists p,
      @calculatePasses stub_six_autumn utc_zone tt origin
                       1730613480000 (1730613480000 + 86400000) = [p]
      /\ Pass.startTime p = 1730613480000 + 2 * 60000
      /\ Pass.endTime p = 1730613480000 + 5 * 60000)
  /\ @calculatePasses stub_repeated_hour utc_zone tt origin
                      1730615400000 (1730615400000 + 86400000) = [].
Proof.
  split.
  - eexists. split; [vm_compute; reflexivity|]. split; reflexivity.
  - vm_compute. reflexivity.
Qed.

(** * Further properties *)

(** ** The passes against the samples *)

Lemma num_not_gt_ge (a b : number) :
  num_gt a (Fin 10) = true -> num_gt b (Fin 10) = true ->
  num_gt a b = false -> num_ge b a = true.
Proof.
  intros Ha Hb.
  apply num_gt_Fin in Ha as [->|(p & -> & Hp)];
    apply num_gt_Fin in Hb as [->|(q & -> & Hq)];
    unfold num_gt, num_ge, num_lt, num_le; cbn -[Qcompare];
    try reflexivity; try discriminate.
  destruct (Qcompare_spec q p); try discriminate; intros _;
    destruct (Qcompare_spec p q); try reflexivity; exfalso; lra.
Qed.

Lemma inside_next (start date d : Date) :
  (exists m : Z, 0 <= m /\ date = start + 60000 * m) ->
  inside start (date + 60000) d -> inside start date d \/ d = date.
Proof.
  intros (m & Hm & ->) (j & Hj & -> & Hlt).
  destruct (decide (j = m)) as [->|Hne]; [right; reflexivity|].
  left. exists j. split_and!; auto; lia.
Qed.

Lemma inside_weaken (start date d : Date) :
  inside start date d -> inside start (date + 60000) d.
Proof. intros (j & Hj & -> & Hlt). exists j. split_and!; auto; lia. Qed.

Section FullInvariant.
Context {lib : satellite.Lib} {tz : TimeZone}.
Variables (satrec : satellite.SatRec) (observer : Observer).

Lemma stretch_peak_visible (start stop : Date) (peak : number) :
  stretch_ok satrec observer start stop peak -> num_gt peak (Fin 10) = true.
Proof.
  intros (Hbelow & _ & d & raw & Hd & Hs).
  specialize (Hbelow d Hd). unfold below in Hbelow. rewrite Hs in Hbelow.
  now apply negb_false_iff in Hbelow.
Qed.

(** A stretch grows by a skipped sample. *)
Lemma stretch_skip (start date : Date) (peak : number) :
  (exists m : Z, 0 <= m /\ date = start + 60000 * m) ->
  sample satrec observer date = None ->
  stretch_ok satrec observer start date peak ->
  stretch_ok satrec observer start (date + 60000) peak.
Proof.
  intros Hgrid Hs (Hbelow & Hmax & d0 & raw0 & Hd0 & Hs0). split_and!.
  - intros d Hd. destruct (inside_next _ _ _ Hgrid Hd) as [Hold| ->]; auto.
    unfold below. now rewrite Hs.
  - intros d el raw Hd Hsd.
    destruct (inside_next _ _ _ Hgrid Hd) as [Hold| ->]; eauto. congruence.
  - exists d0, raw0. split; [now apply inside_weaken|assumption].
Qed.

(** A stretch grows by a visible sample, with the greater of the two
    elevations as its peak. *)
Lemma stretch_visible (start date : Date) (peak el raw : number) :
  (exists m : Z, 0 <= m /\ date = start + 60000 * m) ->
  sample satrec observer date = Some (el, raw) ->
  num_gt el (Fin 10) = true ->
  stretch_ok satrec observer start date peak ->
  stretch_ok satrec observer start (date + 60000)
             (if num_gt el peak then el else peak).
Proof.
  intros Hgrid Hs Hvis Hstretch.
  pose proof (stretch_peak_visible _ _ _ Hstretch) as Hpeak.
  destruct Hstretch as (Hbelow & Hmax & d0 & raw0 & Hd0 & Hs0).
  assert (Hin : inside start (date + 60000) date).
  { destruct Hgrid as (m & Hm & ->). exists m. split_and!; auto; lia. }
  destruct (num_gt el peak) eqn:Hcmp; split_and!.
  - intros d Hd. destruct (inside_next _ _ _ Hgrid Hd) as [Hold| ->]; auto.
    unfold below. now rewrite Hs, Hvis.
  - intros d el' raw' Hd Hsd.
    destruct (inside_next _ _ _ Hgrid Hd) as [Hold| ->].
    + eapply num_gt_ge_trans; eauto.
    + rewrite Hs in Hsd. injection Hsd as <- <-. now apply num_ge_refl.
  - exists date, raw. auto.
  - intros d Hd. destruct (inside_next _ _ _ Hgrid Hd) as [Hold| ->]; auto.
    unfold below. now rewrite Hs, Hvis.
  - intros d el' raw' Hd Hsd.
    destruct (inside_next _ _ _ Hgrid Hd) as [Hold| ->]; eauto.
    rewrite Hs in Hsd. injection Hsd as <- <-. now apply num_not_gt_ge.
  - exists d0, raw0. split; [now apply inside_weaken|assumption].
Qed.

(** A stretch of one visible sample. *)
Lemma stretch_first (date : Date) (el raw : number) :
  sample satrec observer date = Some (el, raw) ->
  num_gt el (Fin 10) = true ->
  stretch_ok satrec observer date (date + 60000) el.
Proof.
  intros Hs Hvis.
  assert (Hone : forall d, inside date (date + 60000) d -> d = date).
  { intros d (j & Hj & -> & Hlt). lia. }
  split_and!.
  - intros d Hd. rewrite (Hone d Hd). unfold below. now rewrite Hs, Hvis.
  - intros d el' raw' Hd Hsd. rewrite (Hone d Hd) in Hsd.
    rewrite Hs in Hsd. injection Hsd as <- <-. now apply num_ge_refl.
  - exists date, raw. split; [|assumption]. exists 0. split_and!; lia.
Qed.

Lemma walk_inv_full_init (startT : Date) :
  walk_inv_full satrec observer startT startT ([], None).
Proof.
  unfold walk_inv_full; simpl. split_and!; auto.
  - exists 0. simpl. lia.
  - intros d (j & Hj & -> & Hlt). lia.
Qed.

Lemma covered_same_start (passes : list SatellitePass) (c c' : PendingPass)
    (d : Date) :
  pendingStartTime c' = pendingStartTime c ->
  covered (passes, Some c) d -> covered (passes, Some c') d.
Proof.
  intros Heq [Hp|(cur & [= <-] & Hle)]; [left; exact Hp|].
  right. exists c'. split; [reflexivity|]. rewrite Heq. exact Hle.
Qed.

Lemma covered_opened (passes : list SatellitePass) (c : PendingPass) (d : Date) :
  covered (passes, None) d -> covered (passes, Some c) d.
Proof.
  intros [Hp|(cur & Hcur & _)]; [left; exact Hp|discriminate Hcur].
Qed.

Lemma covered_closed (passes : list SatellitePass) (c : PendingPass)
    (p : SatellitePass) (d : Date) :
  Pass.startTime p = pendingStartTime c -> d < Pass.endTime p ->
  covered (passes, Some c) d -> covered (passes ++ [p], None) d.
Proof.
  intros Hstart Hend [(q & Hq & Hd)|(cur & [= <-] & Hle)]; left.
  - exists q. split; [|exact Hd]. apply elem_of_app. now left.
  - exists p. split; [|lia]. apply elem_of_app. right. constructor.
Qed.

Lemma walk_inv_full_step (startT date : Date) (st : WalkState) :
  walk_inv_full satrec observer startT date st ->
  walk_inv_full satrec observer startT (date + 60000)
                (loop_body satrec observer date st).
Proof.
  intros ((k & Hk & Hdate & Hcount) & Hpasses & Hcur & Hcov).
  assert (Hgrid : exists m : Z, 0 <= m /\ date = startT + 60000 * m)
    by (exists k; auto).
  rewrite loop_body_sample.
  destruct (sample satrec observer date) as [[el raw]|] eqn:Hs.
  2:{ (* skipped *)
    unfold walk_inv_full. split_and!; auto.
    - exists (k + 1). split_and!; lia.
    - destruct (snd st) as [cur|]; [|exact I].
      destruct Hcur as (Hstretch & Haz & (j & Hj & Hstart) & Hlt).
      split_and!; eauto; [|lia].
      apply stretch_skip; auto. exists (k - j). lia.
    - intros d Hd Hvis.
      destruct (inside_next _ _ _ Hgrid Hd) as [Hold| ->]; auto.
      unfold visible in Hvis. rewrite Hs in Hvis. discriminate. }
  assert (Haz_now : azimuth_at satrec observer date
                    = Some (normalizeAzimuth raw))
    by (unfold azimuth_at; now rewrite Hs).
  destruct st as [passes cur]. cbn [fst snd] in *.
  destruct (num_gt el (Fin 10)) eqn:Hvis.
  - (* visible *)
    destruct cur as [c|]; cbn [open_count] in *.
    + destruct Hcur as (Hstretch & Haz & (j & Hj & Hstart) & Hlt).
      pose proof (stretch_peak_visible _ _ _ Hstretch) as Hpeak.
      assert (Hc : exists m : Z, 0 <= m /\ date = pendingStartTime c + 60000 * m)
        by (exists (k - j); lia).
      pose proof (stretch_visible _ _ _ _ _ Hc Hs Hvis Hstretch) as Hnext.
      assert (Hcov' : forall c' : PendingPass,
                 pendingStartTime c' = pendingStartTime c ->
                 forall d, inside startT (date + 60000) d ->
                           visible satrec observer d = true ->
                           covered (passes, Some c') d).
      { intros c' Hc' d Hd Hv.
        destruct (inside_next _ _ _ Hgrid Hd) as [Hold| ->].
        - eapply covered_same_start; eauto.
        - right. exists c'. split; [reflexivity|]. rewrite Hc'. lia. }
      destruct (num_gt el (pendingMaxElevation c)) eqn:Hcmp.
      * rewrite update_pass_raise
          by (auto; rewrite (num_or_peak _ Hpeak); exact Hcmp).
        unfold walk_inv_full; cbn [fst snd open_count pendingStartTime
                                   pendingStartAz pendingMaxElevation].
        split_and!; eauto; try lia;
          try (exists (k + 1); split_and!; lia);
          try (intros d Hd Hv; now apply Hcov').
      * rewrite update_pass_keep
          by (auto; rewrite (num_or_peak _ Hpeak); exact Hcmp).
        unfold walk_inv_full; cbn [fst snd open_count].
        split_and!; eauto; try lia;
          try (exists (k + 1); split_and!; lia);
          try (intros d Hd Hv; now apply Hcov').
    + rewrite update_pass_open by exact Hvis.
      unfold walk_inv_full; cbn [fst snd open_count pendingStartTime
                                 pendingStartAz pendingMaxElevation].
      split_and!; eauto; try lia.
      * exists (k + 1). split_and!; lia.
      * now apply stretch_first with raw.
      * intros d Hd Hv.
        destruct (inside_next _ _ _ Hgrid Hd) as [Hold| ->].
        -- apply covered_opened. auto.
        -- right. eexists. split; [reflexivity|]. simpl. lia.
  - (* not visible *)
    assert (Hnot : forall d, inside startT (date + 60000) d ->
                             visible satrec observer d = true ->
                             inside startT date d).
    { intros d Hd Hv. destruct (inside_next _ _ _ Hgrid Hd) as [Hold| ->]; auto.
      unfold visible in Hv. rewrite Hs, Hvis in Hv. discriminate. }
    destruct cur as [c|]; cbn [open_count] in *.
    + destruct Hcur as (Hstretch & Haz & (j & Hj & Hstart) & Hlt).
      rewrite update_pass_close by exact Hvis.
      unfold walk_inv_full; cbn [fst snd open_count].
      split_and!; auto.
      * exists (k + 1). rewrite length_app. simpl. split_and!; lia.
      * apply Forall_app. split; [assumption|]. constructor; [|constructor].
        unfold pass_exact; simpl. auto.
      * intros d Hd Hv. specialize (Hnot d Hd Hv).
        eapply covered_closed; eauto; simpl.
        destruct Hnot as (i & _ & -> & Hlt'). lia.
    + rewrite update_pass_idle by exact Hvis.
      unfold walk_inv_full; cbn [fst snd open_count].
      split_and!; auto.
      exists (k + 1). split_and!; lia.
Qed.

Lemma walk_inv_full_final (startT endT : Date) :
  steady startT endT ->
  exists date,
    endT < date
    /\ walk_inv_full satrec observer startT date
                     (walk satrec observer startT endT).
Proof.
  intros Hsteady. unfold walk.
  apply (for_loop_invariant satrec observer
           (walk_inv_full satrec observer startT)).
  - intros date st Hle Hinv.
    assert (Hnext : next_minute date = date + 60000).
    { destruct Hinv as ((k & Hk & -> & _) & _). now apply Hsteady. }
    rewrite Hnext. now apply walk_inv_full_step.
  - apply walk_inv_full_init.
Qed.

End FullInvariant.

Section PassExtras.
Context {lib : satellite.Lib} {tz : TimeZone}.
Variables (satrec : satellite.SatRec) (observer : Observer).

(** The two invariants at the same exit of the loop of a steady walk. *)
Lemma walk_inv_both_final (startT endT : Date) :
  steady startT endT ->
  exists date,
    endT < date
    /\ walk_inv satrec observer startT endT date
                (walk satrec observer startT endT)
    /\ walk_inv_full satrec observer startT date
                     (walk satrec observer startT endT).
Proof.
  intros Hsteady. unfold walk.
  apply (for_loop_invariant satrec observer
           (fun d st => walk_inv satrec observer startT endT d st
                        /\ walk_inv_full satrec observer startT d st)).
  - intros date st Hle [H1 H2].
    assert (Hnext : next_minute date = date + 60000).
    { destruct H1 as ((k & Hk & ->) & _). now apply Hsteady. }
    rewrite Hnext. split.
    + now apply walk_inv_step.
    + now apply walk_inv_full_step.
  - split; [apply walk_inv_init|apply walk_inv_full_init].
Qed.

Lemma calculatePasses_exact (startT endT : Date) (p : SatellitePass) :
  steady startT endT ->
  p ∈ calculatePasses satrec observer startT endT ->
  pass_exact satrec observer p
  /\ closed_in_window satrec observer startT endT p.
Proof.
  intros Hsteady Hin.
  destruct (walk_inv_both_final startT endT Hsteady)
    as (d & _ & (_ & Hclosed & _) & (_ & Hexact & _)).
  fold (calculatePasses satrec observer startT endT) in Hclosed, Hexact.
  rewrite Forall_forall in Hclosed, Hexact. auto.
Qed.

(** X1. In a steady walk, one that advances by one minute at each visit,
    the peak of a returned pass is the greatest elevation among its samples:
    it is at least the elevation of every sample from the start of the pass
    to just before its end, and it is the elevation of one of them. *)
Theorem calculatePasses_peak_is_maximum (startT endT : Date)
    (p : SatellitePass) :
  steady startT endT ->
  p ∈ calculatePasses satrec observer startT endT ->
  (forall d el raw,
      inside (Pass.startTime p) (Pass.endTime p) d ->
      sample satrec observer d = Some (el, raw) ->
      num_ge (Pass.maxElevation p) el = true)
  /\ (exists d raw,
         inside (Pass.startTime p) (Pass.endTime p) d
         /\ sample satrec observer d = Some (Pass.maxElevation p, raw)).
Proof.
  intros Hsteady Hin.
  destruct (calculatePasses_exact startT endT p Hsteady Hin)
    as (((_ & Hmax & Hatt) & _) & _).
  split; assumption.
Qed.

(** X2. In a steady walk a returned pass ends at the first sample after its
    start that is not above the threshold: the sample at its end time is at
    or below 10 degrees (or not a number), and every minute from its start
    to just before its end was either skipped or above 10 degrees. *)
Theorem calculatePasses_ends_at_first_drop (startT endT : Date)
    (p : SatellitePass) :
  steady startT endT ->
  p ∈ calculatePasses satrec observer startT endT ->
  below satrec observer (Pass.endTime p) = true
  /\ (forall d,
         inside (Pass.startTime p) (Pass.endTime p) d ->
         sample satrec observer d = None
         \/ visible satrec observer d = true).
Proof.
  intros Hsteady Hin.
  destruct (calculatePasses_exact startT endT p Hsteady Hin)
    as (((Hbelow & _) & _) & (_ & _ & _ & _ & Hend)).
  split; [exact Hend|].
  intros d Hd. specialize (Hbelow d Hd). unfold below in Hbelow.
  unfold visible.
  destruct (sample satrec observer d) as [[el raw]|]; [right|left; reflexivity].
  now apply negb_false_iff in Hbelow.
Qed.

(** X3. The start azimuth of a returned pass is the normalized azimuth of
    the sample at its start time, and its end azimuth that of the sample at
    its end time, the first one that was not visible. *)
Theorem calculatePasses_azimuths (startT endT : Date) (p : SatellitePass) :
  p ∈ calculatePasses satrec observer startT endT ->
  azimuth_at satrec observer (Pass.startTime p) = Some (Pass.startAz p)
  /\ azimuth_at satrec observer (Pass.endTime p) = Some (Pass.endAz p).
Proof.
  intros Hin.
  destruct (trace_inv_final satrec observer startT endT)
    as (_ & _ & Hends & _).
  fold (calculatePasses satrec observer startT endT) in Hends.
  rewrite Forall_forall in Hends.
  destruct (Hends p Hin) as (Hs & He & _).
  split; assumption.
Qed.

Lemma duration_minutes (n : Z) :
  num_is (num_div (of_Z (60000 * n)) (Fin 1000)) (inject_Z (60 * n)).
Proof.
  unfold num_div, of_Z. change (Qeq_bool 1000 0) with false.
  cbv beta iota. unfold num_is.
  rewrite !inject_Z_mult. change (inject_Z 60000) with 60000%Q.
  change (inject_Z 60) with 60%Q. field.
Qed.

Lemma steady_duration (startT endT : Date) (p : SatellitePass) :
  steady startT endT ->
  p ∈ calculatePasses satrec observer startT endT ->
  exists n : Z,
    1 <= n
    /\ Pass.endTime p = Pass.startTime p + 60000 * n
    /\ num_is (Pass.duration p) (inject_Z (60 * n)).
Proof.
  intros Hsteady Hin.
  destruct (calculatePasses_exact startT endT p Hsteady Hin)
    as ((_ & _ & _ & Hdur)
        & ((k1 & _ & Hk1 & _) & (k2 & _ & Hk2 & _) & Hlt & _)).
  exists (k2 - k1). split_and!; [lia|lia|].
  rewrite Hdur.
  replace (Pass.endTime p - Pass.startTime p) with (60000 * (k2 - k1)) by lia.
  apply duration_minutes.
Qed.

(** X4. The duration of a returned pass is the thousandth of the
    milliseconds from its start time to its end time.  In a steady walk it
    is a whole number of minutes, one at least: the end time is [n] minutes
    after the start time and the duration is [60 n] seconds. *)
Theorem calculatePasses_duration (startT endT : Date) (p : SatellitePass) :
  p ∈ calculatePasses satrec observer startT endT ->
  Pass.duration p
  = num_div (of_Z (Pass.endTime p - Pass.startTime p)) (Fin 1000)
  /\ (steady startT endT ->
      exists n : Z,
        1 <= n
        /\ Pass.endTime p = Pass.startTime p + 60000 * n
        /\ num_is (Pass.duration p) (inject_Z (60 * n))).
Proof.
  intros Hin. split.
  - destruct (trace_inv_final satrec observer startT endT)
      as (_ & _ & Hends & _).
    fold (calculatePasses satrec observer startT endT) in Hends.
    rewrite Forall_forall in Hends.
    now destruct (Hends p Hin) as (_ & _ & Hdur).
  - intros Hsteady. exact (steady_duration startT endT p Hsteady Hin).
Qed.

(** X5. In a steady walk the returned passes do not overlap: each one has
    ended before the next one starts, with at least the closing sample
    between them. *)
Theorem calculatePasses_disjoint (startT endT : Date) (i j : nat)
    (p q : SatellitePass) :
  steady startT endT ->
  (i < j)%nat ->
  calculatePasses satrec observer startT endT !! i = Some p ->
  calculatePasses satrec observer startT endT !! j = Some q ->
  Pass.endTime p < Pass.startTime q.
Proof.
  intros Hsteady Hij Hp Hq.
  destruct (walk_inv_final satrec observer startT endT Hsteady)
    as (d & _ & _ & _ & _ & _ & Hsorted & _).
  fold (calculatePasses satrec observer startT endT) in Hsorted.
  exact (StronglySorted_lookup _ _ i j p q Hsorted Hij Hp Hq).
Qed.

(** A window that ends before it starts has no sample, and no pass is
    returned. *)
Lemma calculatePasses_empty_window (startT endT : Date) :
  endT < startT -> calculatePasses satrec observer startT endT = [].
Proof.
  intros Hlt. unfold calculatePasses, walk. rewrite for_loop_step.
  destruct (decide (startT <= endT)); [lia|reflexivity].
Qed.

Lemma steady_count (startT endT : Date) :
  steady startT endT ->
  2 * Z.of_nat (length (calculatePasses satrec observer startT endT))
  <= Z.max 0 ((endT - startT) / 60000 + 1).
Proof.
  intros Hsteady.
  destruct (decide (startT <= endT)) as [Hwin|Hempty].
  2:{ rewrite calculatePasses_empty_window by lia. simpl. lia. }
  destruct (walk_inv_both_final startT endT Hsteady)
    as (d & Hd & (Hgrid & _ & _ & _ & _ & _ & _ & Hbound)
        & ((k & Hk & Hdk & Hcount) & _)).
  specialize (Hbound Hwin).
  pose proof (walk_ends_after_last_sample startT endT d Hwin Hd Hbound Hgrid)
    as Hlast.
  unfold last_sample in Hlast.
  fold (calculatePasses satrec observer startT endT) in Hcount.
  assert (0 <= open_count (snd (walk satrec observer startT endT)))
    by (destruct (snd (walk satrec observer startT endT)); simpl; lia).
  lia.
Qed.

(** X6. Every pass takes two visits of its own, the one that opens it and
    the one that closes it: twice the number of returned passes is at most
    the number of visits of the walk.  In a steady walk this is the number
    of whole minutes in the window, none for a window that ends before it
    starts. *)
Theorem calculatePasses_count (startT endT : Date) :
  (2 * length (calculatePasses satrec observer startT endT)
   <= length (visits startT endT))%nat
  /\ (steady startT endT ->
      2 * Z.of_nat (length (calculatePasses satrec observer startT endT))
      <= Z.max 0 ((endT - startT) / 60000 + 1)).
Proof.
  split; [|apply steady_count].
  destruct (trace_inv_final satrec observer startT endT)
    as (_ & _ & _ & _ & _ & Hcount & _).
  fold (calculatePasses satrec observer startT endT) in Hcount. lia.
Qed.

(** X7. When the sample of no visit of the walk is above 10 degrees, no
    pass is returned. *)
Theorem calculatePasses_none_visible (startT endT : Date) :
  (forall d, d ∈ visits startT endT -> visible satrec observer d = false) ->
  calculatePasses satrec observer startT endT = [].
Proof.
  intros Hnone.
  destruct (trace_inv_final satrec observer startT endT)
    as (_ & _ & _ & _ & _ & _ & Hempty).
  unfold calculatePasses. rewrite Hempty; [reflexivity|].
  apply Forall_forall. exact Hnone.
Qed.

(** X8. In a steady walk no visible sample is lost when its pass closes
    inside the window: a visible sample that is followed, in the window, by
    a sample that is not visible lies in one of the returned passes. *)
Theorem calculatePasses_complete (startT endT d d' : Date) :
  steady startT endT ->
  sampled startT endT d ->
  visible satrec observer d = true ->
  sampled startT endT d' -> d < d' ->
  below satrec observer d' = true ->
  exists p,
    p ∈ calculatePasses satrec observer startT endT
    /\ Pass.startTime p <= d < Pass.endTime p.
Proof.
  intros Hsteady (k & Hk & Hd & Hle) Hvis (k' & Hk' & Hd' & Hle') Hlt Hbelow.
  destruct (walk_inv_full_final satrec observer startT endT Hsteady)
    as (date & Hdate & (_ & _ & Hcur & Hcov)).
  assert (Hin : inside startT date d) by (exists k; split_and!; auto; lia).
  destruct (Hcov d Hin Hvis) as [Hp|(cur & Hopen & Hstart)]; [exact Hp|].
  exfalso. rewrite Hopen in Hcur.
  destruct Hcur as ((Hnobelow & _) & _ & (j & Hj & Hcs) & _).
  assert (Hin' : inside (pendingStartTime cur) date d')
    by (exists (k' - j); split_and!; lia).
  rewrite (Hnobelow d' Hin') in Hbelow. discriminate.
Qed.

Lemma loop_body_prefix (date : Date) (st : WalkState) :
  fst st `prefix_of` fst (loop_body satrec observer date st).
Proof.
  rewrite loop_body_sample.
  destruct (sample satrec observer date) as [[el raw]|]; [|reflexivity].
  destruct st as [passes cur]. unfold update_pass.
  destruct (num_gt el (Fin 10)).
  - destruct (num_gt el _); reflexivity.
  - destruct cur; simpl; [|reflexivity]. now apply prefix_app_r.
Qed.

Lemma for_loop_prefix (endT date : Date) (st : WalkState) :
  fst st `prefix_of` fst (for_loop satrec observer endT date st).
Proof.
  destruct (for_loop_invariant satrec observer
              (fun _ st' => fst st `prefix_of` fst st') endT)
    with (date := date) (st := st) as (d & _ & H); auto.
  intros d st' _ H. etransitivity; [exact H|apply loop_body_prefix].
Qed.

(** X9. Lengthening the window only adds passes at the end: the passes of
    a window are the first passes of every longer window with the same
    start. *)
Theorem calculatePasses_window_prefix (startT endT1 endT2 : Date) :
  endT1 <= endT2 ->
  calculatePasses satrec observer startT endT1
  `prefix_of` calculatePasses satrec observer startT endT2.
Proof.
  intros Hle. unfold calculatePasses, walk.
  destruct (for_loop_invariant satrec observer
              (fun d st => for_loop satrec observer endT2 d st
                           = for_loop satrec observer endT2 startT ([], None))
              endT1)
    with (date := startT) (st := (@nil SatellitePass, @None PendingPass))
    as (d & _ & H).
  - intros d st Hd <-. rewrite (for_loop_step satrec observer endT2 d).
    destruct (decide (d <= endT2)); [reflexivity|lia].
  - reflexivity.
  - rewrite <- H. apply for_loop_prefix.
Qed.

End PassExtras.
(** ** The fetcher, all cases *)

Section FetcherExtras.
Variable env : Env.

(** The two ways the remote retrieval can go. *)
Lemma fetchTLE_remote_cases (w : World) (satelliteId : string) :
  (exists cause w',
      failure_cause (remote env (tle_url satelliteId)) = Some cause
      /\ fetchTLE_remote env satelliteId w =
         (Raised (ErrorObject "Error"
                    ("Failed to fetch TLE data: " +:+ String_of cause)), w')
      /\ tleCache w' = tleCache w
      /\ clockReads w' = clockReads w
      /\ requests w' = requests w ++ [tle_url satelliteId]
      /\ console w' = console w)
  \/ (exists text l0 l1 l2 ls w',
         remote env (tle_url satelliteId) = BodyText text
         /\ split newline text = l0 :: l1 :: l2 :: ls
         /\ fetchTLE_remote env satelliteId w =
            (Returned {| TLE.name := trim l0; TLE.line1 := trim l1;
                         TLE.line2 := trim l2 |}, w')
         /\ tleCache w' =
            <[satelliteId :=
                {| tle := {| TLE.name := trim l0; TLE.line1 := trim l1;
                             TLE.line2 := trim l2 |};
                   timestamp := clock env (clockReads w) |}]> (tleCache w)
         /\ clockReads w' = S (clockReads w)
         /\ requests w' = requests w ++ [tle_url satelliteId]
         /\ console w' = console w).
Proof.
  destruct (failure_cause (remote env (tle_url satelliteId))) as [cause|] eqn:Hc.
  - left.
    unfold fetchTLE_remote, try_catch, bind, fetch, response_text, throw.
    destruct (remote env (tle_url satelliteId)) as [c|c|text]; simpl in Hc.
    + injection Hc as ->. do 2 eexists. split_and!; reflexivity.
    + injection Hc as ->. do 2 eexists. split_and!; reflexivity.
    + unfold ret, trimmed_line.
      destruct (split newline text) as [|l0 [|l1 [|l2 ls]]]; simpl in Hc;
        try discriminate; injection Hc as <-; simpl;
        (do 2 eexists; split_and!; reflexivity).
  - right.
    destruct (remote env (tle_url satelliteId)) as [c|c|text] eqn:Hremote;
      try discriminate Hc.
    simpl in Hc.
    destruct (split newline text) as [|l0 [|l1 [|l2 ls]]] eqn:Hlines;
      try discriminate Hc.
    destruct (fetchTLE_remote_stores env w satelliteId text l0 l1 l2 ls
                Hremote Hlines) as (w' & H1 & H2 & H3 & H4 & H5).
    exists text, l0, l1, l2, ls, w'. split_and!; auto.
Qed.

(** [fetchTLE] is a fresh hit, or the remote retrieval from a world that
    differs from [w] at most by one reading of the clock. *)
Lemma fetchTLE_cases (w : World) (satelliteId : string) :
  (exists entry w',
      tleCache w !! satelliteId = Some entry
      /\ clock env (clockReads w) - timestamp entry < TLE_CACHE_DURATION
      /\ fetchTLE env satelliteId w = (Returned (tle entry), w')
      /\ tleCache w' = tleCache w
      /\ requests w' = requests w
      /\ console w' = console w)
  \/ (exists w0,
         (tleCache w !! satelliteId = None
          \/ exists entry,
               tleCache w !! satelliteId = Some entry
               /\ TLE_CACHE_DURATION
                  <= clock env (clockReads w) - timestamp entry)
         /\ fetchTLE env satelliteId w = fetchTLE_remote env satelliteId w0
         /\ tleCache w0 = tleCache w
         /\ requests w0 = requests w
         /\ console w0 = console w
         /\ (clockReads w <= clockReads w0 <= S (clockReads w))%nat).
Proof.
  unfold fetchTLE, bind, cache_get.
  destruct (tleCache w !! satelliteId) as [entry|] eqn:Hc.
  - unfold Date_now.
    destruct (Z.ltb_spec (clock env (clockReads w) - timestamp entry)
                         TLE_CACHE_DURATION) as [Hfresh|Hstale].
    + left. do 2 eexists. split_and!; eauto.
    + right. eexists. split; [right; eauto|].
      split; [reflexivity|]. simpl. split_and!; auto.
  - right. exists w. split_and!; auto.
Qed.

(** X10. On a cache miss or a stale entry (24 hours old or more), a text of
    three lines or more is accepted: [fetchTLE] requests the URL once,
    returns the first three lines, trimmed, ignores the others, and stores
    the element set under the identifier with the last reading of the
    clock. *)
Theorem fetchTLE_refresh (w : World) (satelliteId text : string)
    (l0 l1 l2 : string) (ls : list string) :
  (tleCache w !! satelliteId = None
   \/ exists entry,
        tleCache w !! satelliteId = Some entry
        /\ TLE_CACHE_DURATION <= clock env (clockReads w) - timestamp entry) ->
  remote env (tle_url satelliteId) = BodyText text ->
  split newline text = l0 :: l1 :: l2 :: ls ->
  let found := {| TLE.name := trim l0; TLE.line1 := trim l1;
                  TLE.line2 := trim l2 |} in
  exists w' n,
    fetchTLE env satelliteId w = (Returned found, w')
    /\ requests w' = requests w ++ [tle_url satelliteId]
    /\ clockReads w' = S n
    /\ tleCache w' =
       <[satelliteId := {| tle := found; timestamp := clock env n |}]>
         (tleCache w).
Proof.
  intros Hmiss Hremote Hlines found.
  destruct (fetchTLE_cases w satelliteId)
    as [(entry & w' & Hc & Hfresh & _)|(w0 & _ & -> & Hc0 & Hr0 & _ & _)].
  { destruct Hmiss as [Hnone|(entry' & Hsome & Hstale)]; [congruence|].
    rewrite Hc in Hsome. injection Hsome as <-. lia. }
  destruct (fetchTLE_remote_stores env w0 satelliteId text l0 l1 l2 ls
              Hremote Hlines) as (w' & -> & Hcache & Hclock & Hreq & _).
  subst found. exists w', (clockReads w0).
  rewrite Hreq, Hcache, Hr0, Hc0. split_and!; auto.
Qed.

Lemma fetchTLE_returned_cached (w w1 : World) (satelliteId : string)
    (found : TLEData) :
  fetchTLE env satelliteId w = (Returned found, w1) ->
  exists entry, tleCache w1 !! satelliteId = Some entry /\ tle entry = found.
Proof.
  intros Hfetch.
  destruct (fetchTLE_cases w satelliteId)
    as [(entry & w' & Hc & _ & Hhit & Hcache & _)|(w0 & _ & Heq & _)].
  - rewrite Hhit in Hfetch. injection Hfetch as <- <-.
    exists entry. rewrite Hcache. auto.
  - rewrite Heq in Hfetch.
    destruct (fetchTLE_remote_cases w0 satelliteId)
      as [(cause & w' & _ & Hr & _)
         |(text & l0 & l1 & l2 & ls & w' & _ & _ & Hr & Hcache & _)];
      rewrite Hr in Hfetch; [discriminate|].
    injection Hfetch as <- <-. eexists. rewrite Hcache.
    split; [apply lookup_insert_eq|reflexivity].
Qed.

(** X11. What [fetchTLE] returns is in the cache afterwards, and a second
    call for the same identifier, made while the entry is less than 24
    hours old, returns the same element set without any request. *)
Theorem fetchTLE_then_cache_hit (w w1 : World) (satelliteId : string)
    (found : TLEData) :
  fetchTLE env satelliteId w = (Returned found, w1) ->
  exists entry,
    tleCache w1 !! satelliteId = Some entry
    /\ tle entry = found
    /\ (clock env (clockReads w1) - timestamp entry < TLE_CACHE_DURATION ->
        exists w2,
          fetchTLE env satelliteId w1 = (Returned found, w2)
          /\ requests w2 = requests w1
          /\ tleCache w2 = tleCache w1).
Proof.
  intros Hfetch.
  destruct (fetchTLE_returned_cached w w1 satelliteId found Hfetch)
    as (entry & Hc & Htle).
  exists entry. split_and!; auto.
  intros Hfresh. rewrite <- Htle.
  destruct (fetchTLE_cases w1 satelliteId)
    as [(entry' & w2 & Hc' & _ & Hhit & Hcache & Hreq & _)
       |(w0 & [Hnone|(entry' & Hc' & Hstale)] & _)].
  - rewrite Hc in Hc'. injection Hc' as <-. exists w2. auto.
  - congruence.
  - rewrite Hc in Hc'. injection Hc' as <-. lia.
Qed.

(** X12. [fetchTLE] touches nothing but the entry of its identifier: the
    entries of the other identifiers are as they were, nothing is written
    on the console, and at most one request is made, for the URL of the
    identifier. *)
Theorem fetchTLE_frame (w w' : World) (satelliteId : string)
    (r : Outcome TLEData) :
  fetchTLE env satelliteId w = (r, w') ->
  (forall other : string,
      other <> satelliteId -> tleCache w' !! other = tleCache w !! other)
  /\ console w' = console w
  /\ (requests w' = requests w
      \/ requests w' = requests w ++ [tle_url satelliteId]).
Proof.
  intros Hfetch.
  destruct (fetchTLE_cases w satelliteId)
    as [(entry & w1 & _ & _ & Hhit & Hcache & Hreq & Hcon)
       |(w0 & _ & Heq & Hc0 & Hr0 & Hcon0 & _)].
  - rewrite Hhit in Hfetch. injection Hfetch as <- <-.
    rewrite Hcache. auto.
  - rewrite Heq in Hfetch.
    destruct (fetchTLE_remote_cases w0 satelliteId)
      as [(cause & w1 & _ & Hr & Hcache & _ & Hreq & Hcon)
         |(text & l0 & l1 & l2 & ls & w1 & _ & _ & Hr & Hcache & _ & Hreq & Hcon)];
      rewrite Hr in Hfetch; injection Hfetch as <- <-;
      rewrite Hcache, Hreq, Hcon, Hr0, Hcon0, ?Hc0; split_and!; auto.
    intros other Hne. now apply lookup_insert_ne.
Qed.

Lemma fetchTLE_raised (w w' : World) (satelliteId : string) (e : Thrown) :
  fetchTLE env satelliteId w = (Raised e, w') ->
  (exists cause,
      failure_cause (remote env (tle_url satelliteId)) = Some cause
      /\ e = ErrorObject "Error"
               ("Failed to fetch TLE data: " +:+ String_of cause))
  /\ tleCache w' = tleCache w
  /\ console w' = console w.
Proof.
  intros Hfetch.
  destruct (fetchTLE_cases w satelliteId)
    as [(entry & w1 & _ & _ & Hhit & _)|(w0 & _ & Heq & Hc0 & _ & Hcon0 & _)].
  - rewrite Hhit in Hfetch. discriminate.
  - rewrite Heq in Hfetch.
    destruct (fetchTLE_remote_cases w0 satelliteId)
      as [(cause & w1 & Hcause & Hr & Hcache & _ & _ & Hcon)
         |(text & l0 & l1 & l2 & ls & w1 & _ & _ & Hr & _)];
      rewrite Hr in Hfetch; [|discriminate].
    injection Hfetch as <- <-. split_and!; [eauto|congruence|congruence].
Qed.

(** X13. Whatever [fetchTLE] throws is an [Error] whose message is "Failed
    to fetch TLE data: " followed by the cause of a failed retrieval, and
    a call that throws leaves the cache as it was. *)
Theorem fetchTLE_throws_wrapped (w w' : World) (satelliteId : string)
    (e : Thrown) :
  fetchTLE env satelliteId w = (Raised e, w') ->
  (exists cause,
      failure_cause (remote env (tle_url satelliteId)) = Some cause
      /\ e = ErrorObject "Error"
               ("Failed to fetch TLE data: " +:+ String_of cause))
  /\ tleCache w' = tleCache w.
Proof.
  intros Hfetch. destruct (fetchTLE_raised w w' satelliteId e Hfetch)
    as (H1 & H2 & _). auto.
Qed.

End FetcherExtras.

(** ** Lines ended by a carriage return and a line feed *)

Lemma split_one_line (a rest : string) :
  one_line a = true ->
  split newline (a +:+ String newline rest) = a :: split newline rest.
Proof.
  induction a as [|c a IH]; intros Hone.
  - reflexivity.
  - simpl in Hone. apply andb_prop in Hone as [Hc Ha].
    apply negb_true_iff in Hc. simpl. rewrite Hc, (IH Ha). reflexivity.
Qed.

Lemma append_cons (c : ascii) (a b : string) :
  String c a +:+ b = String c (a +:+ b).
Proof. reflexivity. Qed.

Lemma append_nil (b : string) : EmptyString +:+ b = b.
Proof. reflexivity. Qed.

Lemma append_two (a rest : string) (c1 c2 : ascii) :
  a +:+ String c1 (String c2 rest)
  = (a +:+ String c1 EmptyString) +:+ String c2 rest.
Proof.
  induction a as [|d a IH]; rewrite ?append_cons, ?append_nil;
    [reflexivity|now rewrite IH].
Qed.

Lemma append_empty (a : string) : a +:+ EmptyString = a.
Proof.
  induction a as [|d a IH]; rewrite ?append_cons, ?append_nil;
    [reflexivity|now rewrite IH].
Qed.

Lemma one_line_snoc (a : string) (c : ascii) :
  Ascii.eqb c newline = false ->
  one_line (a +:+ String c EmptyString) = one_line a.
Proof.
  intros Hc. induction a as [|d a IH]; rewrite ?append_cons, ?append_nil;
    simpl; [now rewrite Hc|now rewrite IH].
Qed.

(** A white-space character of one byte is no part of a longer one. *)
Lemma is_space_alone (c : ascii) :
  is_space c = true ->
  forall c1 c2, is_space2 c1 c = false /\ is_space3 c1 c2 c = false.
Proof.
  unfold is_space, is_space2, is_space3. intros H c1 c2.
  assert (Hn : (nat_of_ascii c < 128)%nat).
  { apply orb_prop in H as [H|H].
    - apply andb_prop in H as [_ H]. apply Nat.leb_le in H. lia.
    - apply Nat.eqb_eq in H. lia. }
  cbv zeta.
  replace (nat_of_ascii c =? 160)%nat with false
    by (symmetry; apply Nat.eqb_neq; lia).
  replace (nat_of_ascii c =? 128)%nat with false
    by (symmetry; apply Nat.eqb_neq; lia).
  replace (128 <=? nat_of_ascii c)%nat with false
    by (symmetry; apply Nat.leb_gt; lia).
  replace (nat_of_ascii c =? 168)%nat with false
    by (symmetry; apply Nat.eqb_neq; lia).
  replace (nat_of_ascii c =? 169)%nat with false
    by (symmetry; apply Nat.eqb_neq; lia).
  replace (nat_of_ascii c =? 175)%nat with false
    by (symmetry; apply Nat.eqb_neq; lia).
  replace (nat_of_ascii c =? 159)%nat with false
    by (symmetry; apply Nat.eqb_neq; lia).
  replace (nat_of_ascii c =? 191)%nat with false
    by (symmetry; apply Nat.eqb_neq; lia).
  rewrite !andb_false_r. split; reflexivity.
Qed.

Lemma trimStart_step (s : string) :
  trimStart s =
  match after_space s with
  | Some rest => trimStart rest
  | None => s
  end.
Proof.
  destruct s as [|c1 r1]; [reflexivity|].
  unfold after_space. cbn [trimStart].
  destruct (is_space c1); [reflexivity|].
  destruct r1 as [|c2 r2]; [reflexivity|].
  destruct (is_space2 c1 c2); [reflexivity|].
  destruct r2 as [|c3 r3]; [reflexivity|].
  destruct (is_space3 c1 c2 c3); reflexivity.
Qed.

Lemma after_space_shorter (s rest : string) :
  after_space s = Some rest -> (String.length rest < String.length s)%nat.
Proof.
  unfold after_space.
  destruct s as [|c1 r1]; [discriminate|].
  destruct (is_space c1); [intros [= <-]; simpl; lia|].
  destruct r1 as [|c2 r2]; [discriminate|].
  destruct (is_space2 c1 c2); [intros [= <-]; simpl; lia|].
  destruct r2 as [|c3 r3]; [discriminate|].
  destruct (is_space3 c1 c2 c3); [intros [= <-]; simpl; lia|discriminate].
Qed.

Lemma after_space_app_space (a : string) (c : ascii) :
  is_space c = true ->
  after_space (a +:+ String c EmptyString) =
  match a with
  | EmptyString => Some EmptyString
  | _ =>
      match after_space a with
      | Some rest => Some (rest +:+ String c EmptyString)
      | None => None
      end
  end.
Proof.
  intros Hc. unfold after_space.
  destruct a as [|c1 r1]; rewrite ?append_cons, ?append_nil.
  { now rewrite Hc. }
  destruct (is_space c1); [reflexivity|].
  destruct r1 as [|c2 r2]; rewrite ?append_cons, ?append_nil.
  { now rewrite (proj1 (is_space_alone c Hc c1 c1)). }
  destruct (is_space2 c1 c2); [reflexivity|].
  destruct r2 as [|c3 r3]; rewrite ?append_cons, ?append_nil.
  { now rewrite (proj2 (is_space_alone c Hc c1 c2)). }
  destruct (is_space3 c1 c2 c3); reflexivity.
Qed.

Lemma trimStart_app_space (a : string) (c : ascii) :
  is_space c = true ->
  trimStart (a +:+ String c EmptyString) =
  match trimStart a with
  | EmptyString => EmptyString
  | t => t +:+ String c EmptyString
  end.
Proof.
  intros Hc.
  remember (String.length a) as n eqn:Hn. revert a Hn.
  induction n as [n IH] using lt_wf_ind. intros a Hn.
  rewrite (trimStart_step (a +:+ String c EmptyString)).
  rewrite (after_space_app_space a c Hc).
  destruct a as [|d a'].
  { reflexivity. }
  rewrite (trimStart_step (String d a')).
  destruct (after_space (String d a')) as [rest|] eqn:Hrest.
  - apply (IH (String.length rest)); [|reflexivity].
    subst n. now apply after_space_shorter.
  - reflexivity.
Qed.

Lemma string_rev_append_snoc (t acc : string) (c : ascii) :
  string_rev_append (t +:+ String c EmptyString) acc
  = String c (string_rev_append t acc).
Proof.
  revert acc. induction t as [|d t IH]; intros acc;
    rewrite ?append_cons, ?append_nil; simpl; [reflexivity|apply IH].
Qed.

Lemma trimEnd_app_space (t : string) (c : ascii) :
  is_space c = true -> trimEnd (t +:+ String c EmptyString) = trimEnd t.
Proof.
  intros Hc. unfold trimEnd, string_rev.
  rewrite string_rev_append_snoc. cbn [trimStart_reversed]. now rewrite Hc.
Qed.

(** A white space at the end of a line does not show after [trim]. *)
Lemma trim_app_space (a : string) (c : ascii) :
  is_space c = true -> trim (a +:+ String c EmptyString) = trim a.
Proof.
  intros Hc. unfold trim. rewrite (trimStart_app_space a c Hc).
  destruct (trimStart a) as [|d t] eqn:E; [reflexivity|].
  now apply trimEnd_app_space.
Qed.

Lemma split_crlf_line (a rest : string) :
  one_line a = true ->
  split newline (a +:+ crlf +:+ rest)
  = (a +:+ String carriage_return EmptyString) :: split newline rest.
Proof.
  intros Hone. unfold crlf.
  change (String carriage_return (String newline EmptyString) +:+ rest)
    with (String carriage_return (String newline rest)).
  rewrite append_two.
  apply split_one_line. now rewrite one_line_snoc.
Qed.

(** X14. Lines ended by a carriage return and a line feed, as the remote
    source sends them, are read as the same element set as lines ended by a
    line feed alone: on a miss or a stale entry [fetchTLE] returns the three
    lines trimmed, without the carriage returns. *)
Theorem fetchTLE_crlf (env : Env) (w : World) (satelliteId a b c : string) :
  (tleCache w !! satelliteId = None
   \/ exists entry,
        tleCache w !! satelliteId = Some entry
        /\ TLE_CACHE_DURATION <= clock env (clockReads w) - timestamp entry) ->
  one_line a = true -> one_line b = true -> one_line c = true ->
  remote env (tle_url satelliteId)
  = BodyText (a +:+ crlf +:+ b +:+ crlf +:+ c +:+ crlf) ->
  exists w',
    fetchTLE env satelliteId w =
    (Returned {| TLE.name := trim a; TLE.line1 := trim b;
                 TLE.line2 := trim c |}, w')
    /\ exists entry,
         tleCache w' !! satelliteId = Some entry
         /\ tle entry = {| TLE.name := trim a; TLE.line1 := trim b;
                           TLE.line2 := trim c |}.
Proof.
  intros Hmiss Ha Hb Hc Hremote.
  assert (Hlines :
            split newline (a +:+ crlf +:+ b +:+ crlf +:+ c +:+ crlf)
            = (a +:+ String carriage_return EmptyString)
              :: (b +:+ String carriage_return EmptyString)
              :: (c +:+ String carriage_return EmptyString)
              :: [EmptyString]).
  { rewrite (split_crlf_line a) by exact Ha.
    rewrite (split_crlf_line b) by exact Hb.
    replace (c +:+ crlf) with (c +:+ crlf +:+ EmptyString)
      by (now rewrite (append_empty crlf)).
    rewrite (split_crlf_line c) by exact Hc. reflexivity. }
  destruct (fetchTLE_cases env w satelliteId)
    as [(entry & w' & Hcached & Hfresh & _)|(w0 & _ & -> & _)].
  { destruct Hmiss as [Hnone|(entry' & Hsome & Hstale)]; [congruence|].
    rewrite Hcached in Hsome. injection Hsome as <-. lia. }
  destruct (fetchTLE_remote_stores env w0 satelliteId _ _ _ _ _
              Hremote Hlines) as (w' & Hr & Hcache & _).
  assert (Hcr : is_space carriage_return = true) by reflexivity.
  rewrite !(trim_app_space _ _ Hcr) in Hr, Hcache.
  exists w'. split; [exact Hr|].
  eexists. rewrite Hcache. split; [apply lookup_insert_eq|reflexivity].
Qed.

(** ** The handler, all cases *)

Lemma outside_false_iff (lo hi : Q) (a : number) :
  outside lo hi a = false <-> a = NaN \/ in_closed lo hi a.
Proof.
  unfold outside, num_gt, num_lt.
  destruct a as [|[]|q]; cbn -[Qcompare].
  - split; auto.
  - split; [discriminate|]. intros [?|[]]; discriminate.
  - split; [discriminate|]. intros [?|[]]; discriminate.
  - destruct (Qcompare_spec q lo), (Qcompare_spec hi q); cbn;
      (split; [try discriminate; intros _; right; lra
              |intros [?|[? ?]]; try discriminate; try reflexivity;
               exfalso; lra]).
Qed.

Lemma coordinates_rejected_outside (latitude longitude : number) :
  coordinates_rejected latitude longitude
  = outside (-90) 90 latitude || outside (-180) 180 longitude.
Proof.
  unfold coordinates_rejected, outside. now rewrite <- !orb_assoc.
Qed.

(** X15. The range check lets a request through exactly when each
    coordinate is either [NaN] or a finite number within its bounds, the
    bounds themselves included: latitude from -90 to 90, longitude from
    -180 to 180.  An infinite coordinate is rejected. *)
Theorem coordinates_accepted_iff (latitude longitude : number) :
  coordinates_rejected latitude longitude = false <->
  (latitude = NaN \/ in_closed (-90) 90 latitude)
  /\ (longitude = NaN \/ in_closed (-180) 180 longitude).
Proof.
  rewrite coordinates_rejected_outside, orb_false_iff.
  now rewrite !outside_false_iff.
Qed.

Section HandlerExtras.
Context {lib : satellite.Lib} {tz : TimeZone}.
Variable env : Env.

Lemma parameters_absent_rejected (req : LocationRequest) (w : World) :
  parameters_present req = false ->
  passesPrediction env req w =
  (Returned (error_response 400 "Missing required parameters"), w).
Proof.
  unfold parameters_present, passesPrediction, try_catch. intros Hp.
  destruct (string_truthy (Req.satelliteId req)),
           (string_truthy (Req.lat req)),
           (string_truthy (Req.lng req)); try discriminate Hp; reflexivity.
Qed.

(** X16. A request in which the identifier, the latitude or the longitude
    is absent or is the empty string is answered 400 "Missing required
    parameters", whatever the other fields hold, and the world is left
    untouched: nothing is fetched and nothing is computed. *)
Theorem missing_parameters_rejected (req : LocationRequest) (w : World) :
  Req.satelliteId req = None \/ Req.satelliteId req = Some EmptyString
  \/ Req.lat req = None \/ Req.lat req = Some EmptyString
  \/ Req.lng req = None \/ Req.lng req = Some EmptyString ->
  passesPrediction env req w =
  (Returned (error_response 400 "Missing required parameters"), w).
Proof.
  intros H. apply parameters_absent_rejected. unfold parameters_present.
  destruct H as [H|[H|[H|[H|[H|H]]]]]; rewrite H; simpl;
    rewrite ?andb_false_r; reflexivity.
Qed.

(** What the handler answers, once [predict] is reached. *)
Lemma passesPrediction_predict (req : LocationRequest) (w : World) :
  parameters_present req = true ->
  coordinates_rejected (parseFloat (ToString (Req.lat req)))
                       (parseFloat (ToString (Req.lng req))) = false ->
  let satelliteId := ToString (Req.satelliteId req) in
  let latitude := parseFloat (ToString (Req.lat req)) in
  let longitude := parseFloat (ToString (Req.lng req)) in
  (exists name message w1,
      fetchTLE env satelliteId w = (Raised (ErrorObject name message), w1)
      /\ passesPrediction env req w =
         (Returned {| status := 500;
                      body := ErrorBody "Failed to calculate passes"
                                        (Some message) |},
          after_error_log w1))
  \/ (exists found w1,
         fetchTLE env satelliteId w = (Returned found, w1)
         /\ satellite.twoline2satrec (TLE.line1 found) (TLE.line2 found) = None
         /\ passesPrediction env req w =
            (Returned (error_response 400 "Error parsing TLE data"), w1))
  \/ (exists found w1 satrec,
         fetchTLE env satelliteId w = (Returned found, w1)
         /\ satellite.twoline2satrec (TLE.line1 found) (TLE.line2 found)
            = Some satrec
         /\ passesPrediction env req w =
            (Returned
               {| status := 200;
                  body :=
                    PassesBody
                      (map format_pass
                         (calculatePasses satrec
                            (observer_of latitude longitude)
                            (clock env (clockReads w1))
                            (clock env (clockReads w1) + 86400000))) |},
             after_calculation w1)).
Proof.
  intros Hp Hc. simpl.
  rewrite (passesPrediction_accepted env req w Hp Hc).
  unfold try_catch, predict, bind.
  destruct (fetchTLE env (ToString (Req.satelliteId req)) w)
    as [[found|e] w1] eqn:Hfetch.
  - destruct (satellite.twoline2satrec (TLE.line1 found) (TLE.line2 found))
      as [satrec|] eqn:Hsat.
    + right. right. exists found, w1, satrec. split_and!; auto.
    + right. left. exists found, w1. auto.
  - left.
    destruct (fetchTLE_raised env _ _ _ _ Hfetch) as ((cause & _ & ->) & _).
    do 3 eexists. split; reflexivity.
Qed.

(** X17. The handler never throws: every request gets a response, either
    200 with a list of passes, or 400 or 500 with an error. *)
Theorem passesPrediction_always_responds (req : LocationRequest) (w : World) :
  exists resp w',
    passesPrediction env req w = (Returned resp, w')
    /\ match body resp with
       | PassesBody _ => status resp = 200
       | ErrorBody _ _ => status resp = 400 \/ status resp = 500
       end.
Proof.
  destruct (parameters_present req) eqn:Hp.
  2:{ rewrite (parameters_absent_rejected req w Hp).
      do 2 eexists. split; [reflexivity|]. simpl. auto. }
  destruct (coordinates_rejected (parseFloat (ToString (Req.lat req)))
                                 (parseFloat (ToString (Req.lng req))))
    eqn:Hc.
  - unfold parameters_present in Hp.
    apply andb_prop in Hp as [Hp H3]. apply andb_prop in Hp as [H1 H2].
    unfold passesPrediction, try_catch. simpl. rewrite H1, H2, H3, Hc.
    do 2 eexists. split; [reflexivity|]. simpl. auto.
  - destruct (passesPrediction_predict req w Hp Hc)
      as [(name & message & w1 & _ & ->)
         |[(found & w1 & _ & _ & ->)|(found & w1 & satrec & _ & _ & ->)]];
      do 2 eexists; (split; [reflexivity|]); simpl; auto.
Qed.

(** X18. When the request is valid and the remote retrieval fails on a
    cache miss or a stale entry, the answer is 500 "Failed to calculate
    passes" with the message of the fetch error as details; the failure is
    logged once and the cache is left as it was. *)
Theorem fetch_failure_reported (req : LocationRequest) (w : World)
    (cause : Thrown) :
  parameters_present req = true ->
  coordinates_rejected (parseFloat (ToString (Req.lat req)))
                       (parseFloat (ToString (Req.lng req))) = false ->
  (tleCache w !! ToString (Req.satelliteId req) = None
   \/ exists entry,
        tleCache w !! ToString (Req.satelliteId req) = Some entry
        /\ TLE_CACHE_DURATION <= clock env (clockReads w) - timestamp entry) ->
  failure_cause (remote env (tle_url (ToString (Req.satelliteId req))))
  = Some cause ->
  exists w',
    passesPrediction env req w =
    (Returned
       {| status := 500;
          body := ErrorBody "Failed to calculate passes"
                    (Some ("Failed to fetch TLE data: " +:+ String_of cause)) |},
     w')
    /\ tleCache w' = tleCache w
    /\ console w' = console w ++ ["Full error details:"].
Proof.
  intros Hp Hc Hmiss Hfail.
  assert (Hfetch : exists w1,
             fetchTLE env (ToString (Req.satelliteId req)) w =
             (Raised (ErrorObject "Error"
                        ("Failed to fetch TLE data: " +:+ String_of cause)), w1)
             /\ tleCache w1 = tleCache w /\ console w1 = console w).
  { destruct (fetchTLE_cases env w (ToString (Req.satelliteId req)))
      as [(entry & w1 & Hcached & Hfresh & _)
         |(w0 & _ & -> & Hc0 & _ & Hcon0 & _)].
    { destruct Hmiss as [Hnone|(entry' & Hsome & Hstale)]; [congruence|].
      rewrite Hcached in Hsome. injection Hsome as <-. lia. }
    destruct (fetchTLE_remote_cases env w0 (ToString (Req.satelliteId req)))
      as [(cause' & w1 & Hcause & Hr & Hcache & _ & _ & Hcon)
         |(text & l0 & l1 & l2 & ls & w1 & Hremote & Hlines & _)].
    - rewrite Hfail in Hcause. injection Hcause as <-.
      exists w1. split_and!; [exact Hr|congruence|congruence].
    - rewrite Hremote in Hfail. simpl in Hfail. rewrite Hlines in Hfail.
      discriminate. }
  destruct Hfetch as (w1 & Hfetch & Hcache & Hcon).
  destruct (passesPrediction_predict req w Hp Hc)
    as [(name & message & w1' & Hf & ->)
       |[(found & w1' & Hf & _)|(found & w1' & satrec & Hf & _)]];
    rewrite Hfetch in Hf; try discriminate.
  injection Hf as <- <- <-.
  eexists. split; [reflexivity|]. simpl. rewrite Hcache, Hcon. auto.
Qed.

(** X19. When the fetched element set does not compile, the answer is 400
    "Error parsing TLE data", no pass is computed, and the element set is
    in the cache all the same, where the next requests will find it. *)
Theorem unparsable_element_set_cached (req : LocationRequest) (w w1 : World)
    (found : TLEData) :
  parameters_present req = true ->
  coordinates_rejected (parseFloat (ToString (Req.lat req)))
                       (parseFloat (ToString (Req.lng req))) = false ->
  fetchTLE env (ToString (Req.satelliteId req)) w = (Returned found, w1) ->
  satellite.twoline2satrec (TLE.line1 found) (TLE.line2 found) = None ->
  passesPrediction env req w =
  (Returned (error_response 400 "Error parsing TLE data"), w1)
  /\ exists entry,
       tleCache w1 !! ToString (Req.satelliteId req) = Some entry
       /\ tle entry = found.
Proof.
  intros Hp Hc Hfetch Hsat. split.
  - destruct (passesPrediction_predict req w Hp Hc)
      as [(name & message & w1' & Hf & _)
         |[(found' & w1' & Hf & _ & ->)|(found' & w1' & satrec & Hf & Hs & _)]];
      rewrite Hfetch in Hf; try discriminate.
    + now injection Hf as <- <-.
    + injection Hf as <- <-. congruence.
  - eapply fetchTLE_returned_cached; eauto.
Qed.

(** X20. When the fetched element set compiles, the answer is 200 with the
    passes of the next 24 hours in the order [calculatePasses] returns
    them, each one formatted: the window starts at the reading of the clock
    taken after the fetch and ends 86400000 ms later, and the observer is
    made of the two parsed coordinates. *)
Theorem passesPrediction_success (req : LocationRequest) (w w1 : World)
    (found : TLEData) (satrec : satellite.SatRec) :
  parameters_present req = true ->
  coordinates_rejected (parseFloat (ToString (Req.lat req)))
                       (parseFloat (ToString (Req.lng req))) = false ->
  fetchTLE env (ToString (Req.satelliteId req)) w = (Returned found, w1) ->
  satellite.twoline2satrec (TLE.line1 found) (TLE.line2 found) = Some satrec ->
  passesPrediction env req w =
  (Returned
     {| status := 200;
        body :=
          PassesBody
            (map format_pass
               (calculatePasses satrec
                  (observer_of (parseFloat (ToString (Req.lat req)))
                               (parseFloat (ToString (Req.lng req))))
                  (clock env (clockReads w1))
                  (clock env (clockReads w1) + 86400000))) |},
   after_calculation w1).
Proof.
  intros Hp Hc Hfetch Hsat.
  destruct (passesPrediction_predict req w Hp Hc)
    as [(name & message & w1' & Hf & _)
       |[(found' & w1' & Hf & Hs & _)|(found' & w1' & satrec' & Hf & Hs & ->)]];
    rewrite Hfetch in Hf; try discriminate.
  - injection Hf as <- <-. congruence.
  - injection Hf as <- <-. rewrite Hsat in Hs. now injection Hs as <-.
Qed.

End HandlerExtras.

(** ** The observer and the formatted passes *)

Lemma Qfloor_unique (a : Q) (m : Z) :
  (inject_Z m <= a)%Q -> (a < inject_Z m + 1)%Q -> Qfloor a = m.
Proof.
  intros Hlo Hhi.
  pose proof (Qfloor_le a) as H1. pose proof (Qlt_floor a) as H2.
  rewrite inject_Z_plus in H2. change (inject_Z 1) with 1%Q in H2.
  assert (Ha : (inject_Z (Qfloor a) < inject_Z m + 1)%Q) by lra.
  assert (Hb : (inject_Z m < inject_Z (Qfloor a) + 1)%Q) by lra.
  change 1%Q with (inject_Z 1) in Ha, Hb. rewrite <- inject_Z_plus in Ha, Hb.
  rewrite <- Zlt_Qlt in Ha, Hb. lia.
Qed.



(** [Math.round] of a number from 0 to just below 360. *)
Lemma Math_round_azimuth (a : number) :
  num_in 0 360 a ->
  exists m : Z,
    Math_round a = of_Z m /\ 0 <= m <= 360
    /\ (m = 360 <-> num_ge a (Fin (719 # 2)) = true).
Proof.
  destruct a as [| |q]; try contradiction. intros [Hlo Hhi].
  exists (Qfloor (q + (1 # 2))). split; [reflexivity|].
  pose proof (Qfloor_le (q + (1 # 2))) as H1.
  pose proof (Qlt_floor (q + (1 # 2))) as H2.
  rewrite inject_Z_plus in H2. change (inject_Z 1) with 1%Q in H2.
  set (m := Qfloor (q + (1 # 2))) in *. clearbody m.
  assert (Ha : (inject_Z m < inject_Z 361)%Q)
    by (change (inject_Z 361) with 361%Q; lra).
  assert (Hb : (inject_Z (-1) < inject_Z m)%Q)
    by (change (inject_Z (-1)) with (-1)%Q; lra).
  rewrite <- Zlt_Qlt in Ha, Hb. split; [lia|].
  unfold num_ge, num_le. cbn -[Qcompare].
  destruct (Qcompare_spec (719 # 2) q) as [E|E|E]; split; intros H;
    try reflexivity; try discriminate.
  - assert (Hc : (inject_Z 359 < inject_Z m)%Q)
      by (change (inject_Z 359) with 359%Q; lra).
    rewrite <- Zlt_Qlt in Hc. lia.
  - assert (Hc : (inject_Z 359 < inject_Z m)%Q)
      by (change (inject_Z 359) with 359%Q; lra).
    rewrite <- Zlt_Qlt in Hc. lia.
  - exfalso. rewrite H in H1. change (inject_Z 360) with 360%Q in H1. lra.
Qed.

(** X22. The azimuths of a formatted pass are whole degrees from 0 to 360,
    both included: an azimuth of 359.5 degrees or more, though below 360,
    is rounded to 360 and shown as such, not as 0. *)
Theorem formatted_azimuths (pass : SatellitePass) :
  num_in 0 360 (Pass.startAz pass) ->
  num_in 0 360 (Pass.endAz pass) ->
  (exists m : Z,
      Formatted.azimuthStart (format_pass pass) = of_Z m /\ 0 <= m <= 360
      /\ (m = 360 <-> num_ge (Pass.startAz pass) (Fin (719 # 2)) = true))
  /\ (exists m : Z,
         Formatted.azimuthEnd (format_pass pass) = of_Z m /\ 0 <= m <= 360
         /\ (m = 360 <-> num_ge (Pass.endAz pass) (Fin (719 # 2)) = true)).
Proof.
  intros Hs He. split; simpl; now apply Math_round_azimuth.
Qed.

Section FormattedPasses.
Context {lib : satellite.Lib} {tz : TimeZone}.
Variables (satrec : satellite.SatRec) (observer : Observer).

(** X23. In a steady walk the duration of a formatted pass is its length in
    whole minutes, one at least, with nothing lost in the rounding: a pass
    that ends [n] minutes after it starts is shown with the duration [n]. *)
Theorem formatted_duration_minutes (startT endT : Date) (p : SatellitePass) :
  steady startT endT ->
  p ∈ calculatePasses satrec observer startT endT ->
  exists n : Z,
    1 <= n
    /\ Pass.endTime p = Pass.startTime p + 60000 * n
    /\ Formatted.duration (format_pass p) = of_Z n.
Proof.
  intros Hsteady Hin.
  destruct (calculatePasses_exact satrec observer startT endT p Hsteady Hin)
    as ((_ & _ & _ & Hdur)
        & ((k1 & _ & Hk1 & _) & (k2 & _ & Hk2 & _) & Hlt & _)).
  exists (k2 - k1). split_and!; [lia|lia|].
  simpl. rewrite Hdur.
  replace (Pass.endTime p - Pass.startTime p) with (60000 * (k2 - k1)) by lia.
  unfold num_div, of_Z. change (Qeq_bool 1000 0) with false.
  change (Qeq_bool 60 0) with false. cbv iota. unfold Math_round, of_Z.
  f_equal. f_equal. apply Qfloor_unique.
  - rewrite !inject_Z_mult. change (inject_Z 60000) with 60000%Q.
    assert (E : (60000 * inject_Z (k2 - k1) / 1000 / 60
                 == inject_Z (k2 - k1))%Q) by field.
    rewrite E. lra.
  - rewrite !inject_Z_mult. change (inject_Z 60000) with 60000%Q.
    assert (E : (60000 * inject_Z (k2 - k1) / 1000 / 60
                 == inject_Z (k2 - k1))%Q) by field.
    rewrite E. lra.
Qed.

(** X24. The peak of a formatted pass is a whole number of degrees, 10 at
    least (or infinite): a peak between 10 and 10.5 degrees, above the
    threshold, is shown as 10. *)
Theorem formatted_peak_at_least_10 (startT endT : Date) (p : SatellitePass) :
  p ∈ calculatePasses satrec observer startT endT ->
  Formatted.maxElevation (format_pass p) = Infinity
  \/ exists m : Z,
       Formatted.maxElevation (format_pass p) = of_Z m /\ 10 <= m.
Proof.
  intros Hin.
  destruct (trace_inv_final satrec observer startT endT)
    as (_ & Hpeak & _).
  fold (calculatePasses satrec observer startT endT) in Hpeak.
  rewrite Forall_forall in Hpeak.
  destruct (Hpeak p Hin) as (Hgt & _).
  apply num_gt_Fin in Hgt as [Hinf|(r & Hr & Hlt)]; simpl; rewrite ?Hinf, ?Hr.
  - left. reflexivity.
  - right. exists (Qfloor (r + (1 # 2))). split; [reflexivity|].
    pose proof (Qlt_floor (r + (1 # 2))) as H2.
    rewrite inject_Z_plus in H2. change (inject_Z 1) with 1%Q in H2.
    assert (Ha : (inject_Z 9 < inject_Z (Qfloor (r + (1 # 2))))%Q)
      by (change (inject_Z 9) with 9%Q; lra).
    rewrite <- Zlt_Qlt in Ha. lia.
Qed.

End FormattedPasses.

(** ** The further properties at work on the stubs *)

(** X1 on the pass of the stub with a gap. *)
Lemma calculatePasses_peak_is_maximum_witness :
  (forall d el raw,
      inside (Pass.startTime gap_pass) (Pass.endTime gap_pass) d ->
      @sample stub_gap tt origin d = Some (el, raw) ->
      num_ge (Pass.maxElevation gap_pass) el = true)
  /\ (exists d raw,
         inside (Pass.startTime gap_pass) (Pass.endTime gap_pass) d
         /\ @sample stub_gap tt origin d
            = Some (Pass.maxElevation gap_pass, raw)).
Proof.
  apply (@calculatePasses_peak_is_maximum stub_gap utc_zone tt origin 0
           120000).
  - apply fixed_zone_steady.
  - vm_compute. constructor.
Defined.

(** X2 on the same pass: its second minute was skipped, its third is below
    the threshold. *)
Lemma calculatePasses_ends_at_first_drop_witness :
  @below stub_gap tt origin (Pass.endTime gap_pass) = true
  /\ (forall d,
         inside (Pass.startTime gap_pass) (Pass.endTime gap_pass) d ->
         @sample stub_gap tt origin d = None
         \/ @visible stub_gap tt origin d = true).
Proof.
  apply (@calculatePasses_ends_at_first_drop stub_gap utc_zone tt origin 0
           120000).
  - apply fixed_zone_steady.
  - vm_compute. constructor.
Defined.

(** X3 on the same pass. *)
Lemma calculatePasses_azimuths_witness :
  @azimuth_at stub_gap tt origin (Pass.startTime gap_pass)
  = Some (Pass.startAz gap_pass)
  /\ @azimuth_at stub_gap tt origin (Pass.endTime gap_pass)
     = Some (Pass.endAz gap_pass).
Proof.
  apply (@calculatePasses_azimuths stub_gap utc_zone tt origin 0 120000).
  vm_compute. constructor.
Defined.

(** X4 on the same pass: two minutes. *)
Lemma calculatePasses_duration_witness :
  Pass.duration gap_pass
  = num_div (of_Z (Pass.endTime gap_pass - Pass.startTime gap_pass))
            (Fin 1000)
  /\ exists n : Z,
       1 <= n
       /\ Pass.endTime gap_pass = Pass.startTime gap_pass + 60000 * n
       /\ num_is (Pass.duration gap_pass) (inject_Z (60 * n)).
Proof.
  destruct (@calculatePasses_duration stub_gap utc_zone tt origin 0 120000
              gap_pass) as [Hformula Hminutes].
  - vm_compute. constructor.
  - split; [exact Hformula|]. apply Hminutes. apply fixed_zone_steady.
Defined.

(** X5 on a stub with two passes. *)
Lemma calculatePasses_disjoint_witness :
  exists p q,
    @calculatePasses stub_two_passes utc_zone tt origin 0 480000 !! 0%nat = Some p
    /\ @calculatePasses stub_two_passes utc_zone tt origin 0 480000 !! 1%nat = Some q
    /\ Pass.endTime p < Pass.startTime q.
Proof.
  do 2 eexists. split; [vm_compute; reflexivity|].
  split; [vm_compute; reflexivity|].
  apply (@calculatePasses_disjoint stub_two_passes utc_zone tt origin 0 480000
           0 1).
  - apply fixed_zone_steady.
  - lia.
  - vm_compute. reflexivity.
  - vm_compute. reflexivity.
Defined.

(** X7 on a stub whose elevations are 5, 10 and 3 degrees. *)
Lemma calculatePasses_none_visible_witness :
  @calculatePasses stub_low utc_zone tt origin 0 86400000 = [].
Proof.
  apply (@calculatePasses_none_visible stub_low utc_zone tt origin).
  intros d _. unfold visible.
  destruct (@sample stub_low tt origin d) as [[el raw]|] eqn:Hs;
    [|reflexivity].
  apply stub_lib_sample in Hs. apply list_elem_of_In in Hs. simpl in Hs.
  destruct Hs as [[= <- <-]|[[= <- <-]|[[= <- <-]|[]]]]; reflexivity.
Defined.

(** X8 on the stub of the end-to-end test: the fourth sample is visible,
    the sixth is not. *)
Lemma calculatePasses_complete_witness :
  exists p,
    p ∈ @calculatePasses stub_six utc_zone tt origin 1700000000000
          (1700000000000 + 86400000)
    /\ Pass.startTime p <= 1700000000000 + 180000 < Pass.endTime p.
Proof.
  apply (@calculatePasses_complete stub_six utc_zone tt origin 1700000000000
           (1700000000000 + 86400000) (1700000000000 + 180000)
           (1700000000000 + 300000)).
  - apply fixed_zone_steady.
  - exists 3. lia.
  - vm_compute. reflexivity.
  - exists 5. lia.
  - lia.
  - vm_compute. reflexivity.
Defined.

(** X9 on the stub with two passes: the first pass of the long window is
    the pass of the short one. *)
Lemma calculatePasses_window_prefix_witness :
  @calculatePasses stub_two_passes utc_zone tt origin 0 200000
  `prefix_of` @calculatePasses stub_two_passes utc_zone tt origin 0 480000.
Proof.
  apply (@calculatePasses_window_prefix stub_two_passes utc_zone tt origin 0
           200000 480000).
  lia.
Defined.

(** X10 from an empty cache. *)
Lemma fetchTLE_refresh_witness :
  exists w' n,
    fetchTLE (stub_env iss_text) "25544" empty_world = (Returned iss_tle, w')
    /\ requests w' = [tle_url "25544"]
    /\ clockReads w' = S n
    /\ tleCache w' =
       <["25544" := {| tle := iss_tle;
                       timestamp := clock (stub_env iss_text) n |}]> ∅.
Proof.
  apply (fetchTLE_refresh (stub_env iss_text) empty_world "25544" iss_text
           (TLE.name iss_tle) (TLE.line1 iss_tle) (TLE.line2 iss_tle) []).
  - left. apply lookup_empty.
  - reflexivity.
  - reflexivity.
Defined.

(** X11 after a fetch from an empty cache: the second call, one second
    later, is a hit. *)
Lemma fetchTLE_then_cache_hit_witness :
  exists entry,
    tleCache fetched_world !! "25544" = Some entry
    /\ tle entry = iss_tle
    /\ (clock (stub_env iss_text) (clockReads fetched_world) - timestamp entry
        < TLE_CACHE_DURATION ->
        exists w2,
          fetchTLE (stub_env iss_text) "25544" fetched_world
          = (Returned iss_tle, w2)
          /\ requests w2 = requests fetched_world
          /\ tleCache w2 = tleCache fetched_world).
Proof.
  apply (fetchTLE_then_cache_hit (stub_env iss_text) empty_world
           fetched_world "25544" iss_tle).
  reflexivity.
Defined.

(** X12 on the same fetch: the entry of another identifier stays absent. *)
Lemma fetchTLE_frame_witness :
  (forall other : string,
      other <> "25544" ->
      tleCache fetched_world !! other = tleCache empty_world !! other)
  /\ console fetched_world = console empty_world
  /\ (requests fetched_world = requests empty_world
      \/ requests fetched_world = requests empty_world ++ [tle_url "25544"]).
Proof.
  apply (fetchTLE_frame (stub_env iss_text) empty_world fetched_world "25544"
           (Returned iss_tle)).
  reflexivity.
Defined.

(** X13 on a network that rejects every request. *)
Lemma fetchTLE_throws_wrapped_witness :
  (exists cause,
      failure_cause (remote stub_offline (tle_url "25544")) = Some cause
      /\ ErrorObject "Error" "Failed to fetch TLE data: TypeError: fetch failed"
         = ErrorObject "Error"
             ("Failed to fetch TLE data: " +:+ String_of cause))
  /\ tleCache
       {| tleCache := ∅; clockReads := 0;
          requests := [tle_url "25544"]; console := [] |}
     = tleCache empty_world.
Proof.
  apply (fetchTLE_throws_wrapped stub_offline empty_world
           {| tleCache := ∅; clockReads := 0;
              requests := [tle_url "25544"]; console := [] |}
           "25544"
           (ErrorObject "Error"
              "Failed to fetch TLE data: TypeError: fetch failed")).
  reflexivity.
Defined.

(** X14 on the element set of the tests as the remote source sends it. *)
Lemma fetchTLE_crlf_witness :
  exists w',
    fetchTLE (stub_env iss_text_crlf) "25544" empty_world =
    (Returned {| TLE.name := trim (TLE.name iss_tle);
                 TLE.line1 := trim (TLE.line1 iss_tle);
                 TLE.line2 := trim (TLE.line2 iss_tle) |}, w')
    /\ exists entry,
         tleCache w' !! "25544" = Some entry
         /\ tle entry = {| TLE.name := trim (TLE.name iss_tle);
                           TLE.line1 := trim (TLE.line1 iss_tle);
                           TLE.line2 := trim (TLE.line2 iss_tle) |}.
Proof.
  apply (fetchTLE_crlf (stub_env iss_text_crlf) empty_world "25544"
           (TLE.name iss_tle) (TLE.line1 iss_tle) (TLE.line2 iss_tle)).
  - left. apply lookup_empty.
  - reflexivity.
  - reflexivity.
  - reflexivity.
  - reflexivity.
Defined.

Example trim_iss_tle :
  {| TLE.name := trim (TLE.name iss_tle);
     TLE.line1 := trim (TLE.line1 iss_tle);
     TLE.line2 := trim (TLE.line2 iss_tle) |} = iss_tle.
Proof. reflexivity. Qed.

(** X16 on the empty body of the integration test and on an empty
    latitude. *)
Lemma missing_parameters_rejected_witness :
  @passesPrediction stub_six utc_zone (stub_env iss_text) (request "25544" "" "180")
                    empty_world
  = (Returned (error_response 400 "Missing required parameters"), empty_world).
Proof.
  apply (@missing_parameters_rejected stub_six utc_zone (stub_env iss_text)).
  right. right. right. left. reflexivity.
Defined.

(** X18 on a network that rejects every request. *)
Lemma fetch_failure_reported_witness :
  exists w',
    @passesPrediction stub_six utc_zone stub_offline
      (request "25544" "37.7749" "-122.4194") empty_world =
    (Returned
       {| status := 500;
          body := ErrorBody "Failed to calculate passes"
                    (Some ("Failed to fetch TLE data: "
                           +:+ String_of
                                 (ErrorObject "TypeError" "fetch failed"))) |},
     w')
    /\ tleCache w' = tleCache empty_world
    /\ console w' = console empty_world ++ ["Full error details:"].
Proof.
  apply (@fetch_failure_reported stub_six utc_zone stub_offline
           (request "25544" "37.7749" "-122.4194") empty_world
           (ErrorObject "TypeError" "fetch failed")).
  - reflexivity.
  - reflexivity.
  - left. apply lookup_empty.
  - reflexivity.
Defined.

(** X19 with a library that compiles no element set. *)
Lemma unparsable_element_set_cached_witness :
  @passesPrediction stub_unparsable utc_zone (stub_env iss_text)
    (request "25544" "37.7749" "-122.4194") empty_world
  = (Returned (error_response 400 "Error parsing TLE data"), fetched_world)
  /\ exists entry,
       tleCache fetched_world !! "25544" = Some entry
       /\ tle entry = iss_tle.
Proof.
  apply (@unparsable_element_set_cached stub_unparsable utc_zone
           (stub_env iss_text)
           (request "25544" "37.7749" "-122.4194") empty_world fetched_world
           iss_tle); reflexivity.
Defined.

(** X20 on the request of the integration test, with the stub of the
    end-to-end test. *)
Lemma passesPrediction_success_witness :
  @passesPrediction stub_six utc_zone (stub_env iss_text)
    (request "25544" "37.7749" "-122.4194") empty_world
  = (Returned
       {| status := 200;
          body :=
            PassesBody
              (map format_pass
                 (@calculatePasses stub_six utc_zone tt
                    (@observer_of stub_six (parseFloat "37.7749")
                                  (parseFloat "-122.4194"))
                    (clock (stub_env iss_text) 1)
                    (clock (stub_env iss_text) 1 + 86400000))) |},
     after_calculation fetched_world).
Proof.
  apply (@passesPrediction_success stub_six utc_zone (stub_env iss_text)
           (request "25544" "37.7749" "-122.4194") empty_world fetched_world
           iss_tle tt); reflexivity.
Defined.


(** X22 on a pass whose azimuths are 359.6 and 359.4 degrees: shown as 360
    and 359. *)
Lemma formatted_azimuths_witness :
  (exists m : Z,
      Formatted.azimuthStart (format_pass pass_north) = of_Z m
      /\ 0 <= m <= 360
      /\ (m = 360
          <-> num_ge (Pass.startAz pass_north) (Fin (719 # 2)) = true))
  /\ (exists m : Z,
         Formatted.azimuthEnd (format_pass pass_north) = of_Z m
         /\ 0 <= m <= 360
         /\ (m = 360
             <-> num_ge (Pass.endAz pass_north) (Fin (719 # 2)) = true)).
Proof.
  apply (formatted_azimuths pass_north); split; vm_compute; congruence.
Defined.

Example formatted_azimuths_north :
  Formatted.azimuthStart (format_pass pass_north) = Fin 360
  /\ Formatted.azimuthEnd (format_pass pass_north) = Fin 359.
Proof. split; reflexivity. Qed.

(** X23 on the pass of the stub with a gap: two minutes. *)
Lemma formatted_duration_minutes_witness :
  exists n : Z,
    1 <= n
    /\ Pass.endTime gap_pass = Pass.startTime gap_pass + 60000 * n
    /\ Formatted.duration (format_pass gap_pass) = of_Z n.
Proof.
  apply (@formatted_duration_minutes stub_gap utc_zone tt origin 0 120000).
  - apply fixed_zone_steady.
  - vm_compute. constructor.
Defined.

(** X24 on the same pass. *)
Lemma formatted_peak_at_least_10_witness :
  Formatted.maxElevation (format_pass gap_pass) = Infinity
  \/ exists m : Z,
       Formatted.maxElevation (format_pass gap_pass) = of_Z m /\ 10 <= m.
Proof.
  apply (@formatted_peak_at_least_10 stub_gap utc_zone tt origin 0 120000).
  vm_compute. constructor.
Defined.

